(** * Result aggregation and alpha broadcast: a shallow embedding

    This development embeds the aggregation scripts of the repository

    - [analysis/aggregate_macro_results.py]  (graph-level aggregator),
    - [analysis/aggregate_micro_results.py]  (pair-level aggregator),
    - [analysis/plot_all_summaries_plt.py]   (comparison layer, matplotlib),
    - [analysis/plot_all_summaries_sns.py]   (comparison layer, seaborn),

    and proves properties of the embedded functions.

    Numbers.  Python floats are IEEE doubles.  Where a property is about
    which values enter which formula, they are embedded as exact rationals
    extended with the three special values [+inf], [-inf] and [nan]: sums,
    products and quotients are exact (no rounding, no overflow), the
    special values follow the IEEE rules.  The square root of a finite
    non-negative value is a parameter of the development ([sqrt_fin]);
    nothing is assumed about it.  Where rounding decides a property (the
    weighted mean under equal weights), the loop is embedded a second time
    over binary64 values with the correctly rounded operations of
    [SpecFloat], and [value] relates the two embeddings.

    Artifacts.  A file is text that [json.load] rejects, a JSON value that
    is not an object (a list, a string, a number, a boolean or null), or a
    JSON object with optional members ["metadata"] (an object of scalars:
    null, number or string) and ["results"] (any JSON value; when it is a
    list, its entries are objects whose ["mse"] and ["test_samples"] are
    numbers, null or absent).  Exceptions are values of the type [result];
    a loop ends at the first one.

    Frames.  A frame is the list of its rows under their index labels,
    with its column labels.  [None] and nan are both missing values, equal
    to each other for [drop_duplicates] and last for [sort_values]; in a
    sort column numbers come before strings.

    The file has two parts: the embedding of the code together with the
    definitions that word the specification, then the properties. *)

From Stdlib Require Import String Ascii.
From Stdlib Require Import List Bool Arith Lia.
From Stdlib Require Import ZArith QArith Qcanon.
From Stdlib Require Import SpecFloat.
From Stdlib Require Import Permutation Sorted.
Import ListNotations.

Set Implicit Arguments.
Open Scope string_scope.
Open Scope list_scope.
Open Scope nat_scope.

(** ** Numbers *)

Module Num.

Inductive num : Type :=
| Fin (q : Qc)
| PInf
| NInf
| NaN.

Definition zero : num := Fin 0%Qc.
Definition of_nat (n : nat) : num := Fin (Q2Qc (inject_Z (Z.of_nat n))).

Definition Qc_eqb (a b : Qc) : bool := Qeq_bool a b.
Definition Qc_ltb (a b : Qc) : bool := negb (Qle_bool b a).
Definition Qc_leb (a b : Qc) : bool := Qle_bool a b.

(** [np.isfinite] *)
Definition isfinite (x : num) : bool :=
  match x with Fin _ => true | _ => false end.

(** [np.isnan] / [pd.isna] on a float *)
Definition isnan (x : num) : bool :=
  match x with NaN => true | _ => false end.

(** [x + y] *)
Definition add (x y : num) : num :=
  match x, y with
  | NaN, _ | _, NaN => NaN
  | Fin a, Fin b => Fin (a + b)
  | PInf, NInf | NInf, PInf => NaN
  | PInf, _ | _, PInf => PInf
  | NInf, _ | _, NInf => NInf
  end.

(** [-x] *)
Definition opp (x : num) : num :=
  match x with
  | Fin a => Fin (- a)
  | PInf => NInf
  | NInf => PInf
  | NaN => NaN
  end.

(** [x - y] *)
Definition sub (x y : num) : num := add x (opp y).

(** sign of a value: [Lt] negative, [Eq] zero, [Gt] positive; [None] for nan *)
Definition sign (x : num) : option comparison :=
  match x with
  | Fin a => Some (a ?= 0)%Qc
  | PInf => Some Gt
  | NInf => Some Lt
  | NaN => None
  end.

Definition inf_of_sign (s t : comparison) : num :=
  match s, t with
  | Eq, _ | _, Eq => NaN
  | Gt, Gt | Lt, Lt => PInf
  | _, _ => NInf
  end.

(** [x * y] *)
Definition mul (x y : num) : num :=
  match x, y with
  | Fin a, Fin b => Fin (a * b)
  | _, _ =>
      match sign x, sign y with
      | Some s, Some t => inf_of_sign s t
      | _, _ => NaN
      end
  end.

(** [x / y] for a divisor that is not zero (the callers guard it) *)
Definition div (x y : num) : num :=
  match x, y with
  | NaN, _ | _, NaN => NaN
  | Fin a, Fin b => Fin (a / b)
  | Fin _, _ => zero
  | _, Fin b =>
      match sign x, (b ?= 0)%Qc with
      | Some s, t => inf_of_sign s t
      | None, _ => NaN
      end
  | _, _ => NaN
  end.

(** [x < y], [x <= y], [x == y]: false as soon as one side is nan *)
Definition ltb (x y : num) : bool :=
  match x, y with
  | NaN, _ | _, NaN => false
  | Fin a, Fin b => Qc_ltb a b
  | NInf, NInf => false
  | NInf, _ => true
  | _, NInf => false
  | PInf, _ => false
  | _, PInf => true
  end.

Definition eqb (x y : num) : bool :=
  match x, y with
  | Fin a, Fin b => Qc_eqb a b
  | PInf, PInf | NInf, NInf => true
  | _, _ => false
  end.

Definition leb (x y : num) : bool := ltb x y || eqb x y.

(** [x > y] and [x >= y] *)
Definition gtb (x y : num) : bool := ltb y x.
Definition geb (x y : num) : bool := leb y x.

End Num.
Import Num.

(** ** Python side: exceptions, JSON values, result artifacts *)

Inductive exn : Type :=
| JSONDecodeError
| AttributeError
| TypeError
| KeyError.

Inductive result (A : Type) : Type :=
| Ok (a : A)
| Raise (e : exn).
Arguments Ok {A} a.
Arguments Raise {A} e.

Definition bind {A B : Type} (m : result A) (k : A -> result B) : result B :=
  match m with
  | Ok a => k a
  | Raise e => Raise e
  end.

Notation "x <- m ;; k" := (bind m (fun x => k))
  (at level 61, m at next level, right associativity).

(** A [for] loop whose body may raise: the first exception leaves the loop. *)
Fixpoint for_each {S A : Type} (body : S -> A -> result S) (xs : list A) (s : S)
  : result S :=
  match xs with
  | [] => Ok s
  | x :: xs' => s' <- body s x ;; for_each body xs' s'
  end.

(** A metadata value: JSON [null], a number or a string. *)
Inductive cell : Type :=
| CNone
| CNum (x : num)
| CStr (s : string).

(** A JSON object holding scalars, as the [dict] that [json.load] builds. *)
Definition dict : Type := list (string * cell).

(** [d.get(k)]: [None] when the key is absent *)
Fixpoint dict_get (d : dict) (k : string) : cell :=
  match d with
  | [] => CNone
  | (k', v) :: d' => if String.eqb k' k then v else dict_get d' k
  end.

(** One entry of the ["results"] list.  A field is [None] when the key is
    absent or holds JSON [null]; both aggregators treat the two alike. *)
Record measurement : Type := Measurement {
  mse : option num;
  test_samples : option num
}.

(** The value stored under ["results"]. *)
Inductive results_value : Type :=
| RList (rs : list measurement)
| RNull
| RBool (b : bool)
| RNumber (x : num)
| RString (s : string)
| RObject (d : dict).

(** The content of one [*.json] file: text that [json.load] rejects, a JSON
    value that is not an object, or an object with optional ["metadata"]
    and ["results"] members. *)
Inductive document : Type :=
| Unparsable
| NotAnObject
| Parsed (metadata : option dict) (results : option results_value).

(** [json.load(f)] followed by the two [data.get] calls with their defaults
    [{}] and [[]].  A list, a string, a number, a boolean and [None] have
    no [get]: the first [data.get] raises [AttributeError]. *)
Definition json_load (doc : document) : result (dict * results_value) :=
  match doc with
  | Unparsable => Raise JSONDecodeError
  | NotAnObject => Raise AttributeError
  | Parsed md rs =>
      Ok (match md with Some d => d | None => [] end,
          match rs with Some v => v | None => RList [] end)
  end.

(** Python truth value of the ["results"] member ([not results] is its negation) *)
Definition results_truthy (v : results_value) : bool :=
  match v with
  | RList rs => negb (Nat.eqb (List.length rs) 0)
  | RNull => false
  | RBool b => b
  | RNumber x => negb (eqb x zero)
  | RString s => negb (String.eqb s EmptyString)
  | RObject d => negb (Nat.eqb (List.length d) 0)
  end.

(** Python truth value of a [dict] *)
Definition dict_truthy (d : dict) : bool := negb (Nat.eqb (List.length d) 0).

(** [isinstance(results, list)] *)
Definition is_list (v : results_value) : bool :=
  match v with RList _ => true | _ => false end.

(** The nine metadata keys kept in every summary row ([param_keys]). *)
Record params : Type := Params {
  condition : cell;
  alpha : cell;
  seed : cell;
  top_k : cell;
  bottom_k : cell;
  max_samples : cell;
  epochs : cell;
  batch_size : cell;
  lr : cell
}.

(** [{key: metadata.get(key) for key in param_keys}] *)
Definition params_of (metadata : dict) : params :=
  {| condition := dict_get metadata "condition";
     alpha := dict_get metadata "alpha";
     seed := dict_get metadata "seed";
     top_k := dict_get metadata "top_k";
     bottom_k := dict_get metadata "bottom_k";
     max_samples := dict_get metadata "max_samples";
     epochs := dict_get metadata "epochs";
     batch_size := dict_get metadata "batch_size";
     lr := dict_get metadata "lr" |}.

Definition set_alpha (p : params) (a : cell) : params :=
  {| condition := condition p; alpha := a; seed := seed p;
     top_k := top_k p; bottom_k := bottom_k p; max_samples := max_samples p;
     epochs := epochs p; batch_size := batch_size p; lr := lr p |}.

(** [c in ['random', 'all']] *)
Definition alpha_independent_cond (c : cell) : bool :=
  match c with
  | CStr s => String.eqb s "random" || String.eqb s "all"
  | _ => false
  end.

(** [if row.get('condition') in ['random', 'all']: row['alpha'] = np.nan] *)
Definition normalize_alpha (p : params) : params :=
  if alpha_independent_cond (condition p) then set_alpha p (CNum NaN) else p.

(** A summary row: the nine parameters and the statistics of the aggregator. *)
Record row (S : Type) : Type := Row {
  key : params;
  stats : S
}.

(** What the scripts print. *)
Inductive message : Type :=
| ErrNoFiles
| WarnInvalid (path : string)
| ErrNoData
| InfoSaved.

(** ** pandas: the frame operations the aggregators call *)

Module Pandas.

(** A frame: its column labels and its rows, each under an index label. *)
Record frame (S : Type) : Type := Frame {
  columns : list string;
  data : list (nat * row S)
}.

(** [pd.DataFrame(rows)] for a list of dicts that all have the keys
    [cols]: an empty list gives a frame without columns. *)
Definition DataFrame {S : Type} (cols : list string) (rows : list (row S))
  : frame S :=
  {| columns := match rows with [] => [] | _ => cols end;
     data := combine (seq 0 (length rows)) rows |}.

(** [df.empty] *)
Definition empty {S : Type} (df : frame S) : bool :=
  (length (columns df) =? 0) || (length (data df) =? 0).

Definition has_columns {S : Type} (df : frame S) (labels : list string) : bool :=
  forallb (fun c => existsb (String.eqb c) (columns df)) labels.

(** [pd.isna] on a cell: [None] and nan are both missing *)
Definition isna (c : cell) : bool :=
  match c with
  | CNone => true
  | CNum x => isnan x
  | CStr _ => false
  end.

(** Three-way comparison of two cells of one column; missing values are
    equal to each other and sort last ([na_position='last']); numbers come
    before strings. *)
Definition num_compare (x y : num) : comparison :=
  if ltb x y then Lt else if eqb x y then Eq else Gt.

Definition cell_compare (c1 c2 : cell) : comparison :=
  match isna c1, isna c2 with
  | true, true => Eq
  | true, false => Gt
  | false, true => Lt
  | false, false =>
      match c1, c2 with
      | CNum x, CNum y => num_compare x y
      | CStr s, CStr t => String.compare s t
      | CNum _, CStr _ => Lt
      | CStr _, CNum _ => Gt
      | _, _ => Eq
      end
  end.

(** Two cells that [duplicated] puts in one group. *)
Definition cell_same (c1 c2 : cell) : bool :=
  match cell_compare c1 c2 with Eq => true | _ => false end.

(** Equality on [subset=param_keys] *)
Definition key_same (p q : params) : bool :=
  cell_same (condition p) (condition q) &&
  cell_same (alpha p) (alpha q) &&
  cell_same (seed p) (seed q) &&
  cell_same (top_k p) (top_k q) &&
  cell_same (bottom_k p) (bottom_k q) &&
  cell_same (max_samples p) (max_samples q) &&
  cell_same (epochs p) (epochs q) &&
  cell_same (batch_size p) (batch_size q) &&
  cell_same (lr p) (lr q).

(** [keep='last']: a row is dropped when a later row has the same key. *)
Fixpoint keep_last {S : Type} (rows : list (nat * row S)) : list (nat * row S) :=
  match rows with
  | [] => []
  | r :: rest =>
      if existsb (fun r' => key_same (key (snd r)) (key (snd r'))) rest
      then keep_last rest
      else r :: keep_last rest
  end.

Definition param_keys : list string :=
  ["condition"; "alpha"; "seed"; "top_k"; "bottom_k";
   "max_samples"; "epochs"; "batch_size"; "lr"].

(** [df.drop_duplicates(subset=param_keys, keep='last', inplace=True)]:
    an empty frame is left as it is; otherwise the labels must exist. *)
Definition drop_duplicates {S : Type} (df : frame S) : result (frame S) :=
  if empty df then Ok df
  else if has_columns df param_keys
  then Ok {| columns := columns df; data := keep_last (data df) |}
  else Raise KeyError.

(** Order on [(condition, alpha, seed)], column after column. *)
Definition sort_compare (p q : params) : comparison :=
  match cell_compare (condition p) (condition q) with
  | Eq =>
      match cell_compare (alpha p) (alpha q) with
      | Eq => cell_compare (seed p) (seed q)
      | c => c
      end
  | c => c
  end.

Definition sort_le (p q : params) : bool :=
  match sort_compare p q with Gt => false | _ => true end.

(** Stable sort: a row goes before the first row that is not smaller. *)
Fixpoint insert {S : Type} (r : nat * row S) (sorted : list (nat * row S))
  : list (nat * row S) :=
  match sorted with
  | [] => [r]
  | r' :: rest =>
      if sort_le (key (snd r)) (key (snd r'))
      then r :: r' :: rest
      else r' :: insert r rest
  end.

Fixpoint stable_sort {S : Type} (rows : list (nat * row S)) : list (nat * row S) :=
  match rows with
  | [] => []
  | r :: rest => insert r (stable_sort rest)
  end.

(** [df.sort_values(by=['condition', 'alpha', 'seed'], inplace=True)]:
    the labels must exist. *)
Definition sort_values {S : Type} (df : frame S) : result (frame S) :=
  if negb (has_columns df ["condition"; "alpha"; "seed"]) then Raise KeyError
  else Ok {| columns := columns df; data := stable_sort (data df) |}.

(** [df.reset_index(drop=True, inplace=True)] *)
Definition reset_index {S : Type} (df : frame S) : frame S :=
  {| columns := columns df;
     data := combine (seq 0 (length (data df))) (map snd (data df)) |}.

(** [df.to_csv(path, index=False)]: the rows, in frame order, without
    the index. *)
Definition to_csv {S : Type} (df : frame S) : list (row S) :=
  map snd (data df).

End Pandas.
Import Pandas.

(** What one call of an aggregator leaves behind: the printed lines and the
    file written, if any. *)
Record outcome (S : Type) : Type := Outcome {
  printed : list message;
  csv : option (list (row S))
}.

(** ** numpy: [np.sqrt], [np.mean], [np.std(ddof=1)] in exact arithmetic *)

Section Numpy.

(** The square root of a finite non-negative value. *)
Variable sqrt_fin : Qc -> Qc.

(** [np.sqrt(x)] *)
Definition np_sqrt (x : num) : num :=
  match x with
  | Fin a => if Qc_leb 0 a then Fin (sqrt_fin a) else NaN
  | PInf => PInf
  | NInf => NaN
  | NaN => NaN
  end.

(** [np.sum(arr)] *)
Definition np_sum (arr : list num) : num := fold_left add arr zero.

(** [np.mean(arr)] *)
Definition np_mean (arr : list num) : num :=
  match arr with
  | [] => NaN
  | _ => div (np_sum arr) (of_nat (length arr))
  end.

(** [np.std(arr, ddof=1)]: the squared deviations from the mean, summed,
    divided by [n - 1], under a square root; nan when [n <= 1]. *)
Definition np_std_ddof1 (arr : list num) : num :=
  if length arr <=? 1 then NaN
  else
    let m := np_mean arr in
    let x := map (fun v => sub v m) arr in
    np_sqrt (div (np_sum (map (fun d => mul d d) x)) (of_nat (length arr - 1))).

(** [np.array(values, dtype=float)] turns [None] into nan. *)
Definition as_float (v : option num) : num :=
  match v with
  | Some x => x
  | None => NaN
  end.

(** [_finite(values)] *)
Definition _finite (values : list (option num)) : list num :=
  let arr := map as_float values in
  filter isfinite arr.

(** [_mean_std_sample(arr)] *)
Definition _mean_std_sample (arr : list num) : num * num :=
  if length arr =? 0 then (NaN, NaN)
  else
    let mean := np_mean arr in
    let std := if 2 <=? length arr then np_std_ddof1 arr else NaN in
    (mean, std).

(** *** Graph-level aggregator, one artifact *)

Record graph_stats : Type := GraphStats {
  mse_mean : num;
  mse_std : num;
  rmse_mean : num;
  rmse_std : num;
  n_targets_used : nat
}.

(** [[r.get('mse', np.nan) for r in results]] *)
Definition mse_column (results : list measurement) : list (option num) :=
  map mse results.

(** [[np.sqrt(x) for x in mse_list if np.isfinite(x) and x >= 0.0]] *)
Definition sqrt_of_nonnegative (mse_list : list num) : list num :=
  map np_sqrt (filter (fun x => isfinite x && geb x zero) mse_list).

(** Steps 1 to 4 of the loop body and the alpha rule: the row of one
    artifact whose metadata and results passed the validity test. *)
Definition graph_row (metadata : dict) (results : list measurement)
  : row graph_stats :=
  let mse_list := _finite (mse_column results) in
  let rmse_list := _finite (map Some (sqrt_of_nonnegative mse_list)) in
  let '(mse_mean, mse_std) := _mean_std_sample mse_list in
  let '(rmse_mean, rmse_std) := _mean_std_sample rmse_list in
  {| key := normalize_alpha (params_of metadata);
     stats := {| mse_mean := mse_mean; mse_std := mse_std;
                 rmse_mean := rmse_mean; rmse_std := rmse_std;
                 n_targets_used := length mse_list |} |}.

(** The body of [for filepath in json_files] in
    [aggregate_graph_results_from_json]; the state is what has been
    printed and [all_rows]. *)
Definition graph_body (st : list message * list (row graph_stats))
    (file : string * document)
  : result (list message * list (row graph_stats)) :=
  let '(printed, all_rows) := st in
  let '(filepath, doc) := file in
  data <- json_load doc ;;
  let '(metadata, results) := data in
  if negb (dict_truthy metadata) then
    Ok (printed ++ [WarnInvalid filepath], all_rows)
  else
    match results with
    | RList rs => Ok (printed, all_rows ++ [graph_row metadata rs])
    | _ => Ok (printed ++ [WarnInvalid filepath], all_rows)
    end.

Definition graph_columns : list string :=
  param_keys ++ ["mse_mean"; "mse_std"; "rmse_mean"; "rmse_std"; "n_targets_used"].

(** [aggregate_graph_results_from_json]: [json_files] is what the glob
    found, each path with the content of its file.  The result is the
    outcome and the frame the function returns. *)
Definition aggregate_graph_results_from_json
    (json_files : list (string * document))
  : result (outcome graph_stats * frame graph_stats) :=
  if length json_files =? 0 then
    Ok ({| printed := [ErrNoFiles]; csv := None |},
        {| columns := graph_columns; data := [] |})
  else
    st <- for_each graph_body json_files ([], []) ;;
    let '(printed, all_rows) := st in
    let df := DataFrame graph_columns all_rows in
    df <- drop_duplicates df ;;
    df <- sort_values df ;;
    let df := reset_index df in
    Ok ({| printed := printed ++ [InfoSaved]; csv := Some (to_csv df) |}, df).

(** The [__main__] loop [for model in models]: one call per input root,
    an exception ends the loop. *)
Definition graph_main (roots : list (list (string * document)))
  : result (list (outcome graph_stats)) :=
  for_each
    (fun done json_files =>
       r <- aggregate_graph_results_from_json json_files ;;
       Ok (done ++ [fst r]))
    roots [].

End Numpy.

(** *** Pair-level aggregator, one artifact *)

(** The body of [for r in results]; the state is
    [(total_mse_product, total_test_samples)]. *)
Definition pair_accumulate (acc : num * num) (r : measurement) : num * num :=
  let '(total_mse_product, total_test_samples) := acc in
  match mse r, test_samples r with
  | Some m, Some ts =>
      if gtb ts zero
      then (add total_mse_product (mul m ts), add total_test_samples ts)
      else acc
  | _, _ => acc
  end.

(** [overall_mse] from the two totals *)
Definition overall_of (acc : num * num) : num :=
  let '(total_mse_product, total_test_samples) := acc in
  if gtb total_test_samples zero
  then div total_mse_product total_test_samples
  else NaN.

Definition pair_row (metadata : dict) (results : list measurement) : row num :=
  {| key := normalize_alpha (params_of metadata);
     stats := overall_of (fold_left pair_accumulate results (zero, zero)) |}.

(** [for r in results] over a value that is not a list: a number or a
    boolean is not iterable; a string yields characters and a dict yields
    its keys, on which [r.get] does not exist.  Reached only for truthy
    values. *)
Definition iterate_non_list (v : results_value) : exn :=
  match v with
  | RString _ | RObject _ => AttributeError
  | _ => TypeError
  end.

(** The body of [for filepath in json_files] in [aggregate_results_from_json]. *)
Definition pair_body (st : list message * list (row num))
    (file : string * document)
  : result (list message * list (row num)) :=
  let '(printed, all_runs_data) := st in
  let '(filepath, doc) := file in
  data <- json_load doc ;;
  let '(metadata, results) := data in
  if negb (dict_truthy metadata) || negb (results_truthy results) then
    Ok (printed ++ [WarnInvalid filepath], all_runs_data)
  else
    match results with
    | RList rs => Ok (printed, all_runs_data ++ [pair_row metadata rs])
    | _ => Raise (iterate_non_list results)
    end.

Definition pair_columns : list string := param_keys ++ ["overall_mse"].

(** [aggregate_results_from_json] *)
Definition aggregate_results_from_json (json_files : list (string * document))
  : result (outcome num) :=
  if length json_files =? 0 then
    Ok {| printed := [ErrNoFiles]; csv := None |}
  else
    st <- for_each pair_body json_files ([], []) ;;
    let '(printed, all_runs_data) := st in
    if length all_runs_data =? 0 then
      Ok {| printed := printed ++ [ErrNoData]; csv := None |}
    else
      let df := DataFrame pair_columns all_runs_data in
      df <- drop_duplicates df ;;
      Ok {| printed := printed ++ [InfoSaved]; csv := Some (to_csv df) |}.

(** The three calls under [__main__], one after the other. *)
Definition pair_main (roots : list (list (string * document)))
  : result (list (outcome num)) :=
  for_each
    (fun done json_files =>
       r <- aggregate_results_from_json json_files ;;
       Ok (done ++ [r]))
    roots [].

(** ** The statistics as the specification words them *)

(** The statistics in the words of the specification, over a population
    of finite values. *)
Definition Qc_sum (pop : list Qc) : Qc := fold_right Qcplus 0%Qc pop.

Definition Qc_of_nat (n : nat) : Qc := Q2Qc (inject_Z (Z.of_nat n)).

Definition mean_value (pop : list Qc) : Qc :=
  (Qc_sum pop / Qc_of_nat (length pop))%Qc.

(** Sum of squared deviations from the mean, divided by [n - 1]. *)
Definition sample_variance (pop : list Qc) : Qc :=
  (Qc_sum (map (fun x => (x - mean_value pop) * (x - mean_value pop)) pop)
   / Qc_of_nat (length pop - 1))%Qc.

Definition sample_mean (pop : list Qc) : num :=
  match pop with
  | [] => NaN
  | _ => Fin (mean_value pop)
  end.

(** The mse values that are kept: present and finite. *)
Definition retained_mse (results : list measurement) : list Qc :=
  flat_map (fun r => match mse r with Some (Fin q) => [q] | _ => [] end) results.

Section SampleStatistics.

Variable sqrt_fin : Qc -> Qc.

Definition sample_std (pop : list Qc) : num :=
  if length pop <? 2 then NaN else Fin (sqrt_fin (sample_variance pop)).

(** The rmse values: square roots of the kept mse values that are not
    negative. *)
Definition rmse_population (results : list measurement) : list Qc :=
  map sqrt_fin (filter (fun q => Qc_leb 0 q) (retained_mse results)).

End SampleStatistics.

(** ** Test data *)

(** A square root for examples: exact on the squares of integers. *)
Definition integer_sqrt (q : Qc) : Qc :=
  Q2Qc (inject_Z (Z.sqrt (Qnum q / Zpos (Qden q)))).

Definition topk_metadata : dict :=
  [("condition", CStr "topk"); ("alpha", CNum (of_nat 50)); ("seed", CNum (of_nat 1))].

Definition two_measurements : list measurement :=
  [ {| mse := Some (of_nat 4); test_samples := Some (of_nat 10) |};
    {| mse := Some (of_nat 16); test_samples := Some (of_nat 10) |} ].

Definition topk_document : document :=
  Parsed (Some topk_metadata) (Some (RList two_measurements)).

(** ** The weighted mean as the specification words it *)

(** [Σ] over a list of values *)
Definition sum_num (l : list num) : num := fold_right add zero l.

(** A measurement counts when mse and test_samples are both present and
    test_samples is positive. *)
Definition usable (r : measurement) : bool :=
  match mse r, test_samples r with
  | Some _, Some ts => gtb ts zero
  | _, _ => false
  end.

Definition product_of (r : measurement) : num :=
  mul (as_float (mse r)) (as_float (test_samples r)).

(** [Σ (mse_i × samples_i)] and [Σ samples_i] over the usable measurements *)
Definition weighted_sum (rs : list measurement) : num :=
  sum_num (map product_of (filter usable rs)).

Definition weight_sum (rs : list measurement) : num :=
  sum_num (map (fun r => as_float (test_samples r)) (filter usable rs)).

(** The unweighted arithmetic mean of the mse values of all measurements *)
Definition unweighted_mean (rs : list measurement) : num :=
  div (sum_num (map (fun r => as_float (mse r)) rs)) (of_nat (length rs)).

(** Every measurement has an mse and the same sample count [w]. *)
Definition equal_weights (w : Qc) (rs : list measurement) : Prop :=
  Forall (fun r => mse r <> None /\ test_samples r = Some (Fin w)) rs.

(** ** The pair-level loop over binary64 values *)

(** IEEE binary64 (53 bits of precision, infinities at exponent 1024) with
    the correctly rounded operations of [SpecFloat]. *)
Module Binary64.

Definition float : Type := spec_float.

Definition prec : Z := 53.
Definition emax : Z := 1024.

Definition zero : float := S754_zero false.
Definition nan : float := S754_nan.

(** [x + y], [x * y], [x / y], rounded to nearest, ties to even *)
Definition add : float -> float -> float := SFadd prec emax.
Definition mul : float -> float -> float := SFmul prec emax.
Definition div : float -> float -> float := SFdiv prec emax.

(** [x < y] *)
Definition ltb : float -> float -> bool := SFltb.

(** The float of an integer, and the float that the JSON parser reads from
    the decimal fraction [n / d]: the nearest one. *)
Definition of_Z (n : Z) : float := binary_normalize prec emax n 0 false.
Definition of_fraction (n d : Z) : float := div (of_Z n) (of_Z d).

(** The number a float stands for: [(-1)^s * m * 2^e] when it is finite. *)
Definition value (x : float) : num :=
  match x with
  | S754_zero _ => Num.zero
  | S754_infinity s => if s then NInf else PInf
  | S754_nan => NaN
  | S754_finite s m e =>
      let n := if s then Zneg m else Zpos m in
      Fin (Q2Qc (match e with
                 | Z0 => inject_Z n
                 | Zpos k => inject_Z (n * Zpos (2 ^ k))
                 | Zneg k => Qmake n (2 ^ k)
                 end))
  end.

End Binary64.

(** One entry of the ["results"] list with its numbers as the floats that
    [json.load] returns.  A sample count written as an integer is the float
    of the same value: Python adds such counts as integers, which gives the
    same totals as long as the float sums below are exact. *)
Record measurement_binary64 : Type := MeasurementBinary64 {
  mse_binary64 : option Binary64.float;
  test_samples_binary64 : option Binary64.float
}.

(** The body of [for r in results] *)
Definition pair_accumulate_binary64 (acc : Binary64.float * Binary64.float)
    (r : measurement_binary64) : Binary64.float * Binary64.float :=
  let '(total_mse_product, total_test_samples) := acc in
  match mse_binary64 r, test_samples_binary64 r with
  | Some m, Some ts =>
      if Binary64.ltb Binary64.zero ts
      then (Binary64.add total_mse_product (Binary64.mul m ts),
            Binary64.add total_test_samples ts)
      else acc
  | _, _ => acc
  end.

(** [overall_mse] from the two totals *)
Definition overall_of_binary64 (acc : Binary64.float * Binary64.float)
  : Binary64.float :=
  let '(total_mse_product, total_test_samples) := acc in
  if Binary64.ltb Binary64.zero total_test_samples
  then Binary64.div total_mse_product total_test_samples
  else Binary64.nan.

(** The two totals start at [0]; [overall_mse] of one artifact. *)
Definition overall_mse_binary64 (results : list measurement_binary64)
  : Binary64.float :=
  overall_of_binary64
    (fold_left pair_accumulate_binary64 results (Binary64.zero, Binary64.zero)).

(** The numbers that the floats of a measurement stand for. *)
Definition exact_measurement (r : measurement_binary64) : measurement :=
  {| mse := option_map Binary64.value (mse_binary64 r);
     test_samples := option_map Binary64.value (test_samples_binary64 r) |}.

(** Two values that are the same number, or both nan. *)
Definition same_number (x y : num) : bool :=
  match x, y with
  | NaN, NaN => true
  | _, _ => eqb x y
  end.

(** An operation that did not round: the float it returns stands for the
    exact sum, product or quotient of its operands. *)
Definition exact_add (a b : Binary64.float) : bool :=
  same_number (Binary64.value (Binary64.add a b))
              (add (Binary64.value a) (Binary64.value b)).

Definition exact_mul (a b : Binary64.float) : bool :=
  same_number (Binary64.value (Binary64.mul a b))
              (mul (Binary64.value a) (Binary64.value b)).

Definition exact_div (a b : Binary64.float) : bool :=
  same_number (Binary64.value (Binary64.div a b))
              (div (Binary64.value a) (Binary64.value b)).

(** No operation of one turn of the loop rounds. *)
Definition exact_turn (acc : Binary64.float * Binary64.float)
    (r : measurement_binary64) : bool :=
  let '(total_mse_product, total_test_samples) := acc in
  match mse_binary64 r, test_samples_binary64 r with
  | Some m, Some ts =>
      if Binary64.ltb Binary64.zero ts
      then exact_mul m ts
           && exact_add total_mse_product (Binary64.mul m ts)
           && exact_add total_test_samples ts
      else true
  | _, _ => true
  end.

(** No operation of the loop started at [acc], nor the final division,
    rounds. *)
Fixpoint rounding_free (acc : Binary64.float * Binary64.float)
    (results : list measurement_binary64) : bool :=
  match results with
  | [] =>
      let '(total_mse_product, total_test_samples) := acc in
      if Binary64.ltb Binary64.zero total_test_samples
      then exact_div total_mse_product total_test_samples
      else true
  | r :: rest =>
      exact_turn acc r && rounding_free (pair_accumulate_binary64 acc r) rest
  end.

(** Every measurement has an mse and the same sample count [w]. *)
Definition equal_weights_binary64 (w : Binary64.float)
    (rs : list measurement_binary64) : Prop :=
  Forall (fun r => mse_binary64 r <> None /\ test_samples_binary64 r = Some w) rs.

(** The claim of the specification about equal weights, on the floats. *)
Definition equal_weights_claim : Prop :=
  forall (w : Binary64.float) (rs : list measurement_binary64),
    isfinite (Binary64.value w) = true ->
    Binary64.ltb Binary64.zero w = true ->
    rs <> [] ->
    equal_weights_binary64 w rs ->
    Binary64.value (overall_mse_binary64 rs)
    = unweighted_mean (map exact_measurement rs).

(** One measurement [{"mse": 0.1, "test_samples": 3}]. *)
Definition tenth_measured_on_three : list measurement_binary64 :=
  [ {| mse_binary64 := Some (Binary64.of_fraction 1 10);
       test_samples_binary64 := Some (Binary64.of_Z 3) |} ].

(** Two measurements [{"mse": 0.5, "test_samples": 2}] and
    [{"mse": 0.25, "test_samples": 2}]. *)
Definition halves_measured_on_two : list measurement_binary64 :=
  [ {| mse_binary64 := Some (Binary64.of_fraction 1 2);
       test_samples_binary64 := Some (Binary64.of_Z 2) |};
    {| mse_binary64 := Some (Binary64.of_fraction 1 4);
       test_samples_binary64 := Some (Binary64.of_Z 2) |} ].

(** ** Test data: an alpha-independent run that declares an alpha *)

Definition all_metadata : dict :=
  [("condition", CStr "all"); ("alpha", CNum (of_nat 50)); ("seed", CNum (of_nat 2))].

Definition all_document : document :=
  Parsed (Some all_metadata) (Some (RList two_measurements)).

(** ** The alpha rule *)

(** Under condition ['all'] or ['random'] the alpha of a row is nan. *)
Definition alpha_rule (p : params) : Prop :=
  condition p = CStr "all" \/ condition p = CStr "random" -> alpha p = CNum NaN.

(** ** Deduplication and order as the specification words them *)

(** The rows that no later row repeats: the last occurrence of every key,
    in processing order. *)
Fixpoint last_occurrences {S : Type} (rows : list (row S)) : list (row S) :=
  match rows with
  | [] => []
  | r :: rest =>
      if existsb (fun r' => key_same (key r) (key r')) rest
      then last_occurrences rest
      else r :: last_occurrences rest
  end.

(** [r] is in [rows] and no later row has its key. *)
Definition is_last_occurrence {S : Type} (r : row S) (rows : list (row S)) : Prop :=
  exists before after,
    rows = before ++ r :: after /\
    Forall (fun r' => key_same (key r) (key r') = false) after.

(** Ascending on [(condition, alpha, seed)] *)
Definition row_le {S : Type} (a b : row S) : Prop :=
  sort_le (key a) (key b) = true.

(** The final table as the specification words it: the last occurrences,
    in ascending order. *)
Definition deduplicated_and_sorted {S : Type} (all_rows table : list (row S)) : Prop :=
  Permutation table (last_occurrences all_rows) /\ Sorted (@row_le S) table.

(** Two runs found in this order: a [topk] run, then an [all] run. *)
Definition topk_then_all : list (string * document) :=
  [("a.json", topk_document); ("b.json", all_document)].

(** A re-run of the [all] configuration with other measurements. *)
Definition all_document_rerun : document :=
  Parsed (Some all_metadata)
         (Some (RList [ {| mse := Some (of_nat 9); test_samples := Some (of_nat 5) |} ])).

(** ** Malformed artifacts *)

(** The three failures of the parser: the text cannot be parsed, the
    metadata object is absent or empty (a document that is not an object
    has none), the results member is not a list. *)
Definition malformed (doc : document) : Prop :=
  doc = Unparsable \/
  (doc = NotAnObject \/
   exists rs, doc = Parsed None rs \/ doc = Parsed (Some []) rs) \/
  (exists md v, doc = Parsed md (Some v) /\ is_list v = false).

(** The loop adds no row for [file], prints the warning and goes on with
    the files that follow. *)
Definition skipped_with_warning {S : Type}
    (body : list message * list (row S) -> string * document
            -> result (list message * list (row S)))
    (file : string * document) : Prop :=
  forall printed all_rows rest,
    for_each body (file :: rest) (printed, all_rows)
    = for_each body rest (printed ++ [WarnInvalid (fst file)], all_rows).

(** The claim of the specification about partial failure. *)
Definition partial_failure_never_aborts (sqrt_fin : Qc -> Qc) : Prop :=
  forall filepath doc,
    malformed doc ->
    skipped_with_warning (graph_body sqrt_fin) (filepath, doc) /\
    skipped_with_warning pair_body (filepath, doc).

(** An artifact with an empty metadata object. *)
Definition empty_metadata_document : document :=
  Parsed (Some []) (Some (RList two_measurements)).

(** A root directory whose only artifact is invalid. *)
Definition only_invalid : list (string * document) :=
  [("empty.json", empty_metadata_document)].

(** ** Comparison layer: summary tables and the alpha broadcast *)

(** A row of a summary file as [pd.read_csv] returns it: its condition, its
    alpha and its numeric columns by label.  An empty field reads as nan. *)
Record summary_row : Type := SummaryRow {
  s_condition : cell;
  s_alpha : num;
  s_metrics : list (string * num)
}.

(** A summary file: the labels of its header and its rows. *)
Record table : Type := Table {
  t_columns : list string;
  t_rows : list summary_row
}.

(** [label in df.columns] *)
Definition has_column (t : table) (label : string) : bool :=
  existsb (String.eqb label) (t_columns t).

Fixpoint lookup_metric (ms : list (string * num)) (label : string) : num :=
  match ms with
  | [] => NaN
  | (l, x) :: ms' => if String.eqb l label then x else lookup_metric ms' label
  end.

(** The value of a column in a row; nan when the table has no such column
    (what the scripts assign, and what [pd.concat] fills in). *)
Definition condition_of (t : table) (r : summary_row) : cell :=
  if has_column t "condition" then s_condition r else CNum NaN.

Definition alpha_of (t : table) (r : summary_row) : num :=
  if has_column t "alpha" then s_alpha r else NaN.

Definition metric_of (t : table) (label : string) (r : summary_row) : num :=
  if has_column t label then lookup_metric (s_metrics r) label else NaN.

(** [df[label].notna().any()] *)
Definition any_notna (t : table) (label : string) : bool :=
  existsb (fun r => negb (isnan (metric_of t label r))) (t_rows t).

(** A row of the combined frame that is plotted. *)
Record plot_row : Type := PlotRow {
  p_model : string;
  p_condition : cell;
  p_alpha : num;
  p_overall_rmse : num;
  p_metrics : list (string * num)
}.

(** [df.assign(alpha=a)] on one row *)
Definition assign_alpha (a : num) (r : plot_row) : plot_row :=
  {| p_model := p_model r; p_condition := p_condition r; p_alpha := a;
     p_overall_rmse := p_overall_rmse r; p_metrics := p_metrics r |}.

(** [df['condition'].isin(values)] on one row *)
Definition isin (c : cell) (values : list string) : bool :=
  match c with
  | CStr s => existsb (String.eqb s) values
  | _ => false
  end.

Definition alpha_dependent_rows (df : list plot_row) : list plot_row :=
  filter (fun r => isin (p_condition r) ["topk"; "bottomk"]) df.

Definition alpha_independent_rows (df : list plot_row) : list plot_row :=
  filter (fun r => isin (p_condition r) ["random"; "all"]) df.

(** [series.dropna()] *)
Definition dropna (l : list num) : list num :=
  filter (fun x => negb (isnan x)) l.

(** [series.unique()]: the values in order of first appearance *)
Fixpoint unique (l : list num) : list num :=
  match l with
  | [] => []
  | x :: l' => x :: filter (fun y => negb (eqb x y)) (unique l')
  end.

(** [sorted(values)] on numbers without nan *)
Fixpoint insert_num (x : num) (l : list num) : list num :=
  match l with
  | [] => [x]
  | y :: l' => if leb x y then x :: y :: l' else y :: insert_num x l'
  end.

Fixpoint sorted (l : list num) : list num :=
  match l with
  | [] => []
  | x :: l' => insert_num x (sorted l')
  end.

(** [sorted(rows['alpha'].dropna().unique().tolist())] *)
Definition alpha_values (rows : list plot_row) : list num :=
  sorted (unique (dropna (map p_alpha rows))).

Definition nonempty {A : Type} (l : list A) : bool :=
  negb (length l =? 0).

(** [pd.concat([alpha_independent.assign(alpha=a) for a in alphas])] *)
Definition replicate (alphas : list num) (alpha_independent : list plot_row)
  : list plot_row :=
  concat (map (fun a => map (assign_alpha a) alpha_independent) alphas).

(** [_prepare_alpha_broadcast(df)] of [plot_all_summaries_plt.py] *)
Definition _prepare_alpha_broadcast (df : list plot_row)
  : list plot_row * list num :=
  let alpha_dependent := alpha_dependent_rows df in
  let alpha_independent := alpha_independent_rows df in
  let alphas := alpha_values alpha_dependent in
  let alphas := if nonempty alphas then alphas else alpha_values df in
  if nonempty alphas && nonempty alpha_independent then
    let replicated := replicate alphas alpha_independent in
    (alpha_dependent ++ replicated, alphas)
  else if negb (nonempty alphas) then
    let alphas := [zero] in
    (map (assign_alpha zero) df, alphas)
  else (df, alphas).

(** The same step written inline in [plot_all_summaries] of
    [plot_all_summaries_sns.py]: no fallback and no dummy alpha. *)
Definition sns_broadcast (combined_df : list plot_row)
  : list plot_row * list num :=
  let dep_df := alpha_dependent_rows combined_df in
  let indep_df := alpha_independent_rows combined_df in
  let alphas := alpha_values dep_df in
  if nonempty alphas && nonempty indep_df then
    (dep_df ++ replicate alphas indep_df, alphas)
  else (combined_df, alphas).

(** What the plotting scripts print while loading. *)
Inductive plot_message : Type :=
| WarnNotFound (model : string)
| WarnSkip (model : string)
| ErrNoSummary.

Section Plots.

Variable sqrt_fin : Qc -> Qc.

(** A row of a loaded table: [df['model'] = model], the condition and
    alpha columns filled with nan when absent, and [df['overall_rmse']]. *)
Definition loaded_row (t : table) (model : string)
    (overall_rmse : summary_row -> num) (r : summary_row) : plot_row :=
  {| p_model := model;
     p_condition := condition_of t r;
     p_alpha := alpha_of t r;
     p_overall_rmse := overall_rmse r;
     p_metrics := s_metrics r |}.

(** The loading loop of [plot_pair_summaries]; a file that does not exist
    is [None].  The state is what has been printed and [dfs]. *)
Definition pair_load (st : list plot_message * list (list plot_row))
    (entry : string * option table)
  : list plot_message * list (list plot_row) :=
  let '(printed, dfs) := st in
  let '(model, file) := entry in
  match file with
  | None => (printed ++ [WarnNotFound model], dfs)
  | Some t =>
      if negb (has_column t "overall_mse") then
        (printed ++ [WarnSkip model], dfs)
      else
        let rmse := fun r => np_sqrt sqrt_fin (metric_of t "overall_mse" r) in
        (printed, dfs ++ [map (loaded_row t model rmse) (t_rows t)])
  end.

(** [plot_pair_summaries] up to the broadcast: the printed lines and, when
    a table was loaded, [(final_df, alphas)]. *)
Definition plot_pair_summaries (summary_files : list (string * option table))
  : list plot_message * option (list plot_row * list num) :=
  let '(printed, dfs) := fold_left pair_load summary_files ([], []) in
  if negb (nonempty dfs) then (printed ++ [ErrNoSummary], None)
  else
    let data := concat dfs in
    (printed, Some (_prepare_alpha_broadcast data)).

(** The loading loop of [plot_graph_summaries]: [rmse_mean] when the
    column has a value, else the square root of [mse_mean]. *)
Definition graph_load (st : list plot_message * list (list plot_row))
    (entry : string * option table)
  : list plot_message * list (list plot_row) :=
  let '(printed, dfs) := st in
  let '(model, file) := entry in
  match file with
  | None => (printed ++ [WarnNotFound model], dfs)
  | Some t =>
      if has_column t "rmse_mean" && any_notna t "rmse_mean" then
        let rmse := fun r => metric_of t "rmse_mean" r in
        (printed, dfs ++ [map (loaded_row t model rmse) (t_rows t)])
      else if has_column t "mse_mean" && any_notna t "mse_mean" then
        let rmse := fun r => np_sqrt sqrt_fin (metric_of t "mse_mean" r) in
        (printed, dfs ++ [map (loaded_row t model rmse) (t_rows t)])
      else (printed ++ [WarnSkip model], dfs)
  end.

Definition plot_graph_summaries (summary_files : list (string * option table))
  : list plot_message * option (list plot_row * list num) :=
  let '(printed, dfs) := fold_left graph_load summary_files ([], []) in
  if negb (nonempty dfs) then (printed ++ [ErrNoSummary], None)
  else
    let data := concat dfs in
    (printed, Some (_prepare_alpha_broadcast data)).

(** The loading loop of [plot_all_summaries] (seaborn): every file that
    exists is kept. *)
Definition sns_load (st : list plot_message * list (string * table))
    (entry : string * option table)
  : list plot_message * list (string * table) :=
  let '(printed, all_dfs) := st in
  let '(model_name, file) := entry in
  match file with
  | None => (printed ++ [WarnNotFound model_name], all_dfs)
  | Some t => (printed, all_dfs ++ [(model_name, t)])
  end.

(** [label in pd.concat(all_dfs).columns] *)
Definition combined_has_column (all_dfs : list (string * table)) (label : string)
  : bool :=
  existsb (fun mt => has_column (snd mt) label) all_dfs.

(** [plot_all_summaries] up to the broadcast.  Indexing the combined frame
    with a label that no table has raises [KeyError]. *)
Definition plot_all_summaries (summary_files : list (string * option table))
  : result (list plot_message * option (list plot_row * list num)) :=
  let '(printed, all_dfs) := fold_left sns_load summary_files ([], []) in
  if negb (nonempty all_dfs) then Ok (printed ++ [ErrNoSummary], None)
  else if negb (combined_has_column all_dfs "overall_mse") then Raise KeyError
  else if negb (combined_has_column all_dfs "condition") then Raise KeyError
  else if negb (combined_has_column all_dfs "alpha") then Raise KeyError
  else
    let combined_df :=
      concat (map (fun mt =>
                     let t := snd mt in
                     let rmse := fun r => np_sqrt sqrt_fin (metric_of t "overall_mse" r) in
                     map (loaded_row t (fst mt) rmse) (t_rows t))
                  all_dfs) in
    Ok (printed, Some (sns_broadcast combined_df)).

End Plots.

(** ** The broadcast as the specification words it *)

(** The alpha values that are broadcast: those of the alpha-dependent
    rows, else those of all rows. *)
Definition selected_alphas (df : list plot_row) : list num :=
  if nonempty (alpha_values (alpha_dependent_rows df))
  then alpha_values (alpha_dependent_rows df)
  else alpha_values df.

(** The set [A] of the specification, with its two fallbacks. *)
Definition broadcast_set (df : list plot_row) : list num :=
  if nonempty (selected_alphas df) then selected_alphas df else [zero].

(** The alpha-dependent rows unchanged, and one copy of every
    alpha-independent row per value of [A]. *)
Definition broadcast_as_specified (df : list plot_row) : list plot_row :=
  alpha_dependent_rows df ++ replicate (broadcast_set df) (alpha_independent_rows df).

(** The claim of the specification: the output is that union, and it has
    [k × m] generated rows, for [k] alpha-independent rows and [m] distinct
    alpha values among the alpha-dependent rows. *)
Definition broadcast_claim (df : list plot_row) : Prop :=
  let output := fst (_prepare_alpha_broadcast df) in
  let k := length (alpha_independent_rows df) in
  let m := length (alpha_values (alpha_dependent_rows df)) in
  Permutation output (broadcast_as_specified df) /\
  length output = length (alpha_dependent_rows df) + k * m.

(** One of the four conditions the scripts know *)
Definition known_condition (c : cell) : bool :=
  isin c ["all"; "topk"; "bottomk"; "random"].

(** Test tables *)
Definition plot_row_of (model : string) (c : cell) (a : num) : plot_row :=
  {| p_model := model; p_condition := c; p_alpha := a;
     p_overall_rmse := of_nat 3; p_metrics := [] |}.

(** A table with [all] runs only. *)
Definition only_all_rows : list plot_row :=
  [plot_row_of "SVR" (CStr "all") NaN].

(** A [topk] run without alpha next to an [all] run. *)
Definition no_alpha_rows : list plot_row :=
  [plot_row_of "SVR" (CStr "topk") NaN; plot_row_of "SVR" (CStr "all") NaN].

(** Two [topk] runs, an [all] run and a run with a missing condition. *)
Definition mixed_rows : list plot_row :=
  [plot_row_of "SVR" (CStr "topk") (of_nat 50);
   plot_row_of "SVR" (CStr "topk") (of_nat 100);
   plot_row_of "SVR" (CStr "all") NaN;
   plot_row_of "SVR" (CNum NaN) NaN].

(** A graph-level summary file (no [overall_mse] column) and a pair-level
    one. *)
Definition graph_table : table :=
  {| t_columns := ["condition"; "alpha"; "seed"; "mse_mean"];
     t_rows := [ {| s_condition := CStr "all"; s_alpha := NaN;
                    s_metrics := [("mse_mean", of_nat 9)] |} ] |}.

Definition pair_table : table :=
  {| t_columns := ["condition"; "alpha"; "seed"; "overall_mse"];
     t_rows := [ {| s_condition := CStr "topk"; s_alpha := of_nat 50;
                    s_metrics := [("overall_mse", of_nat 4)] |} ] |}.

(** ** Further vocabulary for the aggregators *)

Definition nonempty_results (rs : list measurement) : bool :=
  negb (length rs =? 0).

(** A file that the graph-level loop turns into a row: it parses, its
    metadata are not empty and its results are a list. *)
Definition graph_valid (doc : document) : bool :=
  match json_load doc with
  | Ok (metadata, RList _) => dict_truthy metadata
  | _ => false
  end.

(** A file that the pair-level loop turns into a row: it parses, its
    metadata are not empty and its results are a list that is not empty. *)
Definition pair_valid (doc : document) : bool :=
  match json_load doc with
  | Ok (metadata, RList rs) => dict_truthy metadata && nonempty_results rs
  | _ => false
  end.

(** A measurement whose mse is present and finite. *)
Definition has_finite_mse (r : measurement) : bool :=
  match mse r with
  | Some x => isfinite x
  | None => false
  end.

(** ** Comparison layer: the boxes of one subplot *)

(** [list(enumerate(l))] *)
Definition enumerate {A : Type} (l : list A) : list (nat * A) :=
  combine (seq 0 (length l)) l.

(** [color_map.get(cond, '#cccccc')] *)
Fixpoint color_get (color_map : list (string * string)) (cond : string) : string :=
  match color_map with
  | [] => "#cccccc"
  | (k, v) :: rest => if String.eqb k cond then v else color_get rest cond
  end.

(** [df['condition'] == cond] on one row *)
Definition condition_is (cond : string) (c : cell) : bool :=
  match c with
  | CStr s => String.eqb s cond
  | _ => false
  end.

(** [df_model.loc[(df_model['alpha'] == a) & (df_model['condition'] == cond),
    'overall_rmse'].values] *)
Definition box_values (df_model : list plot_row) (a : num) (cond : string)
  : list num :=
  map p_overall_rmse
    (filter (fun r => eqb (p_alpha r) a && condition_is cond (p_condition r))
       df_model).

(** One box: its data, its colour and its position on the axis. *)
Record box : Type := Box {
  box_data : list num;
  box_color : string;
  box_position : nat
}.

(** The label of a tick: ["α=50"], ["α=0.5"] or ["α=–"]. *)
Inductive tick_label : Type :=
| AlphaInt (z : Z)
| AlphaFloat (q : Qc)
| AlphaDash.

(** The label of [a]: a dash unless [a] is finite and not zero; then
    [int(a)] when [float(a).is_integer()], else [a]. *)
Definition label_of (a : num) : tick_label :=
  match a with
  | Fin q =>
      if Qc_eqb q 0 then AlphaDash
      else if Pos.eqb (Qden q) 1 then AlphaInt (Qnum q)
      else AlphaFloat q
  | _ => AlphaDash
  end.

(** [i*(n_cond+1) + (n_cond-1)/2] *)
Definition center_of (n_cond i : nat) : Qc :=
  (Q2Qc (inject_Z (Z.of_nat (i * (n_cond + 1))))
   + Q2Qc (Qmake (Z.of_nat n_cond - 1) 2))%Qc.

(** The boxes of one alpha: [base = i * (n_cond + 1)], one box per
    condition, [[nan]] when no row matches. *)
Definition boxes_of_alpha (df_model : list plot_row) (cond_order : list string)
    (color_map : list (string * string)) (ia : nat * num) : list box :=
  let '(i, a) := ia in
  let base := i * (length cond_order + 1) in
  map (fun jc : nat * string =>
         let '(j, cond) := jc in
         let vals := box_values df_model a cond in
         {| box_data := if length vals =? 0 then [NaN] else vals;
            box_color := color_get color_map cond;
            box_position := base + j |})
      (enumerate cond_order).

(** [_plot_box]: what is handed to [ax.boxplot] ([box_data], [colors],
    [positions], one entry per box) and the ticks with their labels. *)
Definition _plot_box (df_model : list plot_row) (alphas : list num)
    (cond_order : list string) (color_map : list (string * string))
  : list box * list (Qc * tick_label) :=
  let n_cond := length cond_order in
  let boxes := concat (map (boxes_of_alpha df_model cond_order color_map)
                           (enumerate alphas)) in
  let centers := map (center_of n_cond) (seq 0 (length alphas)) in
  (boxes, combine centers (map label_of alphas)).

(** [final_df[final_df['model'] == model]] *)
Definition rows_of_model (model : string) (final_df : list plot_row)
  : list plot_row :=
  filter (fun r => String.eqb (p_model r) model) final_df.

(** ** Comparison layer: the models that get a subplot *)

(** [final_df['model'].unique().tolist()] *)
Fixpoint unique_strings (l : list string) : list string :=
  match l with
  | [] => []
  | x :: l' => x :: filter (fun y => negb (String.eqb x y)) (unique_strings l')
  end.

(** [sorted(names)] *)
Fixpoint insert_string (x : string) (l : list string) : list string :=
  match l with
  | [] => [x]
  | y :: l' => if String.leb x y then x :: y :: l' else y :: insert_string x l'
  end.

Fixpoint sorted_strings (l : list string) : list string :=
  match l with
  | [] => []
  | x :: l' => insert_string x (sorted_strings l')
  end.

Definition desired_order : list string := ["SVR"; "RF"; "DGM"].

(** [present_models] of [plot_pair_summaries] and [plot_graph_summaries] *)
Definition present_models (final_df : list plot_row) : list string :=
  let models := unique_strings (map p_model final_df) in
  let present := filter (fun m => existsb (String.eqb m) models) desired_order in
  if nonempty present then present else sorted_strings models.

(** The positions of the boxes of [n_alpha] groups of [n_cond] boxes:
    group [i] starts at [i * (n_cond + 1)]. *)
Definition group_positions (n_cond i : nat) : list nat :=
  map (fun j => i * (n_cond + 1) + j) (seq 0 n_cond).

(** ** Comparison layer: which files are loaded *)

(** A pair-level file is used when it exists and has [overall_mse]. *)
Definition pair_loadable (entry : string * option table) : bool :=
  match snd entry with
  | Some t => has_column t "overall_mse"
  | None => false
  end.

(** A graph-level file is used when it exists and its [rmse_mean] or its
    [mse_mean] column holds a value. *)
Definition graph_loadable (entry : string * option table) : bool :=
  match snd entry with
  | Some t => (has_column t "rmse_mean" && any_notna t "rmse_mean")
              || (has_column t "mse_mean" && any_notna t "mse_mean")
  | None => false
  end.

(** The warning printed for an entry that is not used. *)
Definition load_warning (entry : string * option table) : plot_message :=
  match snd entry with
  | Some _ => WarnSkip (fst entry)
  | None => WarnNotFound (fst entry)
  end.

Section LoadedRows.

Variable sqrt_fin : Qc -> Qc.

(** The rows that a used pair-level file contributes. *)
Definition pair_rows_of (entry : string * option table) : list plot_row :=
  match snd entry with
  | Some t =>
      map (loaded_row t (fst entry)
             (fun r => np_sqrt sqrt_fin (metric_of t "overall_mse" r)))
          (t_rows t)
  | None => []
  end.

(** The rows that a used graph-level file contributes. *)
Definition graph_rows_of (entry : string * option table) : list plot_row :=
  match snd entry with
  | Some t =>
      map (loaded_row t (fst entry)
             (fun r => if has_column t "rmse_mean" && any_notna t "rmse_mean"
                       then metric_of t "rmse_mean" r
                       else np_sqrt sqrt_fin (metric_of t "mse_mean" r)))
          (t_rows t)
  | None => []
  end.

End LoadedRows.

(** ** [utils/dataset.py]: the dataset of origin-destination pairs *)

Module CommutingODPairDataset.

(** The exceptions of [np.load], of the array operations and of indexing. *)
Inductive error : Type :=
| FileNotFoundError
| ValueError
| IndexError.

Inductive attempt (A : Type) : Type :=
| Done (a : A)
| Failed (e : error).
Arguments Done {A} a.
Arguments Failed {A} e.

Definition and_then {A B : Type} (m : attempt A) (k : A -> attempt B) : attempt B :=
  match m with
  | Done a => k a
  | Failed e => Failed e
  end.

Notation "x <~ m ;; k" := (and_then m (fun x => k))
  (at level 61, m at next level, right associativity).

(** A [for] loop whose body may raise. *)
Fixpoint loop {S A : Type} (body : S -> A -> attempt S) (xs : list A) (s : S)
  : attempt S :=
  match xs with
  | [] => Done s
  | x :: xs' => s' <~ body s x ;; loop body xs' s'
  end.

(** A two-dimensional array: its shape and its entries. *)
Record ndarray2 : Type := Array2 {
  shape0 : nat;
  shape1 : nat;
  item : nat -> nat -> num
}.

(** A three-dimensional array. *)
Record ndarray3 : Type := Array3 {
  dim0 : nat;
  dim1 : nat;
  dim2 : nat;
  item3 : nat -> nat -> nat -> num
}.

(** The four arrays of one area directory. *)
Record area_arrays : Type := AreaArrays {
  demos : ndarray2;
  pois : ndarray2;
  dis : ndarray2;
  od : ndarray2
}.

(** One sample of the dataset. *)
Record sample : Type := Sample {
  x : list num;
  y : num;
  area : string;
  i : nat;
  j : nat
}.

(** [a[i, j]] with indices that are not negative *)
Definition getitem2 (a : ndarray2) (i j : nat) : attempt num :=
  if (i <? shape0 a) && (j <? shape1 a) then Done (item a i j)
  else Failed IndexError.

(** [demos[:, [0]]]: the first column, as an [(N, 1)] array *)
Definition first_column (a : ndarray2) : attempt ndarray2 :=
  if 0 <? shape1 a
  then Done {| shape0 := shape0 a; shape1 := 1; item := fun i _ => item a i 0 |}
  else Failed IndexError.

(** [np.concatenate([a, b], axis=1)] *)
Definition concatenate_axis1 (a b : ndarray2) : attempt ndarray2 :=
  if shape0 a =? shape0 b
  then Done {| shape0 := shape0 a;
               shape1 := shape1 a + shape1 b;
               item := fun i k => if k <? shape1 a then item a i k
                                  else item b i (k - shape1 a) |}
  else Failed ValueError.

Section Dataset.

(** [.float()]: the conversion to single precision *)
Variable float32 : num -> num.

(** The directory [root]: the arrays of an area, [None] when a file of
    the area is missing. *)
Variable root : string -> option area_arrays.

(** [_load_area_arrays(area)] *)
Definition _load_area_arrays (area : string) : attempt area_arrays :=
  match root area with
  | Some arrays => Done arrays
  | None => Failed FileNotFoundError
  end.

(** [_make_feature_tensor(demos, pois, dis)]: entry [(i, j)] holds the
    features of [i], the features of [j] and the distance from [i] to [j].
    The last [np.concatenate] needs [dis] to be [(N, N)]. *)
Definition _make_feature_tensor (toy_flag : bool) (demos pois dis : ndarray2)
  : attempt ndarray3 :=
  feat <~ (if toy_flag then first_column demos
           else concatenate_axis1 demos pois) ;;
  let N := shape0 feat in
  let F := shape1 feat in
  if (shape0 dis =? N) && (shape1 dis =? N) then
    Done {| dim0 := N; dim1 := N; dim2 := F + F + 1;
            item3 := fun i j k =>
                       float32 (if k <? F then item feat i k
                                else if k <? F + F then item feat j (k - F)
                                else item dis i j) |}
  else Failed ValueError.

(** [x[i, j]]: a vector of [dim2] entries *)
Definition vector_at (t : ndarray3) (i j : nat) : list num :=
  map (item3 t i j) (seq 0 (dim2 t)).

(** The body of [for j in range(N)] *)
Definition add_sample (area : string) (x : ndarray3) (y : ndarray2) (i : nat)
    (samples : list sample) (j : nat) : attempt (list sample) :=
  y_ij <~ getitem2 y i j ;;
  Done (samples ++ [ {| x := vector_at x i j; y := float32 y_ij;
                        area := area; i := i; j := j |} ]).

(** The body of [for area in self.areas] *)
Definition add_area (toy_flag : bool) (samples : list sample) (area : string)
  : attempt (list sample) :=
  arrays <~ _load_area_arrays area ;;
  x <~ _make_feature_tensor toy_flag (demos arrays) (pois arrays) (dis arrays) ;;
  let y := od arrays in
  let N := dim0 x in
  loop (fun samples i => loop (add_sample area x y i) (seq 0 N) samples)
       (seq 0 N) samples.

(** [__init__]: the list [self.samples] *)
Definition __init__ (toy_flag : bool) (areas : list string)
  : attempt (list sample) :=
  loop (add_area toy_flag) areas [].

End Dataset.

(** [__len__] *)
Definition __len__ (samples : list sample) : nat := length samples.

(** [__getitem__]: [self.samples[idx]] with Python's list indexing, a
    negative index counting from the end *)
Definition __getitem__ (samples : list sample) (idx : Z) : attempt sample :=
  let n := Z.of_nat (length samples) in
  let k := if (idx <? 0)%Z then (idx + n)%Z else idx in
  if ((0 <=? k)%Z && (k <? n)%Z)%bool then
    match nth_error samples (Z.to_nat k) with
    | Some s => Done s
    | None => Failed IndexError
    end
  else Failed IndexError.

(** *** The samples in closed form *)

(** Row [i] of an array *)
Definition row_of (a : ndarray2) (i : nat) : list num :=
  map (item a i) (seq 0 (shape1 a)).

(** The features of area [i]: its first demographic value, or its
    demographic values followed by its POI values. *)
Definition features (toy_flag : bool) (arrays : area_arrays) (i : nat) : list num :=
  if toy_flag then [item (demos arrays) i 0]
  else row_of (demos arrays) i ++ row_of (pois arrays) i.

Definition sample_of (float32 : num -> num) (toy_flag : bool)
    (area : string) (arrays : area_arrays) (i j : nat) : sample :=
  {| x := map float32 (features toy_flag arrays i ++ features toy_flag arrays j
                       ++ [item (dis arrays) i j]);
     y := float32 (item (od arrays) i j);
     area := area; i := i; j := j |}.

(** All pairs [(i, j)] of one area, [i] first. *)
Definition area_samples (float32 : num -> num) (toy_flag : bool)
    (area : string) (arrays : area_arrays) : list sample :=
  let N := shape0 (demos arrays) in
  flat_map (fun i => map (sample_of float32 toy_flag area arrays i) (seq 0 N))
           (seq 0 N).

(** The arrays of an area fit together. *)
Definition well_shaped (toy_flag : bool) (arrays : area_arrays) : Prop :=
  let N := shape0 (demos arrays) in
  (if toy_flag then 0 < shape1 (demos arrays)
   else shape0 (pois arrays) = N) /\
  shape0 (dis arrays) = N /\ shape1 (dis arrays) = N /\
  N <= shape0 (od arrays) /\ N <= shape1 (od arrays).

(** What [__init__] builds when every area loads: the pairs of the areas,
    one area after the other. *)
Definition expected_samples (float32 : num -> num)
    (root : string -> option area_arrays) (toy_flag : bool)
    (areas : list string) : list sample :=
  flat_map (fun a => match root a with
                     | Some arrays => area_samples float32 toy_flag a arrays
                     | None => []
                     end) areas.

(** The number of zones of an area *)
Definition zones (root : string -> option area_arrays) (a : string) : nat :=
  match root a with
  | Some arrays => shape0 (demos arrays)
  | None => 0
  end.

(** The number of features of a zone *)
Definition feature_count (toy_flag : bool) (arrays : area_arrays) : nat :=
  if toy_flag then 1 else shape1 (demos arrays) + shape1 (pois arrays).

(** Every area of the list has its files, and they fit together. *)
Definition all_well_shaped (root : string -> option area_arrays)
    (toy_flag : bool) (areas : list string) : Prop :=
  Forall (fun a => exists arrays, root a = Some arrays /\
                                  well_shaped toy_flag arrays) areas.

(** The position of the pair [(i, j)] of an area in the dataset: after
    the pairs of the areas before it, row after row. *)
Definition position_of (root : string -> option area_arrays)
    (before : list string) (a : string) (i j : nat) : nat :=
  list_sum (map (fun b => zones root b * zones root b) before)
  + (i * zones root a + j).

(** *** Test data: one area with two zones *)

Definition example_arrays : area_arrays :=
  {| demos := {| shape0 := 2; shape1 := 1; item := fun i _ => of_nat (10 + i) |};
     pois := {| shape0 := 2; shape1 := 2; item := fun i k => of_nat (20 + i + k) |};
     dis := {| shape0 := 2; shape1 := 2; item := fun i j => of_nat (i + j) |};
     od := {| shape0 := 2; shape1 := 2; item := fun i j => of_nat (100 + i * 2 + j) |} |}.

Definition example_root (a : string) : option area_arrays :=
  if String.eqb a "A" then Some example_arrays else None.

End CommutingODPairDataset.

(** * Properties *)

(** ** Exact arithmetic on finite values *)

Lemma Qc_square_nonneg (x : Qc) : (0 <= x * x)%Qc.
Proof.
  destruct (Qclt_le_dec x 0) as [Hneg | Hpos].
  - assert (Hopp : (0 <= - x)%Qc).
    { apply Qclt_le_weak in Hneg. apply Qcopp_le_compat in Hneg.
      replace (- 0)%Qc with 0%Qc in Hneg by ring. exact Hneg. }
    replace (x * x)%Qc with ((- x) * (- x))%Qc by ring.
    replace 0%Qc with (0 * - x)%Qc by ring.
    apply Qcmult_le_compat_r; assumption.
  - replace 0%Qc with (0 * x)%Qc by ring.
    apply Qcmult_le_compat_r; assumption.
Qed.

Lemma Qc_inv_nonneg (x : Qc) : (0 <= x)%Qc -> (0 <= / x)%Qc.
Proof.
  unfold Qcle, Qcinv. simpl. intros H.
  rewrite Qred_correct. apply Qinv_le_0_compat. exact H.
Qed.

Lemma Qc_div_nonneg (x y : Qc) : (0 <= x)%Qc -> (0 <= y)%Qc -> (0 <= x / y)%Qc.
Proof.
  intros Hx Hy. unfold Qcdiv.
  replace 0%Qc with (0 * / y)%Qc by ring.
  apply Qcmult_le_compat_r; [exact Hx | apply Qc_inv_nonneg; exact Hy].
Qed.

Lemma Qc_of_nat_nonneg (n : nat) : (0 <= Q2Qc (inject_Z (Z.of_nat n)))%Qc.
Proof.
  unfold Qcle, Q2Qc. cbn [this].
  rewrite (Qred_correct (inject_Z (Z.of_nat n))).
  change (Qred 0) with (0%Q).
  unfold Qle. simpl. lia.
Qed.

Lemma Qc_leb_le (x y : Qc) : Qc_leb x y = true <-> (x <= y)%Qc.
Proof. unfold Qc_leb, Qcle. apply Qle_bool_iff. Qed.

Lemma Qc_ltb_lt (x y : Qc) : Qc_ltb x y = true <-> (x < y)%Qc.
Proof.
  unfold Qc_ltb, Qclt. rewrite negb_true_iff.
  split; intros H.
  - apply Qnot_le_lt. intros Hle. apply Qle_bool_iff in Hle. congruence.
  - destruct (Qle_bool y x) eqn:E; [|reflexivity].
    apply Qle_bool_iff in E. exfalso. exact (Qlt_not_le _ _ H E).
Qed.

Lemma Qc_eqb_eq (x y : Qc) : Qc_eqb x y = true <-> x = y.
Proof.
  unfold Qc_eqb. rewrite Qeq_bool_iff. split.
  - apply Qc_is_canon.
  - intros ->. reflexivity.
Qed.

(** [x >= 0.0] on a finite value *)
Lemma geb_zero_Fin (q : Qc) : geb (Fin q) zero = Qc_leb 0 q.
Proof.
  unfold geb, leb, zero. simpl.
  destruct (Qc_leb 0 q) eqn:Hle.
  - apply Qc_leb_le in Hle. apply Qcle_lt_or_eq in Hle. destruct Hle as [Hlt | Heq].
    + apply Qc_ltb_lt in Hlt. rewrite Hlt. reflexivity.
    + apply Qc_eqb_eq in Heq. rewrite Heq. apply orb_true_r.
  - apply orb_false_iff. split.
    + destruct (Qc_ltb 0 q) eqn:Hlt; [|reflexivity].
      apply Qc_ltb_lt, Qclt_le_weak, Qc_leb_le in Hlt. congruence.
    + destruct (Qc_eqb 0 q) eqn:Heq; [|reflexivity].
      apply Qc_eqb_eq in Heq. subst q.
      assert (Qc_leb 0 0 = true) by (apply Qc_leb_le, Qcle_refl). congruence.
Qed.

(** ** Graph-level statistics *)

Lemma fold_add_Fin (l : list Qc) (a : Qc) :
  fold_left add (map Fin l) (Fin a) = Fin (a + Qc_sum l)%Qc.
Proof.
  revert a. induction l as [| x l IH]; intros a; simpl.
  - f_equal. ring.
  - rewrite IH. f_equal. ring.
Qed.

Lemma np_sum_Fin (l : list Qc) : np_sum (map Fin l) = Fin (Qc_sum l).
Proof.
  unfold np_sum, zero. rewrite fold_add_Fin. f_equal. ring.
Qed.

Lemma np_mean_Fin (l : list Qc) : np_mean (map Fin l) = sample_mean l.
Proof.
  destruct l as [| x l]; [reflexivity|].
  unfold np_mean, sample_mean, mean_value.
  change (map Fin (x :: l)) with (Fin x :: map Fin l) at 1.
  cbv iota beta.
  rewrite np_sum_Fin, length_map. reflexivity.
Qed.

Lemma Qc_sum_nonneg (l : list Qc) :
  Forall (fun x => (0 <= x)%Qc) l -> (0 <= Qc_sum l)%Qc.
Proof.
  induction 1 as [| x l Hx _ IH]; simpl.
  - apply Qcle_refl.
  - replace 0%Qc with (0 + 0)%Qc by ring.
    apply Qcplus_le_compat; assumption.
Qed.

Lemma sample_variance_nonneg (pop : list Qc) : (0 <= sample_variance pop)%Qc.
Proof.
  unfold sample_variance. apply Qc_div_nonneg.
  - apply Qc_sum_nonneg. apply Forall_forall. intros y Hy.
    apply in_map_iff in Hy. destruct Hy as [x [<- _]].
    apply Qc_square_nonneg.
  - apply Qc_of_nat_nonneg.
Qed.

Lemma finite_Fin (l : list Qc) : filter isfinite (map Fin l) = map Fin l.
Proof. induction l as [| x l IH]; simpl; [reflexivity | now rewrite IH]. Qed.

Section GraphStatistics.

Variable sqrt_fin : Qc -> Qc.

Lemma np_std_Fin (l : list Qc) :
  np_std_ddof1 sqrt_fin (map Fin l) = sample_std sqrt_fin l.
Proof.
  unfold np_std_ddof1, sample_std. rewrite length_map.
  destruct (length l <=? 1) eqn:Hn.
  - apply Nat.leb_le in Hn.
    assert (Hlt : (length l <? 2) = true) by (apply Nat.ltb_lt; lia).
    now rewrite Hlt.
  - apply Nat.leb_gt in Hn.
    assert (Hlt : (length l <? 2) = false) by (apply Nat.ltb_ge; lia).
    rewrite Hlt. cbv zeta.
    rewrite np_mean_Fin.
    assert (Hmean : sample_mean l = Fin (mean_value l)).
    { destruct l; [simpl in Hn; lia | reflexivity]. }
    rewrite Hmean, !map_map.
    assert (Hsq : map (fun v => mul (sub (Fin v) (Fin (mean_value l)))
                                   (sub (Fin v) (Fin (mean_value l)))) l
                  = map Fin (map (fun x => ((x - mean_value l)
                                            * (x - mean_value l))%Qc) l)).
    { rewrite map_map. reflexivity. }
    rewrite Hsq, np_sum_Fin.
    change (np_sqrt sqrt_fin (Fin (sample_variance l))
            = Fin (sqrt_fin (sample_variance l))).
    unfold np_sqrt.
    assert (Hpos : Qc_leb 0 (sample_variance l) = true)
      by (apply Qc_leb_le, sample_variance_nonneg).
    now rewrite Hpos.
Qed.

Lemma mean_std_Fin (l : list Qc) :
  _mean_std_sample sqrt_fin (map Fin l) = (sample_mean l, sample_std sqrt_fin l).
Proof.
  unfold _mean_std_sample. rewrite length_map.
  destruct l as [| x l]; [reflexivity|].
  change (length (x :: l) =? 0) with false. cbv iota zeta.
  rewrite np_mean_Fin. f_equal.
  destruct (2 <=? length (x :: l)) eqn:Hn.
  - apply np_std_Fin.
  - apply Nat.leb_gt in Hn. unfold sample_std.
    assert (Hlt : (length (x :: l) <? 2) = true) by (apply Nat.ltb_lt; lia).
    now rewrite Hlt.
Qed.

Lemma finite_mse_column (rs : list measurement) :
  _finite (mse_column rs) = map Fin (retained_mse rs).
Proof.
  unfold _finite, mse_column.
  induction rs as [| r rs IH]; [reflexivity|].
  simpl. destruct (mse r) as [[q | | |]|]; simpl; now rewrite IH.
Qed.

Lemma sqrt_of_nonnegative_Fin (l : list Qc) :
  sqrt_of_nonnegative sqrt_fin (map Fin l)
  = map Fin (map sqrt_fin (filter (fun q => Qc_leb 0 q) l)).
Proof.
  unfold sqrt_of_nonnegative.
  induction l as [| x l IH]; [reflexivity|].
  simpl map at 1. simpl filter. rewrite geb_zero_Fin.
  destruct (Qc_leb 0 x) eqn:Hx; simpl.
  - rewrite Hx, IH. reflexivity.
  - exact IH.
Qed.

Lemma finite_Some_Fin (l : list Qc) :
  _finite (map Some (map Fin l)) = map Fin l.
Proof.
  unfold _finite. rewrite map_map.
  rewrite (map_ext (fun x => as_float (Some x)) (fun x => x)) by reflexivity.
  rewrite map_id. apply finite_Fin.
Qed.

(** The statistics of the row of one valid artifact. *)
Lemma graph_row_stats (metadata : dict) (rs : list measurement) :
  stats (graph_row sqrt_fin metadata rs)
  = {| mse_mean := sample_mean (retained_mse rs);
       mse_std := sample_std sqrt_fin (retained_mse rs);
       rmse_mean := sample_mean (rmse_population sqrt_fin rs);
       rmse_std := sample_std sqrt_fin (rmse_population sqrt_fin rs);
       n_targets_used := length (retained_mse rs) |}.
Proof.
  unfold graph_row.
  rewrite finite_mse_column, sqrt_of_nonnegative_Fin, finite_Some_Fin.
  rewrite !mean_std_Fin. simpl. rewrite length_map. reflexivity.
Qed.

End GraphStatistics.

Lemma mean_value_singleton (q : Qc) : mean_value [q] = q.
Proof.
  unfold mean_value. simpl.
  change (Qc_of_nat 1) with 1%Qc. field. exact Q_apart_0_1.
Qed.

(** C1.  For a valid artifact (non-empty metadata, list-shaped results) the
    graph-level aggregator appends one row whose [mse_mean]/[mse_std] and
    [rmse_mean]/[rmse_std] are the sample mean and the sample standard
    deviation (divisor n-1) of the kept finite mse values and of the square
    roots of the non-negative ones; an empty population gives nan for both,
    a one-element population gives its element as mean and nan as std, and
    [n_targets_used] counts the kept mse values. *)
Theorem graph_row_reports_sample_statistics :
  forall (sqrt_fin : Qc -> Qc) (filepath : string) (doc : document)
         (metadata : dict) (rs : list measurement)
         (printed : list message) (all_rows : list (row graph_stats)),
    json_load doc = Ok (metadata, RList rs) ->
    dict_truthy metadata = true ->
    let mse_pop := retained_mse rs in
    let rmse_pop := rmse_population sqrt_fin rs in
    exists r : row graph_stats,
      graph_body sqrt_fin (printed, all_rows) (filepath, doc)
      = Ok (printed, all_rows ++ [r]) /\
      mse_mean (stats r) = sample_mean mse_pop /\
      mse_std (stats r) = sample_std sqrt_fin mse_pop /\
      rmse_mean (stats r) = sample_mean rmse_pop /\
      rmse_std (stats r) = sample_std sqrt_fin rmse_pop /\
      n_targets_used (stats r) = length mse_pop /\
      (mse_pop = [] -> mse_mean (stats r) = NaN /\ mse_std (stats r) = NaN) /\
      (rmse_pop = [] -> rmse_mean (stats r) = NaN /\ rmse_std (stats r) = NaN) /\
      (forall q, mse_pop = [q] ->
                 mse_mean (stats r) = Fin q /\ mse_std (stats r) = NaN) /\
      (forall q, rmse_pop = [q] ->
                 rmse_mean (stats r) = Fin q /\ rmse_std (stats r) = NaN).
Proof.
  intros sqrt_fin filepath doc metadata rs printed all_rows Hload Htruthy
         mse_pop rmse_pop.
  exists (graph_row sqrt_fin metadata rs).
  split.
  { unfold graph_body. rewrite Hload. simpl. rewrite Htruthy. reflexivity. }
  rewrite graph_row_stats. cbn [stats mse_mean mse_std rmse_mean rmse_std
                                 n_targets_used].
  fold mse_pop rmse_pop.
  assert (Hempty : forall pop, pop = [] ->
                     sample_mean pop = NaN /\ sample_std sqrt_fin pop = NaN).
  { intros pop ->. split; reflexivity. }
  assert (Hone : forall pop q, pop = [q] ->
                   sample_mean pop = Fin q /\ sample_std sqrt_fin pop = NaN).
  { intros pop q ->. split; [|reflexivity].
    unfold sample_mean. now rewrite mean_value_singleton. }
  repeat split; try reflexivity;
    solve [ apply (Hempty _ H) | apply (Hone _ _ H) ].
Qed.

Lemma graph_row_reports_sample_statistics_witness :
  exists r : row graph_stats,
    graph_body integer_sqrt ([], []) ("run1.json", topk_document) = Ok ([], [] ++ [r]) /\
    mse_mean (stats r) = sample_mean (retained_mse two_measurements) /\
    mse_std (stats r) = sample_std integer_sqrt (retained_mse two_measurements) /\
    rmse_mean (stats r) = sample_mean (rmse_population integer_sqrt two_measurements) /\
    rmse_std (stats r)
    = sample_std integer_sqrt (rmse_population integer_sqrt two_measurements) /\
    n_targets_used (stats r) = length (retained_mse two_measurements) /\
    (retained_mse two_measurements = [] ->
     mse_mean (stats r) = NaN /\ mse_std (stats r) = NaN) /\
    (rmse_population integer_sqrt two_measurements = [] ->
     rmse_mean (stats r) = NaN /\ rmse_std (stats r) = NaN) /\
    (forall q, retained_mse two_measurements = [q] ->
               mse_mean (stats r) = Fin q /\ mse_std (stats r) = NaN) /\
    (forall q, rmse_population integer_sqrt two_measurements = [q] ->
               rmse_mean (stats r) = Fin q /\ rmse_std (stats r) = NaN).
Proof.
  exact (graph_row_reports_sample_statistics integer_sqrt "run1.json"
           topk_document (metadata := topk_metadata) (rs := two_measurements)
           [] [] eq_refl eq_refl).
Defined.

(** The scenario of the specification: mse values 4 and 16 give
    [mse_mean = 10], [rmse_mean = 3] (the mean of 2 and 4) and
    [n_targets_used = 2]. *)
Example graph_row_scenario :
  let s := stats (graph_row integer_sqrt topk_metadata two_measurements) in
  eqb (mse_mean s) (of_nat 10) = true /\
  eqb (rmse_mean s) (of_nat 3) = true /\
  n_targets_used s = 2.
Proof. vm_compute. repeat split. Qed.

(** A single measurement [{mse: 9}]: mean 9, rmse mean 3, both std nan. *)
Example graph_row_single_measurement :
  let s := stats (graph_row integer_sqrt topk_metadata
                    [ {| mse := Some (of_nat 9); test_samples := None |} ]) in
  eqb (mse_mean s) (of_nat 9) = true /\ mse_std s = NaN /\
  eqb (rmse_mean s) (of_nat 3) = true /\ rmse_std s = NaN /\
  n_targets_used s = 1.
Proof. vm_compute. repeat split. Qed.

(** ** Pair-level weighted mean *)

Lemma add_comm (x y : num) : add x y = add y x.
Proof. destruct x, y; simpl; try reflexivity. f_equal. ring. Qed.

Lemma add_assoc (x y z : num) : add x (add y z) = add (add x y) z.
Proof. destruct x, y, z; simpl; try reflexivity. f_equal. ring. Qed.

Lemma add_zero_r (x : num) : add x zero = x.
Proof. destruct x; simpl; try reflexivity. f_equal. ring. Qed.

Lemma add_zero_l (x : num) : add zero x = x.
Proof. rewrite add_comm. apply add_zero_r. Qed.

(** One turn of the loop, by cases on [usable]. *)
Lemma pair_accumulate_usable (r : measurement) (p w : num) :
  pair_accumulate (p, w) r
  = if usable r
    then (add p (product_of r), add w (as_float (test_samples r)))
    else (p, w).
Proof.
  unfold pair_accumulate, usable, product_of.
  destruct (mse r) as [m |]; [|reflexivity].
  destruct (test_samples r) as [ts |]; [|reflexivity].
  reflexivity.
Qed.

(** The accumulating loop computes the two sums over the usable
    measurements. *)
Lemma fold_pair_accumulate (rs : list measurement) (p w : num) :
  fold_left pair_accumulate rs (p, w)
  = (add p (weighted_sum rs), add w (weight_sum rs)).
Proof.
  revert p w. unfold weighted_sum, weight_sum.
  induction rs as [| r rs IH]; intros p w.
  - simpl. now rewrite !add_zero_r.
  - cbn [fold_left filter]. rewrite pair_accumulate_usable.
    destruct (usable r).
    + rewrite IH. cbn [map sum_num fold_right]. now rewrite !add_assoc.
    + apply IH.
Qed.

Lemma pair_row_stats (metadata : dict) (rs : list measurement) :
  stats (pair_row metadata rs)
  = if gtb (weight_sum rs) zero
    then div (weighted_sum rs) (weight_sum rs)
    else NaN.
Proof.
  unfold pair_row. simpl. rewrite fold_pair_accumulate.
  unfold overall_of. now rewrite !add_zero_l.
Qed.

Lemma Qc_add_pos (a b : Qc) : (0 < a)%Qc -> (0 < b)%Qc -> (0 < a + b)%Qc.
Proof.
  unfold Qclt, Qcplus, Q2Qc. cbn [this]. intros Ha Hb.
  rewrite (Qred_correct (a + b)). change (Qred 0) with 0%Q in *.
  apply Qlt_trans with (y := (a + 0)%Q).
  - rewrite Qplus_0_r. exact Ha.
  - apply Qplus_lt_r. exact Hb.
Qed.

Lemma gtb_zero_add (x y : num) :
  gtb x zero = true -> gtb y zero = true -> gtb (add x y) zero = true.
Proof.
  unfold gtb, zero.
  destruct x as [a | | |], y as [b | | |]; simpl; try discriminate; try reflexivity.
  intros Ha Hb. apply Qc_ltb_lt. apply Qc_ltb_lt in Ha, Hb.
  now apply Qc_add_pos.
Qed.

Lemma sum_num_positive (l : list num) :
  Forall (fun x => gtb x zero = true) l -> l <> [] ->
  gtb (sum_num l) zero = true.
Proof.
  induction 1 as [| x l Hx Hl IH]; intros Hne; [congruence|].
  cbn [sum_num fold_right]. destruct l as [| y l'].
  - simpl. now rewrite add_zero_r.
  - apply gtb_zero_add; [exact Hx | apply IH; discriminate].
Qed.

Lemma usable_weight_positive (r : measurement) :
  usable r = true -> gtb (as_float (test_samples r)) zero = true.
Proof.
  unfold usable. destruct (mse r); [|discriminate].
  destruct (test_samples r); [|discriminate]. trivial.
Qed.

Lemma weight_sum_positive (rs : list measurement) :
  filter usable rs <> [] -> gtb (weight_sum rs) zero = true.
Proof.
  intros Hne. unfold weight_sum. apply sum_num_positive.
  - apply Forall_forall. intros x Hx. apply in_map_iff in Hx.
    destruct Hx as [r [<- Hr]]. apply filter_In in Hr.
    now apply usable_weight_positive.
  - intros Hnil. apply map_eq_nil in Hnil. contradiction.
Qed.

(** A valid artifact adds the row [pair_row]. *)
Lemma pair_body_valid (filepath : string) (doc : document) (metadata : dict)
    (rs : list measurement) (printed : list message)
    (all_runs_data : list (row num)) :
  json_load doc = Ok (metadata, RList rs) ->
  dict_truthy metadata = true ->
  rs <> [] ->
  pair_body (printed, all_runs_data) (filepath, doc)
  = Ok (printed, all_runs_data ++ [pair_row metadata rs]).
Proof.
  intros Hload Hmd Hrs. unfold pair_body. rewrite Hload. cbn [bind].
  rewrite Hmd. destruct rs; [congruence | reflexivity].
Qed.

(** C2.  For an artifact with non-empty metadata and a non-empty
    measurement list, the pair-level aggregator appends one row whose
    [overall_mse] is [Σ (mse_i × samples_i) / Σ samples_i] over the
    measurements with mse and test_samples present and test_samples > 0,
    and nan when that weight is zero (no usable measurement); with empty
    metadata or an empty measurement list it appends no row. *)
Theorem pair_row_is_weighted_mean :
  forall (filepath : string) (doc : document) (metadata : dict)
         (rs : list measurement)
         (printed : list message) (all_runs_data : list (row num)),
    json_load doc = Ok (metadata, RList rs) ->
    (dict_truthy metadata = true -> rs <> [] ->
     exists r : row num,
       pair_body (printed, all_runs_data) (filepath, doc)
       = Ok (printed, all_runs_data ++ [r]) /\
       (filter usable rs <> [] ->
        stats r = div (weighted_sum rs) (weight_sum rs)) /\
       (weight_sum rs = zero -> stats r = NaN) /\
       (filter usable rs = [] -> weight_sum rs = zero)) /\
    (dict_truthy metadata = false \/ rs = [] ->
     pair_body (printed, all_runs_data) (filepath, doc)
     = Ok (printed ++ [WarnInvalid filepath], all_runs_data)).
Proof.
  intros filepath doc metadata rs printed all_runs_data Hload. split.
  - intros Hmd Hrs. exists (pair_row metadata rs). split.
    + now apply pair_body_valid.
    + rewrite pair_row_stats. repeat split.
      * intros Hne. now rewrite (weight_sum_positive rs Hne).
      * intros ->. reflexivity.
      * intros Hnil. unfold weight_sum. now rewrite Hnil.
  - intros Hskip. unfold pair_body. rewrite Hload. cbn [bind].
    destruct Hskip as [Hmd | ->].
    + now rewrite Hmd.
    + simpl. now rewrite orb_true_r.
Qed.

Lemma pair_row_is_weighted_mean_witness :
  exists r : row num,
    pair_body ([], []) ("run1.json", topk_document) = Ok ([], [] ++ [r]) /\
    stats r = div (weighted_sum two_measurements) (weight_sum two_measurements).
Proof.
  destruct (pair_row_is_weighted_mean "run1.json" topk_document
              (metadata := topk_metadata) (rs := two_measurements) [] [] eq_refl)
    as [Hrow _].
  destruct (Hrow eq_refl ltac:(discriminate)) as [r [Hbody [Hstat _]]].
  exists r. split; [exact Hbody|].
  apply Hstat. intros Hnil. vm_compute in Hnil. discriminate.
Defined.

(** The scenario of the specification: [(4*10 + 16*10) / 20 = 10]. *)
Example pair_row_scenario :
  eqb (stats (pair_row topk_metadata two_measurements)) (of_nat 10) = true.
Proof. vm_compute. reflexivity. Qed.

(** ** Equal weights *)

Lemma Qc_of_nat_succ (n : nat) : Qc_of_nat (S n) = (Qc_of_nat n + 1)%Qc.
Proof.
  unfold Qc_of_nat. apply Qc_is_canon. unfold Qcplus, Q2Qc. cbn [this].
  rewrite !Qred_correct. change (Qred 1) with 1%Q.
  rewrite Nat2Z.inj_succ. unfold Z.succ. rewrite inject_Z_plus. reflexivity.
Qed.

Lemma Qc_of_nat_pos (n : nat) : 0 < n -> (0 < Qc_of_nat n)%Qc.
Proof.
  intros Hn. unfold Qc_of_nat, Qclt, Q2Qc. cbn [this].
  rewrite (Qred_correct (inject_Z (Z.of_nat n))). change (Qred 0) with 0%Q.
  unfold Qlt. simpl. lia.
Qed.

Lemma Qc_mul_pos (a b : Qc) : (0 < a)%Qc -> (0 < b)%Qc -> (0 < a * b)%Qc.
Proof.
  intros Ha Hb. replace 0%Qc with (0 * b)%Qc by ring.
  now apply Qcmult_lt_compat_r.
Qed.

Lemma Qc_pos_compare (a : Qc) : (0 < a)%Qc -> (a ?= 0)%Qc = Gt.
Proof. intros Ha. now apply Qcgt_alt. Qed.

Lemma Qc_pos_neq (a : Qc) : (0 < a)%Qc -> a <> 0%Qc.
Proof. intros Ha Heq. subst a. exact (Qclt_not_eq _ _ Ha eq_refl). Qed.

Lemma mul_add_distr_pos (x y : num) (w : Qc) :
  (0 < w)%Qc -> mul (add x y) (Fin w) = add (mul x (Fin w)) (mul y (Fin w)).
Proof.
  intros Hw. pose proof (Qc_pos_compare Hw) as Hs.
  destruct x as [a | | |], y as [b | | |]; simpl; rewrite ?Hs; simpl;
    try reflexivity.
  f_equal. ring.
Qed.

Lemma sum_products_equal_weight (ms : list num) (w : Qc) :
  (0 < w)%Qc ->
  sum_num (map (fun m => mul m (Fin w)) ms) = mul (sum_num ms) (Fin w).
Proof.
  intros Hw. induction ms as [| m ms IH]; simpl.
  - unfold zero. f_equal. ring.
  - rewrite mul_add_distr_pos by exact Hw. now rewrite IH.
Qed.

Lemma sum_equal_weights (n : nat) (w : Qc) :
  sum_num (repeat (Fin w) n) = Fin (Qc_of_nat n * w).
Proof.
  induction n as [| n IH]; simpl.
  - unfold zero. f_equal. change (Qc_of_nat 0) with 0%Qc. ring.
  - rewrite IH. simpl. f_equal. rewrite Qc_of_nat_succ. ring.
Qed.

Lemma div_cancel_weight (m : num) (n : nat) (w : Qc) :
  0 < n -> (0 < w)%Qc ->
  div (mul m (Fin w)) (Fin (Qc_of_nat n * w)) = div m (of_nat n).
Proof.
  intros Hn Hw.
  pose proof (Qc_of_nat_pos Hn) as Hnpos.
  pose proof (Qc_pos_compare Hw) as Hs.
  pose proof (Qc_pos_compare Hnpos) as Hsn.
  pose proof (Qc_pos_compare (Qc_mul_pos Hnpos Hw)) as Hsnw.
  unfold of_nat. fold (Qc_of_nat n).
  destruct m as [a | | |]; simpl; rewrite ?Hs; simpl; rewrite ?Hsnw, ?Hsn;
    try reflexivity.
  f_equal. field. split; apply Qc_pos_neq; assumption.
Qed.

Lemma equal_weights_usable (w : Qc) (rs : list measurement) :
  (0 < w)%Qc -> equal_weights w rs -> filter usable rs = rs.
Proof.
  intros Hw. induction 1 as [| r rs [Hm Hts] _ IH]; [reflexivity|].
  simpl. unfold usable at 1. rewrite Hts.
  destruct (mse r); [|congruence].
  assert (Hpos : gtb (Fin w) zero = true) by (apply Qc_ltb_lt; exact Hw).
  rewrite Hpos. now rewrite IH.
Qed.

Lemma equal_weights_products (w : Qc) (rs : list measurement) :
  equal_weights w rs ->
  map product_of rs
  = map (fun m => mul m (Fin w)) (map (fun r => as_float (mse r)) rs).
Proof.
  induction 1 as [| r rs [_ Hts] _ IH]; [reflexivity|].
  simpl. unfold product_of at 1. rewrite Hts, IH. reflexivity.
Qed.

Lemma equal_weights_weights (w : Qc) (rs : list measurement) :
  equal_weights w rs ->
  map (fun r => as_float (test_samples r)) rs = repeat (Fin w) (length rs).
Proof.
  induction 1 as [| r rs [_ Hts] _ IH]; [reflexivity|].
  simpl. rewrite Hts, IH. reflexivity.
Qed.

(** *** On binary64 values *)

Lemma Qc_ltb_zero_Q2Qc (q : Q) : Qc_ltb 0 (Q2Qc q) = true <-> (0 < q)%Q.
Proof.
  rewrite Qc_ltb_lt. unfold Qclt, Q2Qc. cbn [this].
  rewrite (Qred_correct q). change (Qred 0) with 0%Q. reflexivity.
Qed.

(** A finite float that is not a zero is positive exactly when its sign
    bit is clear. *)
Lemma value_finite_sign (s : bool) (m : positive) (e : Z) :
  gtb (Binary64.value (S754_finite s m e)) zero = negb s.
Proof.
  unfold gtb, zero, Binary64.value, ltb.
  destruct s; cbn [negb].
  - destruct (Qc_ltb 0 _) eqn:H; [|reflexivity].
    apply Qc_ltb_zero_Q2Qc in H. exfalso.
    destruct e; unfold Qlt in H; simpl in H; lia.
  - apply Qc_ltb_zero_Q2Qc.
    destruct e; unfold Qlt; simpl; lia.
Qed.

(** The test [x > 0] on a float is the test on the number it stands for. *)
Lemma ltb_zero_value (x : Binary64.float) :
  Binary64.ltb Binary64.zero x = gtb (Binary64.value x) zero.
Proof.
  destruct x as [s | s | | s m e].
  - reflexivity.
  - destruct s; reflexivity.
  - reflexivity.
  - rewrite value_finite_sign. destruct s; reflexivity.
Qed.

Lemma same_number_eq (x y : num) : same_number x y = true -> x = y.
Proof.
  destruct x, y; simpl; try discriminate; try reflexivity.
  intros H. f_equal. now apply Qc_eqb_eq.
Qed.

(** In exact arithmetic the weighted mean under equal weights is the
    unweighted mean: [Σ (m_i × w) / (n × w) = Σ m_i / n]. *)
Lemma equal_weights_exact_mean (rs : list measurement) (w : Qc) :
  rs <> [] ->
  (0 < w)%Qc ->
  equal_weights w rs ->
  overall_of (fold_left pair_accumulate rs (zero, zero)) = unweighted_mean rs.
Proof.
  intros Hne Hw Heq.
  assert (Hlen : 0 < length rs) by (destruct rs; [congruence | simpl; lia]).
  change (stats (pair_row [] rs) = unweighted_mean rs).
  rewrite pair_row_stats, weight_sum_positive
    by (rewrite (equal_weights_usable Hw Heq); exact Hne).
  unfold weighted_sum, weight_sum, unweighted_mean.
  rewrite (equal_weights_usable Hw Heq).
  rewrite (equal_weights_products Heq), (equal_weights_weights Heq).
  rewrite (sum_products_equal_weight _ Hw), sum_equal_weights.
  now apply div_cancel_weight.
Qed.

(** A turn of the loop that does not round is the turn of the exact loop. *)
Lemma exact_turn_simulation (p t : Binary64.float) (r : measurement_binary64) :
  exact_turn (p, t) r = true ->
  pair_accumulate (Binary64.value p, Binary64.value t) (exact_measurement r)
  = (Binary64.value (fst (pair_accumulate_binary64 (p, t) r)),
     Binary64.value (snd (pair_accumulate_binary64 (p, t) r))).
Proof.
  unfold exact_turn, pair_accumulate, pair_accumulate_binary64, exact_measurement.
  cbn [mse test_samples].
  destruct (mse_binary64 r) as [m |]; [|reflexivity].
  destruct (test_samples_binary64 r) as [ts |]; [|reflexivity].
  cbn [option_map]. rewrite ltb_zero_value.
  destruct (gtb (Binary64.value ts) zero); [|reflexivity].
  intros H. apply andb_prop in H. destruct H as [H Ht].
  apply andb_prop in H. destruct H as [Hm Hp].
  apply same_number_eq in Hm, Hp, Ht. cbn [fst snd].
  unfold exact_mul, exact_add in *.
  now rewrite Hp, Ht, Hm.
Qed.

Lemma rounding_free_simulation (rs : list measurement_binary64) :
  forall p t : Binary64.float,
    rounding_free (p, t) rs = true ->
    Binary64.value
      (overall_of_binary64 (fold_left pair_accumulate_binary64 rs (p, t)))
    = overall_of (fold_left pair_accumulate (map exact_measurement rs)
                    (Binary64.value p, Binary64.value t)).
Proof.
  induction rs as [| r rs IH]; intros p t Hfree.
  - cbn [rounding_free] in Hfree. cbn [fold_left map].
    unfold overall_of_binary64, overall_of.
    rewrite ltb_zero_value in *.
    destruct (gtb (Binary64.value t) zero); [|reflexivity].
    now apply same_number_eq.
  - cbn [rounding_free] in Hfree. apply andb_prop in Hfree.
    destruct Hfree as [Hturn Hrest].
    cbn [fold_left map]. rewrite (exact_turn_simulation _ _ _ Hturn).
    destruct (pair_accumulate_binary64 (p, t) r) as [p' t'].
    apply IH. exact Hrest.
Qed.

Lemma equal_weights_values (w : Binary64.float) (q : Qc)
    (rs : list measurement_binary64) :
  Binary64.value w = Fin q ->
  equal_weights_binary64 w rs ->
  equal_weights q (map exact_measurement rs).
Proof.
  intros Hw. induction 1 as [| r rs [Hm Hts] _ IH]; [constructor|].
  cbn [map]. constructor; [|exact IH].
  unfold exact_measurement. cbn [mse test_samples]. split.
  - destruct (mse_binary64 r); [discriminate | congruence].
  - now rewrite Hts, <- Hw.
Qed.

(** One measurement with mse [0.1] and sample count [3]: the product
    [0.1 * 3] rounds to [0.30000000000000004] and the quotient by [3] to
    [0.10000000000000002], which is not the mean [0.1]. *)
Lemma rounded_weighted_mean_differs :
  ~ equal_weights_claim.
Proof.
  intros Hclaim.
  assert (Hdiff : same_number
                    (Binary64.value (overall_mse_binary64 tenth_measured_on_three))
                    (unweighted_mean (map exact_measurement tenth_measured_on_three))
                  = false) by (vm_compute; reflexivity).
  rewrite (Hclaim (Binary64.of_Z 3) tenth_measured_on_three) in Hdiff.
  - vm_compute in Hdiff. discriminate.
  - reflexivity.
  - reflexivity.
  - discriminate.
  - repeat constructor. discriminate.
Qed.

(** C8, amended.  When every measurement of an artifact has an mse and the
    same finite positive sample count, and no operation of the loop rounds
    (each product, each running sum and the final quotient is the exact
    one), [overall_mse] is the unweighted arithmetic mean of the mse
    values. *)
Theorem equal_weights_give_unweighted_mean :
  forall (w : Binary64.float) (rs : list measurement_binary64),
    isfinite (Binary64.value w) = true ->
    Binary64.ltb Binary64.zero w = true ->
    rs <> [] ->
    equal_weights_binary64 w rs ->
    rounding_free (Binary64.zero, Binary64.zero) rs = true ->
    Binary64.value (overall_mse_binary64 rs)
    = unweighted_mean (map exact_measurement rs).
Proof.
  intros w rs Hfin Hpos Hne Heq Hfree.
  unfold overall_mse_binary64. rewrite (rounding_free_simulation _ _ _ Hfree).
  destruct (Binary64.value w) as [q | | |] eqn:Hw; try discriminate.
  rewrite ltb_zero_value, Hw in Hpos.
  apply equal_weights_exact_mean with (w := q).
  - intros Hnil. apply map_eq_nil in Hnil. contradiction.
  - now apply Qc_ltb_lt.
  - exact (equal_weights_values Hw Heq).
Qed.

Lemma equal_weights_give_unweighted_mean_witness :
  Binary64.value (overall_mse_binary64 halves_measured_on_two)
  = unweighted_mean (map exact_measurement halves_measured_on_two).
Proof.
  apply (@equal_weights_give_unweighted_mean (Binary64.of_Z 2)).
  - reflexivity.
  - reflexivity.
  - discriminate.
  - repeat constructor; discriminate.
  - vm_compute. reflexivity.
Defined.

(** The floats of the counterexample: [0.1], [0.1 * 3] and the
    [overall_mse] that the loop returns. *)
Example tenth_is_the_nearest_double :
  Binary64.of_fraction 1 10 = S754_finite false 7205759403792794 (-56) /\
  Binary64.mul (Binary64.of_fraction 1 10) (Binary64.of_Z 3)
  = S754_finite false 5404319552844596 (-54) /\
  overall_mse_binary64 tenth_measured_on_three
  = S754_finite false 7205759403792795 (-56).
Proof. vm_compute. repeat split. Qed.

(** The floats of the witness: [0.5 * 2 + 0.25 * 2 = 1.5] over [2 + 2 = 4]
    is [0.375], the mean of [0.5] and [0.25]; nothing rounds. *)
Example halves_are_exact :
  same_number (Binary64.value (Binary64.of_fraction 1 2)) (Fin (Q2Qc (1 # 2)))
  = true /\
  same_number (Binary64.value (overall_mse_binary64 halves_measured_on_two))
              (Fin (Q2Qc (3 # 8))) = true /\
  rounding_free (Binary64.zero, Binary64.zero) tenth_measured_on_three = false.
Proof. vm_compute. repeat split. Qed.

(** ** The frame pipeline *)

Lemma map_snd_combine_seq (A : Type) (l : list A) (k : nat) :
  map snd (combine (seq k (length l)) l) = l.
Proof.
  revert k. induction l as [| x l IH]; intros k; simpl; [reflexivity|].
  now rewrite IH.
Qed.

Lemma map_fst_combine_seq (A : Type) (l : list A) (k : nat) :
  map fst (combine (seq k (length l)) l) = seq k (length l).
Proof.
  revert k. induction l as [| x l IH]; intros k; simpl; [reflexivity|].
  now rewrite IH.
Qed.

Lemma keep_last_In (S : Type) (l : list (nat * row S)) (x : nat * row S) :
  In x (keep_last l) -> In x l.
Proof.
  induction l as [| r l IH]; simpl; [trivial|].
  destruct (existsb _ l); simpl; intuition.
Qed.

Lemma insert_perm (S : Type) (r : nat * row S) (l : list (nat * row S)) :
  Permutation (insert r l) (r :: l).
Proof.
  induction l as [| r' l IH]; simpl; [reflexivity|].
  destruct (sort_le (key (snd r)) (key (snd r'))); [reflexivity|].
  rewrite IH. apply perm_swap.
Qed.

Lemma stable_sort_perm (S : Type) (l : list (nat * row S)) :
  Permutation (stable_sort l) l.
Proof.
  induction l as [| r l IH]; simpl; [reflexivity|].
  rewrite insert_perm. now apply perm_skip.
Qed.

(** The frame steps of the graph-level aggregator, once the loop has run. *)
Lemma graph_run_unfold (sqrt_fin : Qc -> Qc)
    (json_files : list (string * document))
    (printed0 : list message) (all_rows : list (row graph_stats)) :
  json_files <> [] ->
  for_each (graph_body sqrt_fin) json_files ([], []) = Ok (printed0, all_rows) ->
  aggregate_graph_results_from_json sqrt_fin json_files
  = match all_rows with
    | [] => Raise KeyError
    | _ =>
        let kept := keep_last (combine (seq 0 (length all_rows)) all_rows) in
        let df := reset_index {| columns := graph_columns;
                                 data := stable_sort kept |} in
        Ok ({| printed := printed0 ++ [InfoSaved]; csv := Some (to_csv df) |}, df)
    end.
Proof.
  intros Hne Hloop. unfold aggregate_graph_results_from_json.
  destruct json_files as [| f fs]; [congruence|].
  cbn [length Nat.eqb]. rewrite Hloop. cbn [bind].
  destruct all_rows as [| r rs]; [reflexivity|].
  cbv zeta.
  set (kept := keep_last (combine (seq 0 (length (r :: rs))) (r :: rs))).
  change (drop_duplicates (DataFrame graph_columns (r :: rs)))
    with (Ok {| columns := graph_columns; data := kept |}).
  cbn [bind]. unfold sort_values.
  change (has_columns {| columns := graph_columns; data := kept |}
            ["condition"; "alpha"; "seed"]) with true.
  cbn [negb data columns]. reflexivity.
Qed.

(** The frame steps of the pair-level aggregator, once the loop has run. *)
Lemma pair_run_unfold (json_files : list (string * document))
    (printed0 : list message) (all_runs_data : list (row num)) :
  json_files <> [] ->
  for_each pair_body json_files ([], []) = Ok (printed0, all_runs_data) ->
  aggregate_results_from_json json_files
  = match all_runs_data with
    | [] => Ok {| printed := printed0 ++ [ErrNoData]; csv := None |}
    | _ =>
        Ok {| printed := printed0 ++ [InfoSaved];
              csv := Some (map snd (keep_last
                       (combine (seq 0 (length all_runs_data)) all_runs_data))) |}
    end.
Proof.
  intros Hne Hloop. unfold aggregate_results_from_json.
  destruct json_files as [| f fs]; [congruence|].
  cbn [length Nat.eqb]. rewrite Hloop. cbn [bind].
  destruct all_runs_data as [| r rs]; reflexivity.
Qed.

(** ** Alpha normalisation *)

(** A property of the loop state that every turn keeps holds at the end. *)
Lemma for_each_invariant (S A : Type) (body : S -> A -> result S) (P : S -> Prop) :
  (forall s x s', P s -> body s x = Ok s' -> P s') ->
  forall (xs : list A) (s s' : S),
    P s -> for_each body xs s = Ok s' -> P s'.
Proof.
  intros Hstep. induction xs as [| x xs IH]; intros s s' Hs Hrun; simpl in Hrun.
  - now inversion Hrun; subst.
  - destruct (body s x) as [s1 | e] eqn:Hbody; simpl in Hrun; [|discriminate].
    exact (IH s1 s' (Hstep s x s1 Hs Hbody) Hrun).
Qed.

Lemma normalize_alpha_rule (p : params) : alpha_rule (normalize_alpha p).
Proof.
  unfold alpha_rule, normalize_alpha.
  destruct (alpha_independent_cond (condition p)) eqn:Hc; [reflexivity|].
  intros [Hall | Hrandom].
  - rewrite Hall in Hc. discriminate.
  - rewrite Hrandom in Hc. discriminate.
Qed.

Lemma graph_row_key (sqrt_fin : Qc -> Qc) (metadata : dict)
    (rs : list measurement) :
  key (graph_row sqrt_fin metadata rs) = normalize_alpha (params_of metadata).
Proof.
  unfold graph_row.
  destruct (_mean_std_sample sqrt_fin (_finite (mse_column rs))).
  destruct (_mean_std_sample sqrt_fin _). reflexivity.
Qed.

Lemma graph_body_alpha_rule (sqrt_fin : Qc -> Qc)
    (s s' : list message * list (row graph_stats)) (f : string * document) :
  Forall (fun r => alpha_rule (key r)) (snd s) ->
  graph_body sqrt_fin s f = Ok s' ->
  Forall (fun r => alpha_rule (key r)) (snd s').
Proof.
  destruct s as [printed all_rows], f as [filepath doc]. unfold graph_body.
  intros Hall. destruct (json_load doc) as [[metadata results] | e]; [|discriminate].
  cbn [bind]. destruct (negb (dict_truthy metadata)).
  - intros H; inversion H; subst. exact Hall.
  - destruct results; intros H; inversion H; subst; try exact Hall.
    cbn [snd]. apply Forall_app. split; [exact Hall|].
    constructor; [rewrite graph_row_key; apply normalize_alpha_rule | constructor].
Qed.

Lemma pair_body_alpha_rule
    (s s' : list message * list (row num)) (f : string * document) :
  Forall (fun r => alpha_rule (key r)) (snd s) ->
  pair_body s f = Ok s' ->
  Forall (fun r => alpha_rule (key r)) (snd s').
Proof.
  destruct s as [printed all_rows], f as [filepath doc]. unfold pair_body.
  intros Hall. destruct (json_load doc) as [[metadata results] | e]; [|discriminate].
  cbn [bind]. destruct (negb (dict_truthy metadata) || negb (results_truthy results)).
  - intros H; inversion H; subst. exact Hall.
  - destruct results; intros H; inversion H; subst.
    cbn [snd]. apply Forall_app. split; [exact Hall|].
    constructor; [apply normalize_alpha_rule | constructor].
Qed.

Lemma graph_loop_alpha_rule (sqrt_fin : Qc -> Qc)
    (json_files : list (string * document))
    (printed0 : list message) (all_rows : list (row graph_stats)) :
  for_each (graph_body sqrt_fin) json_files ([], []) = Ok (printed0, all_rows) ->
  Forall (fun r => alpha_rule (key r)) all_rows.
Proof.
  intros Hloop.
  apply (@for_each_invariant _ _ (graph_body sqrt_fin)
           (fun s => Forall (fun r => alpha_rule (key r)) (snd s))
           (fun s x s' => @graph_body_alpha_rule sqrt_fin s s' x)
           json_files ([], []) (printed0, all_rows));
    [constructor | exact Hloop].
Qed.

Lemma pair_loop_alpha_rule (json_files : list (string * document))
    (printed0 : list message) (all_runs_data : list (row num)) :
  for_each pair_body json_files ([], []) = Ok (printed0, all_runs_data) ->
  Forall (fun r => alpha_rule (key r)) all_runs_data.
Proof.
  intros Hloop.
  apply (@for_each_invariant _ _ pair_body
           (fun s => Forall (fun r => alpha_rule (key r)) (snd s))
           (fun s x s' => @pair_body_alpha_rule s s' x)
           json_files ([], []) (printed0, all_runs_data));
    [constructor | exact Hloop].
Qed.

(** Rows that survive [keep_last], in any order, come from the list. *)
Lemma kept_rows_incl (S : Type) (rows : list (row S)) (r : row S) :
  In r (map snd (keep_last (combine (seq 0 (length rows)) rows))) -> In r rows.
Proof.
  intros Hin. apply in_map_iff in Hin. destruct Hin as [[i r'] [Heq Hin]].
  simpl in Heq. subst r'. apply keep_last_In in Hin.
  apply in_combine_r in Hin. exact Hin.
Qed.

Lemma sorted_kept_rows_incl (S : Type) (rows : list (row S)) (r : row S) :
  In r (to_csv (reset_index
                  {| columns := graph_columns;
                     data := stable_sort
                               (keep_last (combine (seq 0 (length rows)) rows)) |})) ->
  In r rows.
Proof.
  unfold to_csv, reset_index. cbn [data].
  rewrite <- (length_map snd), map_snd_combine_seq. intros Hin.
  apply kept_rows_incl. apply in_map_iff in Hin. destruct Hin as [x [Heq Hin]].
  apply in_map_iff. exists x. split; [exact Heq|].
  apply (Permutation_in _ (stable_sort_perm _) Hin).
Qed.

Lemma list_eq_dec_nil (A : Type) (l : list A) : {l = []} + {l <> []}.
Proof. destruct l; [left; reflexivity | right; discriminate]. Qed.

(** An exception in the loop leaves the aggregator. *)
Lemma graph_run_raises (sqrt_fin : Qc -> Qc)
    (json_files : list (string * document)) (e : exn) :
  json_files <> [] ->
  for_each (graph_body sqrt_fin) json_files ([], []) = Raise e ->
  aggregate_graph_results_from_json sqrt_fin json_files = Raise e.
Proof.
  intros Hne Hloop. unfold aggregate_graph_results_from_json.
  destruct json_files as [| f fs]; [congruence|].
  cbn [length Nat.eqb]. now rewrite Hloop.
Qed.

Lemma pair_run_raises (json_files : list (string * document)) (e : exn) :
  json_files <> [] ->
  for_each pair_body json_files ([], []) = Raise e ->
  aggregate_results_from_json json_files = Raise e.
Proof.
  intros Hne Hloop. unfold aggregate_results_from_json.
  destruct json_files as [| f fs]; [congruence|].
  cbn [length Nat.eqb]. now rewrite Hloop.
Qed.

(** C3.  In every row that an aggregator emits, in its loop and in the
    file it writes, a condition ['all'] or ['random'] comes with alpha nan,
    whatever alpha the metadata declare. *)
Theorem alpha_is_missing_for_all_and_random :
  forall (sqrt_fin : Qc -> Qc) (json_files : list (string * document)),
    (forall printed0 all_rows,
        for_each (graph_body sqrt_fin) json_files ([], []) = Ok (printed0, all_rows) ->
        Forall (fun r => alpha_rule (key r)) all_rows) /\
    (forall out df rows,
        aggregate_graph_results_from_json sqrt_fin json_files = Ok (out, df) ->
        csv out = Some rows ->
        Forall (fun r => alpha_rule (key r)) rows) /\
    (forall printed0 all_runs_data,
        for_each pair_body json_files ([], []) = Ok (printed0, all_runs_data) ->
        Forall (fun r => alpha_rule (key r)) all_runs_data) /\
    (forall out rows,
        aggregate_results_from_json json_files = Ok out ->
        csv out = Some rows ->
        Forall (fun r => alpha_rule (key r)) rows).
Proof.
  intros sqrt_fin json_files. split; [|split; [|split]].
  - apply graph_loop_alpha_rule.
  - intros out df rows Hrun Hcsv.
    destruct (list_eq_dec_nil json_files) as [Hnil | Hne].
    { subst json_files. inversion Hrun; subst. discriminate. }
    destruct (for_each (graph_body sqrt_fin) json_files ([], []))
      as [[printed0 all_rows] | e] eqn:Hloop.
    + rewrite (graph_run_unfold sqrt_fin Hne Hloop) in Hrun.
      destruct all_rows as [| r0 rs0] eqn:Hrows; [discriminate|].
      rewrite <- Hrows in *. cbv zeta in Hrun.
      inversion Hrun; subst out df. cbn [csv] in Hcsv. inversion Hcsv; subst rows.
      apply Forall_forall. intros r Hin.
      apply sorted_kept_rows_incl in Hin.
      pose proof (graph_loop_alpha_rule _ _ Hloop) as Hall.
      rewrite Forall_forall in Hall. now apply Hall.
    + rewrite (graph_run_raises sqrt_fin Hne Hloop) in Hrun. discriminate.
  - apply pair_loop_alpha_rule.
  - intros out rows Hrun Hcsv.
    destruct (list_eq_dec_nil json_files) as [Hnil | Hne].
    { subst json_files. inversion Hrun; subst. discriminate. }
    destruct (for_each pair_body json_files ([], []))
      as [[printed0 all_rows] | e] eqn:Hloop.
    + rewrite (pair_run_unfold Hne Hloop) in Hrun.
      destruct all_rows as [| r0 rs0] eqn:Hrows.
      { inversion Hrun; subst. discriminate. }
      rewrite <- Hrows in *.
      inversion Hrun; subst out. cbn [csv] in Hcsv. inversion Hcsv; subst rows.
      apply Forall_forall. intros r Hin.
      apply kept_rows_incl in Hin.
      pose proof (pair_loop_alpha_rule _ Hloop) as Hall.
      rewrite Forall_forall in Hall. now apply Hall.
    + rewrite (pair_run_raises Hne Hloop) in Hrun. discriminate.
Qed.

Lemma alpha_is_missing_for_all_and_random_witness :
  alpha (key (graph_row integer_sqrt all_metadata two_measurements)) = CNum NaN /\
  alpha (key (pair_row all_metadata two_measurements)) = CNum NaN.
Proof.
  destruct (alpha_is_missing_for_all_and_random integer_sqrt
              [("all.json", all_document)]) as [_ [Hgraph [_ Hpair]]].
  split.
  - assert (Hrows : Forall (fun r => alpha_rule (key r))
                      [graph_row integer_sqrt all_metadata two_measurements]).
    { apply (Hgraph
               {| printed := [InfoSaved];
                  csv := Some [graph_row integer_sqrt all_metadata two_measurements] |}
               {| columns := graph_columns;
                  data := [(0, graph_row integer_sqrt all_metadata two_measurements)] |});
        vm_compute; reflexivity. }
    inversion Hrows as [| r rs Hrule _]. apply Hrule. left. reflexivity.
  - assert (Hrows : Forall (fun r => alpha_rule (key r))
                      [pair_row all_metadata two_measurements]).
    { apply (Hpair
               {| printed := [InfoSaved];
                  csv := Some [pair_row all_metadata two_measurements] |});
        vm_compute; reflexivity. }
    inversion Hrows as [| r rs Hrule _]. apply Hrule. left. reflexivity.
Defined.

(** ** Deduplication *)

Lemma existsb_combine_snd (S : Type) (f : row S -> bool) (rows : list (row S))
    (idx : list nat) :
  length idx = length rows ->
  existsb (fun r' => f (snd r')) (combine idx rows) = existsb f rows.
Proof.
  revert idx. induction rows as [| r rows IH]; intros [| i idx] Hlen;
    simpl in *; try reflexivity; try discriminate.
  rewrite IH by lia. reflexivity.
Qed.

Lemma keep_last_rows (S : Type) (rows : list (row S)) (k : nat) :
  map snd (keep_last (combine (seq k (length rows)) rows)) = last_occurrences rows.
Proof.
  revert k. induction rows as [| r rows IH]; intros k; [reflexivity|].
  cbn [length seq combine keep_last last_occurrences snd].
  rewrite (existsb_combine_snd (fun r' => key_same (key r) (key r')))
    by apply length_seq.
  destruct (existsb _ rows); cbn [map snd]; now rewrite IH.
Qed.

Lemma existsb_false_Forall (A : Type) (f : A -> bool) (l : list A) :
  existsb f l = false <-> Forall (fun x => f x = false) l.
Proof.
  induction l as [| x l IH]; simpl.
  - split; [constructor | reflexivity].
  - rewrite orb_false_iff, IH. split.
    + intros [Hx Hl]. now constructor.
    + intros H. inversion H. now split.
Qed.

Lemma last_occurrences_spec (S : Type) (rows : list (row S)) (r : row S) :
  In r (last_occurrences rows) <-> is_last_occurrence r rows.
Proof.
  unfold is_last_occurrence. split.
  - induction rows as [| a rows IH]; simpl; [contradiction|].
    destruct (existsb _ rows) eqn:Hex.
    + intros Hin. destruct (IH Hin) as [l1 [l2 [-> Hl2]]].
      now exists (a :: l1), l2.
    + intros [-> | Hin].
      * exists [], rows. split; [reflexivity|].
        now apply existsb_false_Forall in Hex.
      * destruct (IH Hin) as [l1 [l2 [-> Hl2]]].
        now exists (a :: l1), l2.
  - intros [l1 [l2 [-> Hl2]]].
    induction l1 as [| a l1 IH]; simpl.
    + apply (existsb_false_Forall (fun r' => key_same (key r) (key r'))) in Hl2.
      rewrite Hl2. now left.
    + destruct (existsb _ (l1 ++ r :: l2)); [exact IH | right; exact IH].
Qed.

(** No two rows of the result have the same key. *)
Lemma last_occurrences_distinct (S : Type) (rows : list (row S)) :
  ForallOrdPairs (fun a b => key_same (key a) (key b) = false)
    (last_occurrences rows).
Proof.
  induction rows as [| a rows IH]; simpl; [constructor|].
  destruct (existsb _ rows) eqn:Hex; [exact IH|].
  constructor; [|exact IH].
  apply Forall_forall. intros b Hb.
  apply (existsb_false_Forall (fun r' => key_same (key a) (key r'))) in Hex.
  rewrite Forall_forall in Hex. apply Hex.
  apply last_occurrences_spec in Hb. destruct Hb as [l1 [l2 [-> _]]].
  apply in_or_app. right. now left.
Qed.

(** ** Sorting *)

Lemma Qc_compare_cases (a b : Qc) :
  (Qc_ltb a b = true /\ Qc_eqb a b = false /\ Qc_ltb b a = false /\ Qc_eqb b a = false) \/
  (Qc_ltb a b = false /\ Qc_eqb a b = true /\ Qc_ltb b a = false /\ Qc_eqb b a = true) \/
  (Qc_ltb a b = false /\ Qc_eqb a b = false /\ Qc_ltb b a = true /\ Qc_eqb b a = false).
Proof.
  assert (Hlt_false : forall x y : Qc, ~ (x < y)%Qc -> Qc_ltb x y = false).
  { intros x y H. destruct (Qc_ltb x y) eqn:E; [|reflexivity].
    apply Qc_ltb_lt in E. contradiction. }
  assert (Heq_false : forall x y : Qc, x <> y -> Qc_eqb x y = false).
  { intros x y H. destruct (Qc_eqb x y) eqn:E; [|reflexivity].
    apply Qc_eqb_eq in E. contradiction. }
  destruct (Qc_dec a b) as [[Hlt | Hgt] | Heq].
  - left. repeat split.
    + now apply Qc_ltb_lt.
    + apply Heq_false. now apply Qclt_not_eq.
    + apply Hlt_false. apply Qcle_not_lt. now apply Qclt_le_weak.
    + apply Heq_false. intros E. symmetry in E. revert E. now apply Qclt_not_eq.
  - right. right. repeat split.
    + apply Hlt_false. apply Qcle_not_lt. now apply Qclt_le_weak.
    + apply Heq_false. intros E. symmetry in E. revert E. now apply Qclt_not_eq.
    + now apply Qc_ltb_lt.
    + apply Heq_false. now apply Qclt_not_eq.
  - right. left. subst b. repeat split.
    + apply Hlt_false. apply Qcle_not_lt. apply Qcle_refl.
    + now apply Qc_eqb_eq.
    + apply Hlt_false. apply Qcle_not_lt. apply Qcle_refl.
    + now apply Qc_eqb_eq.
Qed.

Lemma num_compare_antisym (x y : num) :
  isnan x = false -> isnan y = false ->
  num_compare y x = CompOpp (num_compare x y).
Proof.
  unfold num_compare.
  destruct x as [a | | |], y as [b | | |]; simpl; try discriminate;
    try reflexivity.
  intros _ _.
  destruct (Qc_compare_cases a b)
    as [[H1 [H2 [H3 H4]]] | [[H1 [H2 [H3 H4]]] | [H1 [H2 [H3 H4]]]]];
    rewrite H1, H3, ?H2, ?H4; reflexivity.
Qed.

Lemma cell_compare_antisym (c1 c2 : cell) :
  cell_compare c2 c1 = CompOpp (cell_compare c1 c2).
Proof.
  unfold cell_compare.
  destruct (isna c1) eqn:H1, (isna c2) eqn:H2; try reflexivity.
  destruct c1 as [| x | s], c2 as [| y | t]; simpl in *; try discriminate;
    try reflexivity.
  - now apply num_compare_antisym.
  - apply String.compare_antisym.
Qed.

Lemma sort_compare_antisym (p q : params) :
  sort_compare q p = CompOpp (sort_compare p q).
Proof.
  unfold sort_compare.
  rewrite (cell_compare_antisym (condition p) (condition q)).
  rewrite (cell_compare_antisym (alpha p) (alpha q)).
  rewrite (cell_compare_antisym (seed p) (seed q)).
  destruct (cell_compare (condition p) (condition q)); simpl; try reflexivity.
  destruct (cell_compare (alpha p) (alpha q)); simpl; reflexivity.
Qed.

Lemma sort_le_total (p q : params) : sort_le p q = false -> sort_le q p = true.
Proof.
  unfold sort_le. rewrite (sort_compare_antisym p q).
  destruct (sort_compare p q); simpl; congruence.
Qed.

Lemma insert_HdRel (S : Type) (r a : nat * row S) (l : list (nat * row S)) :
  row_le (snd a) (snd r) ->
  HdRel (fun x y => row_le (snd x) (snd y)) a l ->
  HdRel (fun x y => row_le (snd x) (snd y)) a (insert r l).
Proof.
  intros Har Hhd. destruct l as [| b l]; simpl.
  - now constructor.
  - destruct (sort_le (key (snd r)) (key (snd b))); constructor; [exact Har|].
    now inversion Hhd.
Qed.

Lemma insert_sorted (S : Type) (r : nat * row S) (l : list (nat * row S)) :
  Sorted (fun x y => row_le (snd x) (snd y)) l ->
  Sorted (fun x y => row_le (snd x) (snd y)) (insert r l).
Proof.
  induction 1 as [| a l Hsorted IH Hhd]; simpl.
  - repeat constructor.
  - destruct (sort_le (key (snd r)) (key (snd a))) eqn:Hle.
    + constructor; [now constructor | now constructor].
    + constructor; [exact IH|].
      apply insert_HdRel; [|exact Hhd].
      unfold row_le. now apply sort_le_total.
Qed.

Lemma stable_sort_sorted (S : Type) (l : list (nat * row S)) :
  Sorted (fun x y => row_le (snd x) (snd y)) (stable_sort l).
Proof.
  induction l as [| r l IH]; simpl; [constructor | now apply insert_sorted].
Qed.

Lemma Sorted_map_snd (S : Type) (l : list (nat * row S)) :
  Sorted (fun x y => row_le (snd x) (snd y)) l ->
  Sorted (@row_le S) (map snd l).
Proof.
  induction 1 as [| a l Hsorted IH Hhd]; simpl; constructor; [exact IH|].
  destruct Hhd; simpl; now constructor.
Qed.

(** ** The final table *)

(** The pair-level aggregator leaves the rows in processing order: with a
    [topk] run found before an [all] run the file is not sorted. *)
Lemma pair_table_is_not_sorted :
  exists (printed0 : list message) (all_runs_data table : list (row num)),
    for_each pair_body topk_then_all ([], []) = Ok (printed0, all_runs_data) /\
    aggregate_results_from_json topk_then_all
    = Ok {| printed := printed0 ++ [InfoSaved]; csv := Some table |} /\
    ~ deduplicated_and_sorted all_runs_data table.
Proof.
  exists [], [pair_row topk_metadata two_measurements;
              pair_row all_metadata two_measurements],
         [pair_row topk_metadata two_measurements;
          pair_row all_metadata two_measurements].
  split; [vm_compute; reflexivity|].
  split; [vm_compute; reflexivity|].
  intros [_ Hsorted].
  inversion Hsorted as [| a l _ Hhd]; subst.
  inversion Hhd as [| b l' Hle]; subst.
  vm_compute in Hle. discriminate.
Qed.

Lemma reset_index_rows (S : Type) (cols : list string) (l : list (nat * row S)) :
  map snd (data (reset_index {| columns := cols; data := l |})) = map snd l.
Proof.
  unfold reset_index. cbn [data].
  rewrite <- (length_map snd). apply map_snd_combine_seq.
Qed.

(** With at least one row the graph-level aggregator writes its file. *)
Lemma graph_run_ok (sqrt_fin : Qc -> Qc)
    (json_files : list (string * document))
    (printed0 : list message) (all_rows : list (row graph_stats)) :
  json_files <> [] ->
  for_each (graph_body sqrt_fin) json_files ([], []) = Ok (printed0, all_rows) ->
  all_rows <> [] ->
  aggregate_graph_results_from_json sqrt_fin json_files
  = Ok ({| printed := printed0 ++ [InfoSaved];
           csv := Some (map snd (stable_sort
                    (keep_last (combine (seq 0 (length all_rows)) all_rows)))) |},
        reset_index
          {| columns := graph_columns;
             data := stable_sort
                       (keep_last (combine (seq 0 (length all_rows)) all_rows)) |}).
Proof.
  intros Hne Hloop Hrows.
  rewrite (graph_run_unfold sqrt_fin Hne Hloop).
  destruct all_rows as [| r0 rs0]; [congruence|].
  cbv zeta. unfold to_csv.
  now rewrite reset_index_rows.
Qed.

(** The graph-level aggregator on the same two runs: the [all] run comes
    first in its file. *)
Lemma graph_table_is_sorted (sqrt_fin : Qc -> Qc) :
  exists df,
    aggregate_graph_results_from_json sqrt_fin topk_then_all
    = Ok ({| printed := [InfoSaved];
             csv := Some [graph_row sqrt_fin all_metadata two_measurements;
                          graph_row sqrt_fin topk_metadata two_measurements] |},
          df).
Proof.
  eexists.
  rewrite (@graph_run_ok sqrt_fin topk_then_all []
             [graph_row sqrt_fin topk_metadata two_measurements;
              graph_row sqrt_fin all_metadata two_measurements]);
    [| discriminate | reflexivity | discriminate].
  cbn [length seq combine keep_last existsb snd key].
  rewrite !graph_row_key.
  reflexivity.
Qed.

(** C4.  The graph-level aggregator writes the last occurrence of every
    nine-parameter key, sorted ascending by (condition, alpha, seed) with
    missing values last, under a dense 0-based index.  The pair-level
    aggregator keeps the last occurrence of every key as well, but has no
    sort step: it writes the rows in processing order.  With a [topk] run
    found before an [all] run its file is [[topk; all]], which is not in
    ascending order, where the graph-level file is [[all; topk]]. *)
Theorem final_table_of_each_aggregator :
  forall sqrt_fin : Qc -> Qc,
    (forall json_files : list (string * document),
        json_files <> [] ->
        (forall printed0 all_rows,
            for_each (graph_body sqrt_fin) json_files ([], [])
            = Ok (printed0, all_rows) ->
            all_rows <> [] ->
            exists table df,
              aggregate_graph_results_from_json sqrt_fin json_files
              = Ok ({| printed := printed0 ++ [InfoSaved]; csv := Some table |}, df) /\
              deduplicated_and_sorted all_rows table /\
              (forall r, In r table <-> is_last_occurrence r all_rows) /\
              ForallOrdPairs (fun a b => key_same (key a) (key b) = false)
                (last_occurrences all_rows) /\
              map snd (data df) = table /\
              map fst (data df) = seq 0 (length table)) /\
        (forall printed0 all_runs_data,
            for_each pair_body json_files ([], []) = Ok (printed0, all_runs_data) ->
            all_runs_data <> [] ->
            aggregate_results_from_json json_files
            = Ok {| printed := printed0 ++ [InfoSaved];
                    csv := Some (last_occurrences all_runs_data) |} /\
            (forall r, In r (last_occurrences all_runs_data)
                       <-> is_last_occurrence r all_runs_data))) /\
    (exists (printed0 : list message) (all_runs_data table : list (row num)),
        for_each pair_body topk_then_all ([], []) = Ok (printed0, all_runs_data) /\
        aggregate_results_from_json topk_then_all
        = Ok {| printed := printed0 ++ [InfoSaved]; csv := Some table |} /\
        table = [pair_row topk_metadata two_measurements;
                 pair_row all_metadata two_measurements] /\
        ~ deduplicated_and_sorted all_runs_data table) /\
    (exists df,
        aggregate_graph_results_from_json sqrt_fin topk_then_all
        = Ok ({| printed := [InfoSaved];
                 csv := Some [graph_row sqrt_fin all_metadata two_measurements;
                              graph_row sqrt_fin topk_metadata two_measurements] |},
              df)).
Proof.
  intros sqrt_fin. split; [|split].
  - intros json_files Hne. split.
    + intros printed0 all_rows Hloop Hrows.
      set (kept := keep_last (combine (seq 0 (length all_rows)) all_rows)) in *.
      exists (map snd (stable_sort kept)).
      exists (reset_index {| columns := graph_columns; data := stable_sort kept |}).
      assert (Hperm : Permutation (map snd (stable_sort kept))
                        (last_occurrences all_rows)).
      { rewrite <- (keep_last_rows all_rows 0). fold kept.
        apply Permutation_map. apply stable_sort_perm. }
      split; [|split; [|split; [|split; [|split]]]].
      * now apply graph_run_ok.
      * split; [exact Hperm|].
        apply Sorted_map_snd. apply stable_sort_sorted.
      * intros r. rewrite <- last_occurrences_spec. split; intros Hin.
        -- exact (Permutation_in _ Hperm Hin).
        -- exact (Permutation_in _ (Permutation_sym Hperm) Hin).
      * apply last_occurrences_distinct.
      * apply reset_index_rows.
      * unfold reset_index. cbn [data].
        rewrite <- (length_map snd (stable_sort kept)).
        apply map_fst_combine_seq.
    + intros printed0 all_runs_data Hloop Hrows. split.
      * rewrite (pair_run_unfold Hne Hloop).
        destruct all_runs_data as [| r0 rs0] eqn:Hall; [congruence|].
        rewrite <- Hall. now rewrite keep_last_rows.
      * intros r. apply last_occurrences_spec.
  - destruct pair_table_is_not_sorted
      as [printed0 [all_runs_data [table [Hloop [Hrun Hnot]]]]].
    exists printed0, all_runs_data, table.
    split; [exact Hloop|]. split; [exact Hrun|]. split; [|exact Hnot].
    vm_compute in Hrun. inversion Hrun. vm_compute. reflexivity.
  - apply graph_table_is_sorted.
Qed.

Lemma final_table_of_each_aggregator_witness :
  (exists table df,
      aggregate_graph_results_from_json integer_sqrt topk_then_all
      = Ok ({| printed := [] ++ [InfoSaved]; csv := Some table |}, df) /\
      deduplicated_and_sorted
        [graph_row integer_sqrt topk_metadata two_measurements;
         graph_row integer_sqrt all_metadata two_measurements] table /\
      map fst (data df) = seq 0 (length table)) /\
  aggregate_results_from_json topk_then_all
  = Ok {| printed := [] ++ [InfoSaved];
          csv := Some (last_occurrences
                         [pair_row topk_metadata two_measurements;
                          pair_row all_metadata two_measurements]) |}.
Proof.
  destruct (final_table_of_each_aggregator integer_sqrt) as [Hall _].
  destruct (Hall topk_then_all) as [Hgraph Hpair]; [discriminate|].
  split.
  - destruct (Hgraph []
                [graph_row integer_sqrt topk_metadata two_measurements;
                 graph_row integer_sqrt all_metadata two_measurements])
      as [table [df [Hrun [Hspec [_ [_ [_ Hindex]]]]]]].
    + vm_compute; reflexivity.
    + discriminate.
    + exists table, df. repeat split; assumption || apply Hspec.
  - apply (Hpair []
             [pair_row topk_metadata two_measurements;
              pair_row all_metadata two_measurements]).
    + vm_compute; reflexivity.
    + discriminate.
Defined.

(** The scenario of the specification: two artifacts with the same key
    leave one row, that of the artifact processed last. *)
Example rerun_overwrites_earlier_row :
  aggregate_results_from_json
    [("old.json", all_document); ("new.json", all_document_rerun)]
  = Ok {| printed := [InfoSaved];
          csv := Some [pair_row all_metadata
                         [ {| mse := Some (of_nat 9);
                              test_samples := Some (of_nat 5) |} ]] |}.
Proof. vm_compute. reflexivity. Qed.

(** ** Malformed artifacts *)

(** A file that cannot be parsed raises out of the loop: the claim of the
    specification fails on it. *)
Lemma unparsable_artifact_aborts :
  ~ partial_failure_never_aborts integer_sqrt.
Proof.
  intros Hclaim.
  destruct (Hclaim "bad.json" Unparsable) as [Hgraph _].
  { left. reflexivity. }
  specialize (Hgraph [] [] []). discriminate.
Qed.

(** So does a file that holds a JSON value other than an object. *)
Lemma non_object_artifact_aborts (sqrt_fin : Qc -> Qc) (filepath : string)
    (printed : list message) (all_rows : list (row graph_stats))
    (all_runs_data : list (row num)) :
  graph_body sqrt_fin (printed, all_rows) (filepath, NotAnObject)
  = Raise AttributeError /\
  pair_body (printed, all_runs_data) (filepath, NotAnObject)
  = Raise AttributeError.
Proof. split; reflexivity. Qed.

Lemma for_each_raises_at (S A : Type) (body : S -> A -> result S)
    (before rest : list A) (x : A) (s : S) :
  (forall s', exists e, body s' x = Raise e) ->
  exists e, for_each body (before ++ x :: rest) s = Raise e.
Proof.
  intros Hx. revert s. induction before as [| y before IH]; intros s; simpl.
  - destruct (Hx s) as [e He]. exists e. now rewrite He.
  - destruct (body s y) as [s1 | e]; simpl; [apply IH | now exists e].
Qed.

(** The loop ends at the first file whose turn raises. *)
Lemma for_each_raises_first (S A : Type) (body : S -> A -> result S)
    (before rest : list A) (x : A) (s s' : S) (e : exn) :
  for_each body before s = Ok s' ->
  body s' x = Raise e ->
  for_each body (before ++ x :: rest) s = Raise e.
Proof.
  revert s. induction before as [| y before IH]; intros s; simpl.
  - intros Hs Hx. inversion Hs; subst s'. now rewrite Hx.
  - destruct (body s y) as [s1 | e1]; simpl; [apply IH | discriminate].
Qed.

(** C5, amended.  An artifact that parses to an object whose metadata
    object is absent or empty adds no row, prints a warning, and the loop
    goes on with the files that follow, in both aggregators; so does, in
    the graph-level aggregator, an artifact whose results member is not a
    list.  An artifact that cannot be parsed, or that parses to a value
    other than an object, raises out of either aggregator: with
    [JSONDecodeError], respectively [AttributeError], when no earlier file
    raised. *)
Theorem malformed_artifacts_are_skipped_or_raise :
  forall (sqrt_fin : Qc -> Qc) (filepath : string),
    (forall md rs,
        md = None \/ md = Some [] ->
        skipped_with_warning (graph_body sqrt_fin) (filepath, Parsed md rs) /\
        skipped_with_warning pair_body (filepath, Parsed md rs)) /\
    (forall md v,
        is_list v = false ->
        skipped_with_warning (graph_body sqrt_fin) (filepath, Parsed md (Some v))) /\
    (forall before rest doc e,
        doc = Unparsable /\ e = JSONDecodeError \/
        doc = NotAnObject /\ e = AttributeError ->
        (exists e',
            aggregate_graph_results_from_json sqrt_fin
              (before ++ (filepath, doc) :: rest) = Raise e') /\
        (exists e',
            aggregate_results_from_json (before ++ (filepath, doc) :: rest)
            = Raise e') /\
        (forall s,
            for_each (graph_body sqrt_fin) before ([], []) = Ok s ->
            aggregate_graph_results_from_json sqrt_fin
              (before ++ (filepath, doc) :: rest) = Raise e) /\
        (forall s,
            for_each pair_body before ([], []) = Ok s ->
            aggregate_results_from_json (before ++ (filepath, doc) :: rest)
            = Raise e)).
Proof.
  intros sqrt_fin filepath. split; [|split].
  - intros md rs Hmd. split; intros printed all_rows rest;
      destruct Hmd as [-> | ->]; reflexivity.
  - intros md v Hv printed all_rows rest.
    cbn [for_each]. unfold graph_body. cbn [json_load bind fst].
    destruct md as [d |].
    + destruct (negb (dict_truthy d)); [reflexivity|].
      destruct v; try reflexivity. discriminate.
    + reflexivity.
  - intros before rest doc e Hdoc.
    assert (Hne : before ++ (filepath, doc) :: rest <> [])
      by (destruct before; discriminate).
    assert (Hgraph : forall s, graph_body sqrt_fin s (filepath, doc) = Raise e).
    { intros [printed all_rows].
      destruct Hdoc as [[-> ->] | [-> ->]]; reflexivity. }
    assert (Hpair : forall s, pair_body s (filepath, doc) = Raise e).
    { intros [printed all_rows].
      destruct Hdoc as [[-> ->] | [-> ->]]; reflexivity. }
    split; [|split; [|split]].
    + destruct (for_each_raises_at (graph_body sqrt_fin) before rest
                  (filepath, doc) ([], [])) as [e' He'].
      { intros s. exists e. apply Hgraph. }
      exists e'. exact (graph_run_raises sqrt_fin Hne He').
    + destruct (for_each_raises_at pair_body before rest
                  (filepath, doc) ([], [])) as [e' He'].
      { intros s. exists e. apply Hpair. }
      exists e'. exact (pair_run_raises Hne He').
    + intros s Hs. apply (graph_run_raises sqrt_fin Hne).
      exact (@for_each_raises_first _ _ _ before rest _ _ _ _ Hs (Hgraph s)).
    + intros s Hs. apply (pair_run_raises Hne).
      exact (@for_each_raises_first _ _ _ before rest _ _ _ _ Hs (Hpair s)).
Qed.

(** In the pair-level aggregator a results member that is not a list is
    skipped when it is falsy and raises when it is truthy. *)
Lemma pair_body_non_list (filepath : string) (md : dict) (v : results_value)
    (printed : list message) (all_runs_data : list (row num)) :
  dict_truthy md = true ->
  is_list v = false ->
  pair_body (printed, all_runs_data) (filepath, Parsed (Some md) (Some v))
  = if results_truthy v
    then Raise (iterate_non_list v)
    else Ok (printed ++ [WarnInvalid filepath], all_runs_data).
Proof.
  intros Hmd Hv. unfold pair_body. cbn [json_load bind]. rewrite Hmd.
  cbn [negb orb].
  destruct v; try discriminate; destruct (results_truthy _); reflexivity.
Qed.

Lemma malformed_artifacts_are_skipped_or_raise_witness :
  skipped_with_warning (graph_body integer_sqrt) ("empty.json", empty_metadata_document) /\
  skipped_with_warning pair_body ("empty.json", empty_metadata_document) /\
  skipped_with_warning (graph_body integer_sqrt)
    ("empty.json", Parsed (Some topk_metadata) (Some (RString "none"))) /\
  aggregate_graph_results_from_json integer_sqrt
    ([("a.json", topk_document)] ++ ("empty.json", Unparsable) :: [("b.json", all_document)])
  = Raise JSONDecodeError /\
  aggregate_results_from_json
    ([("a.json", topk_document)] ++ ("empty.json", NotAnObject) :: [("b.json", all_document)])
  = Raise AttributeError.
Proof.
  destruct (malformed_artifacts_are_skipped_or_raise integer_sqrt "empty.json")
    as [Hmeta [Hlist Hraise]].
  destruct (Hmeta (Some []) (Some (RList two_measurements))) as [Hg Hp].
  { right. reflexivity. }
  split; [exact Hg|]. split; [exact Hp|]. split; [|split].
  - apply Hlist. reflexivity.
  - destruct (Hraise [("a.json", topk_document)] [("b.json", all_document)]
                Unparsable JSONDecodeError) as [_ [_ [Hfirst _]]].
    { left. split; reflexivity. }
    eapply Hfirst. reflexivity.
  - destruct (Hraise [("a.json", topk_document)] [("b.json", all_document)]
                NotAnObject AttributeError) as [_ [_ [_ Hfirst]]].
    { right. split; reflexivity. }
    eapply Hfirst. reflexivity.
Defined.

(** ** No valid row *)

(** Without any row the graph-level aggregator raises in [sort_values]. *)
Lemma graph_run_without_rows (sqrt_fin : Qc -> Qc)
    (json_files : list (string * document)) (printed0 : list message) :
  json_files <> [] ->
  for_each (graph_body sqrt_fin) json_files ([], []) = Ok (printed0, []) ->
  aggregate_graph_results_from_json sqrt_fin json_files = Raise KeyError.
Proof.
  intros Hne Hloop. now rewrite (graph_run_unfold sqrt_fin Hne Hloop).
Qed.

(** Without any row the pair-level aggregator reports it and writes no file. *)
Lemma pair_run_without_rows (json_files : list (string * document))
    (printed0 : list message) :
  json_files <> [] ->
  for_each pair_body json_files ([], []) = Ok (printed0, []) ->
  aggregate_results_from_json json_files
  = Ok {| printed := printed0 ++ [ErrNoData]; csv := None |}.
Proof.
  intros Hne Hloop. now rewrite (pair_run_unfold Hne Hloop).
Qed.

(** C7.  A root whose only artifact is invalid: the pair-level aggregator
    reports that nothing could be aggregated, writes no file, and the next
    root is processed; the graph-level aggregator raises [KeyError], and
    the loop over the roots ends there. *)
Theorem graph_aggregator_raises_without_rows :
  forall sqrt_fin : Qc -> Qc,
    aggregate_results_from_json only_invalid
    = Ok {| printed := [WarnInvalid "empty.json"; ErrNoData]; csv := None |} /\
    (exists out,
        pair_main [only_invalid; topk_then_all]
        = Ok [ {| printed := [WarnInvalid "empty.json"; ErrNoData]; csv := None |};
               out ]) /\
    aggregate_graph_results_from_json sqrt_fin only_invalid = Raise KeyError /\
    graph_main sqrt_fin [only_invalid; topk_then_all] = Raise KeyError.
Proof.
  intros sqrt_fin.
  assert (Hgraph : aggregate_graph_results_from_json sqrt_fin only_invalid
                   = Raise KeyError).
  { apply graph_run_without_rows with (printed0 := [WarnInvalid "empty.json"]);
      [discriminate | reflexivity]. }
  split; [reflexivity|]. split.
  - eexists. vm_compute. reflexivity.
  - split; [exact Hgraph|].
    unfold graph_main. cbn [for_each]. rewrite Hgraph. reflexivity.
Qed.

(** ** Alpha broadcast *)

Lemma nonempty_true (A : Type) (l : list A) : nonempty l = true <-> l <> [].
Proof.
  destruct l; unfold nonempty; simpl; split; intros H;
    try discriminate; try reflexivity.
  now contradiction H.
Qed.

Lemma nonempty_false (A : Type) (l : list A) : nonempty l = false <-> l = [].
Proof.
  destruct l; unfold nonempty; simpl; split; intros H;
    try discriminate; reflexivity.
Qed.

Lemma in_replicate (alphas : list num) (rows : list plot_row) (r : plot_row) :
  In r (replicate alphas rows)
  <-> exists a r', In a alphas /\ In r' rows /\ r = assign_alpha a r'.
Proof.
  unfold replicate. rewrite in_concat. split.
  - intros [l [Hl Hr]]. apply in_map_iff in Hl. destruct Hl as [a [<- Ha]].
    apply in_map_iff in Hr. destruct Hr as [r' [<- Hr']]. now exists a, r'.
  - intros [a [r' [Ha [Hr' ->]]]].
    exists (map (assign_alpha a) rows). split.
    + apply in_map_iff. now exists a.
    + now apply in_map.
Qed.

Lemma replicate_length (alphas : list num) (rows : list plot_row) :
  length (replicate alphas rows) = length rows * length alphas.
Proof.
  unfold replicate. induction alphas as [| a alphas IH]; simpl.
  - lia.
  - rewrite length_app, length_map, IH. lia.
Qed.

Lemma known_of_dependent (c : cell) :
  isin c ["topk"; "bottomk"] = true -> known_condition c = true.
Proof.
  unfold known_condition. destruct c as [| x | s]; simpl; try discriminate.
  destruct (String.eqb s "topk"), (String.eqb s "bottomk"); simpl;
    try discriminate; intros _; rewrite ?orb_true_r; reflexivity.
Qed.

Lemma known_of_independent (c : cell) :
  isin c ["random"; "all"] = true -> known_condition c = true.
Proof.
  unfold known_condition. destruct c as [| x | s]; simpl; try discriminate.
  destruct (String.eqb s "random"), (String.eqb s "all"); simpl;
    try discriminate; intros _; rewrite ?orb_true_r; reflexivity.
Qed.

(** Every row of the replicated table has one of the four conditions. *)
Lemma replicated_table_known (df : list plot_row) (alphas : list num)
    (r : plot_row) :
  In r (alpha_dependent_rows df ++ replicate alphas (alpha_independent_rows df)) ->
  known_condition (p_condition r) = true.
Proof.
  intros Hin. apply in_app_or in Hin. destruct Hin as [Hdep | Hrep].
  - apply filter_In in Hdep. now apply known_of_dependent.
  - apply in_replicate in Hrep. destruct Hrep as [a [r' [_ [Hr' ->]]]].
    apply filter_In in Hr'. now apply known_of_independent.
Qed.

(** The three branches of [_prepare_alpha_broadcast]. *)
Lemma broadcast_replicates (df : list plot_row) :
  selected_alphas df <> [] ->
  alpha_independent_rows df <> [] ->
  _prepare_alpha_broadcast df
  = (alpha_dependent_rows df
       ++ replicate (selected_alphas df) (alpha_independent_rows df),
     selected_alphas df).
Proof.
  intros HA Hindep. unfold _prepare_alpha_broadcast. fold (selected_alphas df).
  apply nonempty_true in HA. apply nonempty_true in Hindep.
  now rewrite HA, Hindep.
Qed.

Lemma broadcast_copies (df : list plot_row) :
  selected_alphas df <> [] ->
  alpha_independent_rows df = [] ->
  _prepare_alpha_broadcast df = (df, selected_alphas df).
Proof.
  intros HA Hindep. unfold _prepare_alpha_broadcast. fold (selected_alphas df).
  apply nonempty_true in HA. rewrite HA, Hindep. reflexivity.
Qed.

Lemma broadcast_dummy (df : list plot_row) :
  selected_alphas df = [] ->
  _prepare_alpha_broadcast df = (map (assign_alpha zero) df, [zero]).
Proof.
  intros HA. unfold _prepare_alpha_broadcast. fold (selected_alphas df).
  now rewrite HA.
Qed.

(** C10.  When at least one alpha value is selected and at least one
    alpha-independent row exists, a row of the input whose condition is
    none of all, topk, bottomk, random (a missing condition included) is
    not in the output of the broadcast, in the matplotlib script and in the
    seaborn script. *)
Theorem unknown_conditions_are_dropped :
  forall (df : list plot_row) (r : plot_row),
    In r df ->
    known_condition (p_condition r) = false ->
    alpha_independent_rows df <> [] ->
    (selected_alphas df <> [] -> ~ In r (fst (_prepare_alpha_broadcast df))) /\
    (alpha_values (alpha_dependent_rows df) <> [] ->
     ~ In r (fst (sns_broadcast df))).
Proof.
  intros df r _ Hunknown Hindep. split.
  - intros HA Hin. rewrite (broadcast_replicates df HA Hindep) in Hin.
    cbn [fst] in Hin. apply replicated_table_known in Hin. congruence.
  - intros HA Hin. unfold sns_broadcast in Hin.
    apply nonempty_true in HA. apply nonempty_true in Hindep.
    rewrite HA, Hindep in Hin. cbn [andb fst] in Hin.
    apply replicated_table_known in Hin. congruence.
Qed.

Lemma unknown_conditions_are_dropped_witness :
  ~ In (plot_row_of "SVR" (CNum NaN) NaN) (fst (_prepare_alpha_broadcast mixed_rows)) /\
  ~ In (plot_row_of "SVR" (CNum NaN) NaN) (fst (sns_broadcast mixed_rows)).
Proof.
  destruct (@unknown_conditions_are_dropped mixed_rows
              (plot_row_of "SVR" (CNum NaN) NaN)) as [Hplt Hsns].
  - right. right. right. left. reflexivity.
  - reflexivity.
  - intros H. vm_compute in H. discriminate.
  - split.
    + apply Hplt. intros H. vm_compute in H. discriminate.
    + apply Hsns. intros H. vm_compute in H. discriminate.
Defined.

(** *** The broadcast values *)

Lemma eqb_true_eq (x y : num) : eqb x y = true -> x = y.
Proof.
  destruct x, y; simpl; try discriminate; try reflexivity.
  intros H. apply Qc_eqb_eq in H. now subst.
Qed.

Lemma eqb_refl (x : num) : isnan x = false -> eqb x x = true.
Proof.
  destruct x; simpl; try discriminate; try reflexivity.
  intros _. now apply Qc_eqb_eq.
Qed.

Lemma unique_In (l : list num) (x : num) : In x (unique l) <-> In x l.
Proof.
  induction l as [| h l IH]; simpl; [reflexivity|].
  rewrite filter_In, IH. split.
  - intros [-> | [Hin _]]; [now left | now right].
  - intros [-> | Hin]; [now left|].
    destruct (eqb h x) eqn:Heq.
    + left. now apply eqb_true_eq.
    + right. now split.
Qed.

Lemma unique_NoDup (l : list num) :
  Forall (fun x => isnan x = false) l -> NoDup (unique l).
Proof.
  induction 1 as [| h l Hh _ IH]; simpl; constructor.
  - rewrite filter_In. intros [_ Hneq]. now rewrite (eqb_refl h Hh) in Hneq.
  - now apply NoDup_filter.
Qed.

Lemma insert_num_perm (x : num) (l : list num) :
  Permutation (insert_num x l) (x :: l).
Proof.
  induction l as [| y l IH]; simpl; [reflexivity|].
  destruct (leb x y); [reflexivity|].
  rewrite IH. apply perm_swap.
Qed.

Lemma sorted_perm (l : list num) : Permutation (sorted l) l.
Proof.
  induction l as [| x l IH]; simpl; [reflexivity|].
  rewrite insert_num_perm. now apply perm_skip.
Qed.

Lemma alpha_values_NoDup (rows : list plot_row) : NoDup (alpha_values rows).
Proof.
  unfold alpha_values.
  apply (Permutation_NoDup (Permutation_sym (sorted_perm _))).
  apply unique_NoDup. apply Forall_forall. intros x Hx.
  apply filter_In in Hx. destruct Hx as [_ Hx].
  now apply negb_true_iff in Hx.
Qed.

Lemma alpha_values_In (rows : list plot_row) (a : num) :
  In a (alpha_values rows)
  <-> isnan a = false /\ exists r, In r rows /\ p_alpha r = a.
Proof.
  unfold alpha_values, dropna. split.
  - intros Hin. apply (Permutation_in _ (sorted_perm _)) in Hin.
    apply unique_In, filter_In in Hin. destruct Hin as [Hin Hnan].
    apply negb_true_iff in Hnan. split; [exact Hnan|].
    apply in_map_iff in Hin. destruct Hin as [r [Hr Hin]]. now exists r.
  - intros [Hnan [r [Hr Ha]]].
    apply (Permutation_in _ (Permutation_sym (sorted_perm _))).
    apply unique_In, filter_In. split.
    + apply in_map_iff. now exists r.
    + now apply negb_true_iff.
Qed.

Lemma selected_alphas_NoDup (df : list plot_row) : NoDup (selected_alphas df).
Proof.
  unfold selected_alphas. destruct (nonempty _); apply alpha_values_NoDup.
Qed.

(** The broadcast of the specification is not what the code does: with
    [all] rows only, one row is generated although no alpha-dependent alpha
    exists ([k × m = 0]); without any alpha value, the dummy alpha also
    overwrites the alpha of the alpha-dependent rows. *)
Lemma broadcast_differs_from_specification :
  ~ broadcast_claim only_all_rows /\ ~ broadcast_claim no_alpha_rows.
Proof.
  split.
  - intros [_ Hcount]. vm_compute in Hcount. discriminate.
  - intros [Hperm _].
    assert (Hin : In (plot_row_of "SVR" (CStr "topk") NaN)
                    (broadcast_as_specified no_alpha_rows))
      by (left; reflexivity).
    apply (Permutation_in _ (Permutation_sym Hperm)) in Hin.
    destruct Hin as [H | [H | []]]; discriminate.
Qed.

(** C6, amended.  Let [A] be the distinct non-missing alpha values of the
    alpha-dependent rows, or of all rows when there are none.  With [A]
    non-empty and an alpha-independent row, the output is the
    alpha-dependent rows unchanged followed by one copy of every
    alpha-independent row per value of [A], alpha overwritten: [k × |A|]
    generated rows.  With [A] non-empty and no alpha-independent row the
    output is the input.  With [A] empty the output is the input with the
    alpha of every row set to the dummy value 0.  The seaborn script takes
    [A] from the alpha-dependent rows only and otherwise keeps the input. *)
Theorem alpha_broadcast_by_cases :
  forall df : list plot_row,
    let dep := alpha_dependent_rows df in
    let indep := alpha_independent_rows df in
    let A := selected_alphas df in
    NoDup A /\
    (alpha_values dep <> [] ->
     forall a, In a A <-> isnan a = false /\ exists r, In r dep /\ p_alpha r = a) /\
    (alpha_values dep = [] ->
     forall a, In a A <-> isnan a = false /\ exists r, In r df /\ p_alpha r = a) /\
    (A <> [] -> indep <> [] ->
     _prepare_alpha_broadcast df = (dep ++ replicate A indep, A) /\
     length (replicate A indep) = length indep * length A /\
     (forall r, In r (replicate A indep)
                <-> exists a r', In a A /\ In r' indep /\ r = assign_alpha a r')) /\
    (A <> [] -> indep = [] -> _prepare_alpha_broadcast df = (df, A)) /\
    (A = [] ->
     _prepare_alpha_broadcast df = (map (assign_alpha zero) df, [zero])) /\
    (alpha_values dep <> [] -> indep <> [] ->
     sns_broadcast df
     = (dep ++ replicate (alpha_values dep) indep, alpha_values dep)) /\
    (alpha_values dep = [] \/ indep = [] ->
     sns_broadcast df = (df, alpha_values dep)).
Proof.
  intros df dep indep A.
  split; [apply selected_alphas_NoDup|].
  split.
  { intros Hdep a. subst A. unfold selected_alphas. fold dep.
    apply nonempty_true in Hdep. rewrite Hdep. apply alpha_values_In. }
  split.
  { intros Hdep a. subst A. unfold selected_alphas. fold dep.
    rewrite Hdep. cbn [nonempty length Nat.eqb negb]. apply alpha_values_In. }
  split.
  { intros HA Hindep. split; [now apply broadcast_replicates|].
    split; [apply replicate_length | intros r; apply in_replicate]. }
  split; [now apply broadcast_copies|].
  split; [now apply broadcast_dummy|].
  split.
  - intros Hdep Hindep. unfold sns_broadcast. fold dep indep.
    apply nonempty_true in Hdep. apply nonempty_true in Hindep.
    now rewrite Hdep, Hindep.
  - intros Hempty. unfold sns_broadcast. fold dep indep.
    destruct Hempty as [Hdep | Hindep].
    + now rewrite Hdep.
    + rewrite Hindep. cbn [nonempty length Nat.eqb negb].
      now rewrite andb_false_r.
Qed.

Lemma alpha_broadcast_by_cases_witness :
  _prepare_alpha_broadcast mixed_rows
  = (alpha_dependent_rows mixed_rows
       ++ replicate (selected_alphas mixed_rows) (alpha_independent_rows mixed_rows),
     selected_alphas mixed_rows) /\
  length (replicate (selected_alphas mixed_rows) (alpha_independent_rows mixed_rows))
  = 1 * 2 /\
  _prepare_alpha_broadcast no_alpha_rows
  = (map (assign_alpha zero) no_alpha_rows, [zero]).
Proof.
  destruct (alpha_broadcast_by_cases mixed_rows)
    as [_ [_ [_ [Hrep _]]]].
  destruct (alpha_broadcast_by_cases no_alpha_rows)
    as [_ [_ [_ [_ [_ [Hdummy _]]]]]].
  destruct Hrep as [Hout [Hlen _]].
  - intros H. vm_compute in H. discriminate.
  - intros H. vm_compute in H. discriminate.
  - split; [exact Hout|]. split.
    + rewrite Hlen. vm_compute. reflexivity.
    + apply Hdummy. vm_compute. reflexivity.
Defined.

(** ** Loading summary tables *)

(** [plot_pair_summaries] skips a table without [overall_mse] with a
    warning, and takes the square root of the column otherwise. *)
Lemma pair_load_without_column (sqrt_fin : Qc -> Qc) (t : table) (model : string)
    (printed : list plot_message) (dfs : list (list plot_row)) :
  has_column t "overall_mse" = false ->
  pair_load sqrt_fin (printed, dfs) (model, Some t)
  = (printed ++ [WarnSkip model], dfs).
Proof. intros H. unfold pair_load. now rewrite H. Qed.

Lemma pair_load_with_column (sqrt_fin : Qc -> Qc) (t : table) (model : string)
    (printed : list plot_message) (dfs : list (list plot_row)) :
  has_column t "overall_mse" = true ->
  exists rows,
    pair_load sqrt_fin (printed, dfs) (model, Some t) = (printed, dfs ++ [rows]) /\
    Forall2 (fun r p => p_overall_rmse p
                        = np_sqrt sqrt_fin (lookup_metric (s_metrics r) "overall_mse"))
      (t_rows t) rows.
Proof.
  intros H. unfold pair_load. rewrite H. cbn [negb].
  eexists. split; [reflexivity|].
  induction (t_rows t) as [| r rs IH]; simpl; constructor; [|exact IH].
  unfold metric_of. now rewrite H.
Qed.

(** [plot_graph_summaries] skips a table with neither [rmse_mean] nor
    [mse_mean], and takes the square root of [mse_mean] when that is the
    only column. *)
Lemma graph_load_without_columns (sqrt_fin : Qc -> Qc) (t : table) (model : string)
    (printed : list plot_message) (dfs : list (list plot_row)) :
  has_column t "rmse_mean" = false ->
  has_column t "mse_mean" = false ->
  graph_load sqrt_fin (printed, dfs) (model, Some t)
  = (printed ++ [WarnSkip model], dfs).
Proof. intros H1 H2. unfold graph_load. now rewrite H1, H2. Qed.

Lemma graph_load_mse_only (sqrt_fin : Qc -> Qc) (t : table) (model : string)
    (printed : list plot_message) (dfs : list (list plot_row)) :
  has_column t "rmse_mean" = false ->
  has_column t "mse_mean" = true ->
  any_notna t "mse_mean" = true ->
  exists rows,
    graph_load sqrt_fin (printed, dfs) (model, Some t) = (printed, dfs ++ [rows]) /\
    Forall2 (fun r p => p_overall_rmse p
                        = np_sqrt sqrt_fin (lookup_metric (s_metrics r) "mse_mean"))
      (t_rows t) rows.
Proof.
  intros H1 H2 H3. unfold graph_load. rewrite H1, H2, H3. cbn [andb].
  eexists. split; [reflexivity|].
  induction (t_rows t) as [| r rs IH]; simpl; constructor; [|exact IH].
  unfold metric_of. now rewrite H2.
Qed.

(** C9.  Given a summary file without [overall_mse], [plot_pair_summaries]
    prints the warning and goes on, but [plot_all_summaries] (seaborn)
    raises [KeyError]; given it next to a pair-level file, the seaborn
    script keeps its rows (here broadcast to alpha 50), with a nan rmse,
    and prints nothing. *)
Theorem seaborn_script_raises_without_overall_mse :
  forall sqrt_fin : Qc -> Qc,
    plot_pair_summaries sqrt_fin [("SVR", Some graph_table)]
    = ([WarnSkip "SVR"; ErrNoSummary], None) /\
    plot_all_summaries sqrt_fin [("SVR", Some graph_table)] = Raise KeyError /\
    fst (plot_pair_summaries sqrt_fin
           [("SVR", Some pair_table); ("RF", Some graph_table)])
    = [WarnSkip "RF"] /\
    exists final_df alphas,
      plot_all_summaries sqrt_fin
        [("SVR", Some pair_table); ("RF", Some graph_table)]
      = Ok ([], Some (final_df, alphas)) /\
      In {| p_model := "RF"; p_condition := CStr "all"; p_alpha := of_nat 50;
            p_overall_rmse := NaN; p_metrics := [("mse_mean", of_nat 9)] |}
         final_df.
Proof.
  intros sqrt_fin.
  split; [reflexivity|]. split; [reflexivity|]. split; [reflexivity|].
  eexists. eexists. split; [reflexivity|].
  right. left. reflexivity.
Qed.

(** * Further properties of the aggregators *)

(** ** Every file is accounted for *)

Lemma for_each_app (S A : Type) (body : S -> A -> result S) (xs ys : list A) (s : S) :
  for_each body (xs ++ ys) s = (s' <- for_each body xs s ;; for_each body ys s').
Proof.
  revert s. induction xs as [| x xs IH]; intros s; simpl; [reflexivity|].
  destruct (body s x); simpl; [apply IH | reflexivity].
Qed.

Lemma graph_body_counts (sqrt_fin : Qc -> Qc)
    (s s' : list message * list (row graph_stats)) (f : string * document) :
  graph_body sqrt_fin s f = Ok s' ->
  if graph_valid (snd f)
  then fst s' = fst s /\ exists r, snd s' = snd s ++ [r]
  else fst s' = fst s ++ [WarnInvalid (fst f)] /\ snd s' = snd s.
Proof.
  destruct s as [printed all_rows], f as [filepath doc].
  unfold graph_body, graph_valid. cbn [fst snd].
  destruct (json_load doc) as [[metadata results] | e]; [|discriminate].
  cbn [bind]. destruct (dict_truthy metadata); cbn [negb].
  - destruct results; intros H; inversion H; subst; cbn [fst snd];
      try (split; reflexivity).
    split; [reflexivity | eexists; reflexivity].
  - intros H; inversion H; subst.
    destruct results; split; reflexivity.
Qed.

Lemma graph_loop_counts (sqrt_fin : Qc -> Qc) (files : list (string * document))
    (s s' : list message * list (row graph_stats)) :
  for_each (graph_body sqrt_fin) files s = Ok s' ->
  length (snd s')
  = length (snd s) + length (filter (fun f => graph_valid (snd f)) files) /\
  fst s' = fst s ++ map (fun f => WarnInvalid (fst f))
                      (filter (fun f => negb (graph_valid (snd f))) files).
Proof.
  revert s s'. induction files as [| f files IH]; intros s s' Hrun; simpl in Hrun.
  - inversion Hrun; subst. simpl. split; [lia | now rewrite app_nil_r].
  - destruct (graph_body sqrt_fin s f) as [s1 | e] eqn:Hbody; [|discriminate].
    cbn [bind] in Hrun. destruct (IH s1 s' Hrun) as [Hlen Hprinted].
    pose proof (graph_body_counts _ _ _ Hbody) as Hstep.
    cbn [filter]. destruct (graph_valid (snd f)); cbn [negb].
    + destruct Hstep as [Hfst [r Hsnd]]. rewrite Hsnd, length_app in Hlen.
      rewrite Hfst in Hprinted. split; [simpl in *; lia | exact Hprinted].
    + destruct Hstep as [Hfst Hsnd]. rewrite Hsnd in Hlen.
      rewrite Hfst, <- app_assoc in Hprinted. split; assumption.
Qed.

Lemma filter_length_split (A : Type) (f : A -> bool) (l : list A) :
  length (filter f l) + length (filter (fun x => negb (f x)) l) = length l.
Proof.
  induction l as [| x l IH]; simpl; [reflexivity|].
  destruct (f x); simpl; lia.
Qed.

Lemma pair_body_counts
    (s s' : list message * list (row num)) (f : string * document) :
  pair_body s f = Ok s' ->
  if pair_valid (snd f)
  then fst s' = fst s /\ exists r, snd s' = snd s ++ [r]
  else fst s' = fst s ++ [WarnInvalid (fst f)] /\ snd s' = snd s.
Proof.
  destruct s as [printed all_rows], f as [filepath doc].
  unfold pair_body, pair_valid. cbn [fst snd].
  destruct (json_load doc) as [[metadata results] | e]; [|discriminate].
  cbn [bind]. destruct (dict_truthy metadata); cbn [negb orb andb].
  - destruct results as [rs | | b | v | t | d].
    + unfold nonempty_results. cbn [results_truthy].
      destruct (length rs =? 0); cbn [negb]; intros H; inversion H; subst;
        cbn [fst snd].
      * split; reflexivity.
      * split; [reflexivity | eexists; reflexivity].
    + intros H; inversion H; subst; split; reflexivity.
    + destruct b; cbn [results_truthy negb]; intros H; inversion H; subst;
        split; reflexivity.
    + destruct (results_truthy (RNumber v)); cbn [negb]; intros H; inversion H;
        subst; split; reflexivity.
    + destruct (results_truthy (RString t)); cbn [negb]; intros H; inversion H;
        subst; split; reflexivity.
    + destruct (results_truthy (RObject d)); cbn [negb]; intros H; inversion H;
        subst; split; reflexivity.
  - intros H; inversion H; subst.
    destruct results; split; reflexivity.
Qed.

Lemma pair_loop_counts (files : list (string * document))
    (s s' : list message * list (row num)) :
  for_each pair_body files s = Ok s' ->
  length (snd s')
  = length (snd s) + length (filter (fun f => pair_valid (snd f)) files) /\
  fst s' = fst s ++ map (fun f => WarnInvalid (fst f))
                      (filter (fun f => negb (pair_valid (snd f))) files).
Proof.
  revert s s'. induction files as [| f files IH]; intros s s' Hrun; simpl in Hrun.
  - inversion Hrun; subst. simpl. split; [lia | now rewrite app_nil_r].
  - destruct (pair_body s f) as [s1 | e] eqn:Hbody; [|discriminate].
    cbn [bind] in Hrun. destruct (IH s1 s' Hrun) as [Hlen Hprinted].
    pose proof (pair_body_counts _ _ Hbody) as Hstep.
    cbn [filter]. destruct (pair_valid (snd f)); cbn [negb].
    + destruct Hstep as [Hfst [r Hsnd]]. rewrite Hsnd, length_app in Hlen.
      rewrite Hfst in Hprinted. split; [simpl in *; lia | exact Hprinted].
    + destruct Hstep as [Hfst Hsnd]. rewrite Hsnd in Hlen.
      rewrite Hfst, <- app_assoc in Hprinted. split; assumption.
Qed.

(** X1.  When the loop of an aggregator ends normally, every file has
    given either one row or one warning naming it: the rows are as many as
    the valid files, the warnings are those of the other files, in
    discovery order. *)
Theorem loops_account_for_every_file :
  forall (sqrt_fin : Qc -> Qc) (json_files : list (string * document)),
    (forall printed0 all_rows,
        for_each (graph_body sqrt_fin) json_files ([], []) = Ok (printed0, all_rows) ->
        length all_rows = length (filter (fun f => graph_valid (snd f)) json_files) /\
        printed0 = map (fun f => WarnInvalid (fst f))
                     (filter (fun f => negb (graph_valid (snd f))) json_files) /\
        length all_rows + length printed0 = length json_files) /\
    (forall printed0 all_runs_data,
        for_each pair_body json_files ([], []) = Ok (printed0, all_runs_data) ->
        length all_runs_data
        = length (filter (fun f => pair_valid (snd f)) json_files) /\
        printed0 = map (fun f => WarnInvalid (fst f))
                     (filter (fun f => negb (pair_valid (snd f))) json_files) /\
        length all_runs_data + length printed0 = length json_files).
Proof.
  intros sqrt_fin json_files. split.
  - intros printed0 all_rows Hloop.
    destruct (graph_loop_counts _ _ _ Hloop) as [Hlen Hprinted].
    cbn [fst snd length app] in Hlen, Hprinted.
    split; [exact Hlen|]. split; [exact Hprinted|].
    rewrite Hlen, Hprinted, length_map.
    apply (filter_length_split (fun f => graph_valid (snd f))).
  - intros printed0 all_runs_data Hloop.
    destruct (pair_loop_counts _ _ Hloop) as [Hlen Hprinted].
    cbn [fst snd length app] in Hlen, Hprinted.
    split; [exact Hlen|]. split; [exact Hprinted|].
    rewrite Hlen, Hprinted, length_map.
    apply (filter_length_split (fun f => pair_valid (snd f))).
Qed.

Lemma loops_account_for_every_file_witness :
  length [graph_row integer_sqrt all_metadata two_measurements]
  = length (filter (fun f => graph_valid (snd f))
              (only_invalid ++ [("b.json", all_document)])) /\
  [WarnInvalid "empty.json"]
  = map (fun f => WarnInvalid (fst f))
      (filter (fun f => negb (graph_valid (snd f)))
         (only_invalid ++ [("b.json", all_document)])) /\
  length [graph_row integer_sqrt all_metadata two_measurements]
  + length [WarnInvalid "empty.json"]
  = length (only_invalid ++ [("b.json", all_document)]).
Proof.
  destruct (loops_account_for_every_file integer_sqrt
              (only_invalid ++ [("b.json", all_document)])) as [Hgraph _].
  apply Hgraph. vm_compute. reflexivity.
Defined.

(** ** The written table is never empty *)

Lemma pair_loop_length (files : list (string * document))
    (s s' : list message * list (row num)) :
  for_each pair_body files s = Ok s' ->
  length (snd s') <= length (snd s) + length files.
Proof.
  revert s s'. induction files as [| f files IH]; intros s s' Hrun; simpl in Hrun.
  - inversion Hrun; subst. lia.
  - destruct (pair_body s f) as [s1 | e] eqn:Hbody; [|discriminate].
    cbn [bind] in Hrun. specialize (IH s1 s' Hrun).
    assert (Hstep : length (snd s1) <= S (length (snd s))).
    { destruct s as [printed all_rows], f as [filepath doc].
      unfold pair_body in Hbody.
      destruct (json_load doc) as [[metadata results] | e]; [|discriminate].
      cbn [bind] in Hbody.
      destruct (negb (dict_truthy metadata) || negb (results_truthy results)).
      - inversion Hbody; subst. simpl. lia.
      - destruct results; inversion Hbody; subst. cbn [snd].
        rewrite length_app. simpl. lia. }
    simpl. lia.
Qed.

Lemma last_occurrences_length (S : Type) (rows : list (row S)) :
  length (last_occurrences rows) <= length rows.
Proof.
  induction rows as [| r rows IH]; simpl; [lia|].
  destruct (existsb _ rows); simpl; lia.
Qed.

Lemma last_occurrences_nonempty (S : Type) (rows : list (row S)) :
  rows <> [] -> last_occurrences rows <> [].
Proof.
  induction rows as [| r rows IH]; [congruence|]. intros _. simpl.
  destruct (existsb _ rows) eqn:Hex; [|discriminate].
  apply IH. destruct rows; [discriminate | discriminate].
Qed.

(** X2.  A file written by either aggregator holds at least one row and
    at most one row per discovered artifact. *)
Theorem written_table_is_never_empty :
  forall (sqrt_fin : Qc -> Qc) (json_files : list (string * document)),
    (forall out df table,
        aggregate_graph_results_from_json sqrt_fin json_files = Ok (out, df) ->
        csv out = Some table ->
        table <> [] /\ length table <= length json_files) /\
    (forall out table,
        aggregate_results_from_json json_files = Ok out ->
        csv out = Some table ->
        table <> [] /\ length table <= length json_files).
Proof.
  intros sqrt_fin json_files. split.
  - intros out df table Hrun Hcsv.
    destruct (list_eq_dec_nil json_files) as [Hnil | Hne].
    { subst json_files. inversion Hrun; subst. discriminate. }
    destruct (for_each (graph_body sqrt_fin) json_files ([], []))
      as [[printed0 all_rows] | e] eqn:Hloop.
    + rewrite (graph_run_unfold sqrt_fin Hne Hloop) in Hrun.
      destruct (list_eq_dec_nil all_rows) as [Hnil | Hrows].
      { subst all_rows. discriminate. }
      assert (Hmatch : forall (X : Type) (a b : X),
                 match all_rows with [] => a | _ :: _ => b end = b)
        by (intros X a b; destruct all_rows; [congruence | reflexivity]).
      rewrite Hmatch in Hrun. cbv zeta in Hrun.
      inversion Hrun; subst out df. cbn [csv] in Hcsv. inversion Hcsv; subst table.
      unfold to_csv. rewrite reset_index_rows.
      assert (Hperm : Permutation
                        (map snd (stable_sort
                           (keep_last (combine (seq 0 (length all_rows)) all_rows))))
                        (last_occurrences all_rows)).
      { rewrite <- (keep_last_rows all_rows 0).
        apply Permutation_map, stable_sort_perm. }
      split.
      * intros Hempty. rewrite Hempty in Hperm.
        apply Permutation_nil in Hperm.
        now apply (last_occurrences_nonempty Hrows).
      * rewrite (Permutation_length Hperm).
        pose proof (last_occurrences_length all_rows).
        destruct (graph_loop_counts _ _ _ Hloop) as [Hlen _].
        assert (Hvalid : length all_rows
                         = length (filter (fun f => graph_valid (snd f)) json_files))
          by exact Hlen.
        pose proof (filter_length_split (fun f => graph_valid (snd f)) json_files)
          as Hsplit.
        rewrite <- Hvalid in Hsplit. lia.
    + rewrite (graph_run_raises sqrt_fin Hne Hloop) in Hrun. discriminate.
  - intros out table Hrun Hcsv.
    destruct (list_eq_dec_nil json_files) as [Hnil | Hne].
    { subst json_files. inversion Hrun; subst. discriminate. }
    destruct (for_each pair_body json_files ([], []))
      as [[printed0 all_rows] | e] eqn:Hloop.
    + rewrite (pair_run_unfold Hne Hloop) in Hrun.
      destruct all_rows as [| r0 rs0] eqn:Hrows.
      { inversion Hrun; subst. discriminate. }
      rewrite <- Hrows in *.
      inversion Hrun; subst out. cbn [csv] in Hcsv. inversion Hcsv; subst table.
      rewrite keep_last_rows. split.
      * apply last_occurrences_nonempty. rewrite Hrows. discriminate.
      * pose proof (last_occurrences_length all_rows).
        pose proof (pair_loop_length _ _ Hloop) as Hlen.
        change (length all_rows <= length json_files) in Hlen. lia.
    + rewrite (pair_run_raises Hne Hloop) in Hrun. discriminate.
Qed.

Lemma written_table_is_never_empty_witness :
  ([graph_row integer_sqrt all_metadata two_measurements] <> [] /\
   length [graph_row integer_sqrt all_metadata two_measurements]
   <= length [("all.json", all_document)]) /\
  ([pair_row all_metadata two_measurements] <> [] /\
   length [pair_row all_metadata two_measurements]
   <= length [("all.json", all_document)]).
Proof.
  destruct (written_table_is_never_empty integer_sqrt [("all.json", all_document)])
    as [Hgraph Hpair].
  split.
  - apply (Hgraph
             {| printed := [InfoSaved];
                csv := Some [graph_row integer_sqrt all_metadata two_measurements] |}
             {| columns := graph_columns;
                data := [(0, graph_row integer_sqrt all_metadata two_measurements)] |});
      vm_compute; reflexivity.
  - apply (Hpair
             {| printed := [InfoSaved];
                csv := Some [pair_row all_metadata two_measurements] |});
      vm_compute; reflexivity.
Defined.

(** ** When the graph-level statistics are defined *)

Lemma sample_mean_nan (pop : list Qc) :
  isnan (sample_mean pop) = true <-> length pop = 0.
Proof. destruct pop; simpl; split; intros H; congruence || discriminate. Qed.

Lemma sample_std_nan (sqrt_fin : Qc -> Qc) (pop : list Qc) :
  isnan (sample_std sqrt_fin pop) = true <-> length pop < 2.
Proof.
  unfold sample_std. destruct (length pop <? 2) eqn:Hn.
  - apply Nat.ltb_lt in Hn. split; [intros _; exact Hn | reflexivity].
  - apply Nat.ltb_ge in Hn. simpl. split; [discriminate | lia].
Qed.

Lemma retained_mse_length (rs : list measurement) :
  length (retained_mse rs) = length (filter has_finite_mse rs).
Proof.
  unfold retained_mse, has_finite_mse.
  induction rs as [| r rs IH]; simpl; [reflexivity|].
  destruct (mse r) as [[q | | |] |]; simpl; now rewrite IH.
Qed.

Lemma filter_length_le_all (A : Type) (f : A -> bool) (l : list A) :
  length (filter f l) <= length l /\
  (length (filter f l) = length l <-> forallb f l = true).
Proof.
  induction l as [| x l [IHle IHeq]]; simpl; [split; [lia | tauto]|].
  destruct (f x); simpl.
  - split; [lia|]. rewrite <- IHeq. split; lia.
  - split; [lia|]. split; [lia | discriminate].
Qed.

(** X3.  In a graph-level row the mean of the mse values is nan exactly
    when no finite mse was kept, and the standard deviation is nan exactly
    when fewer than two were kept; the same holds for the rmse statistics
    and the kept non-negative values.  [n_targets_used] is at most the
    number of measurements, with equality exactly when every measurement
    has a finite mse, and the rmse values are at most [n_targets_used]. *)
Theorem graph_statistics_are_defined_with_enough_values :
  forall (sqrt_fin : Qc -> Qc) (metadata : dict) (results : list measurement),
    let s := stats (graph_row sqrt_fin metadata results) in
    let n_rmse := length (rmse_population sqrt_fin results) in
    (isnan (mse_mean s) = true <-> n_targets_used s = 0) /\
    (isnan (mse_std s) = true <-> n_targets_used s < 2) /\
    (isnan (rmse_mean s) = true <-> n_rmse = 0) /\
    (isnan (rmse_std s) = true <-> n_rmse < 2) /\
    n_rmse <= n_targets_used s /\
    n_targets_used s <= length results /\
    (n_targets_used s = length results <-> forallb has_finite_mse results = true).
Proof.
  intros sqrt_fin metadata results s n_rmse. subst s n_rmse.
  rewrite graph_row_stats.
  cbn [mse_mean mse_std rmse_mean rmse_std n_targets_used].
  split; [apply sample_mean_nan|]. split; [apply sample_std_nan|].
  split; [apply sample_mean_nan|]. split; [apply sample_std_nan|].
  split.
  - unfold rmse_population. rewrite length_map.
    apply (filter_length_le_all (fun q => Qc_leb 0 q)).
  - rewrite retained_mse_length. apply filter_length_le_all.
Qed.

(** ** The artifact processed last *)

Lemma last_row_survives (S : Type) (rows : list (row S)) (r : row S) :
  In r (last_occurrences (rows ++ [r])) /\
  forall r', In r' (last_occurrences (rows ++ [r])) ->
             key_same (key r') (key r) = true -> r' = r.
Proof.
  split.
  - apply last_occurrences_spec. exists rows, []. split; [reflexivity | constructor].
  - intros r' Hin Hsame. apply last_occurrences_spec in Hin.
    destruct Hin as [before [after [Heq Hafter]]].
    destruct (list_eq_dec_nil after) as [-> | Hafter_ne].
    + apply app_inj_tail in Heq. now destruct Heq.
    + destruct (exists_last Hafter_ne) as [after' [z Hz]].
      subst after. rewrite app_comm_cons, app_assoc in Heq.
      apply app_inj_tail in Heq. destruct Heq as [_ ->].
      rewrite Forall_forall in Hafter.
      rewrite (Hafter z) in Hsame; [discriminate|].
      apply in_or_app. right. now left.
Qed.

Lemma graph_body_valid (sqrt_fin : Qc -> Qc) (filepath : string) (doc : document)
    (metadata : dict) (rs : list measurement) (printed : list message)
    (all_rows : list (row graph_stats)) :
  json_load doc = Ok (metadata, RList rs) ->
  dict_truthy metadata = true ->
  graph_body sqrt_fin (printed, all_rows) (filepath, doc)
  = Ok (printed, all_rows ++ [graph_row sqrt_fin metadata rs]).
Proof.
  intros Hload Hmd. unfold graph_body. rewrite Hload. cbn [bind].
  now rewrite Hmd.
Qed.

Lemma graph_loop_valid_last (sqrt_fin : Qc -> Qc)
    (earlier : list (string * document)) (filepath : string) (doc : document)
    (metadata : dict) (rs : list measurement)
    (printed0 : list message) (all_rows : list (row graph_stats)) :
  json_load doc = Ok (metadata, RList rs) ->
  dict_truthy metadata = true ->
  for_each (graph_body sqrt_fin) (earlier ++ [(filepath, doc)]) ([], [])
  = Ok (printed0, all_rows) ->
  exists rows1, all_rows = rows1 ++ [graph_row sqrt_fin metadata rs].
Proof.
  intros Hload Hmd Hloop. rewrite for_each_app in Hloop.
  destruct (for_each (graph_body sqrt_fin) earlier ([], []))
    as [[printed1 rows1] | e]; [|discriminate].
  cbn [bind for_each] in Hloop.
  rewrite (graph_body_valid sqrt_fin filepath doc printed1 rows1 Hload Hmd) in Hloop.
  cbn [bind] in Hloop. inversion Hloop. now exists rows1.
Qed.

Lemma pair_loop_valid_last
    (earlier : list (string * document)) (filepath : string) (doc : document)
    (metadata : dict) (rs : list measurement)
    (printed0 : list message) (all_runs_data : list (row num)) :
  json_load doc = Ok (metadata, RList rs) ->
  dict_truthy metadata = true ->
  rs <> [] ->
  for_each pair_body (earlier ++ [(filepath, doc)]) ([], [])
  = Ok (printed0, all_runs_data) ->
  exists rows1, all_runs_data = rows1 ++ [pair_row metadata rs].
Proof.
  intros Hload Hmd Hrs Hloop. rewrite for_each_app in Hloop.
  destruct (for_each pair_body earlier ([], []))
    as [[printed1 rows1] | e]; [|discriminate].
  cbn [bind for_each] in Hloop.
  rewrite (pair_body_valid filepath doc printed1 rows1 Hload Hmd Hrs) in Hloop.
  cbn [bind] in Hloop. inversion Hloop. now exists rows1.
Qed.

(** X7.  When an aggregator writes its file and the artifact processed
    last is valid, the row of that artifact is in the file, and it is the
    only row of the file with its key. *)
Theorem last_artifact_is_in_the_table :
  forall (sqrt_fin : Qc -> Qc) (earlier : list (string * document))
         (filepath : string) (doc : document)
         (metadata : dict) (rs : list measurement),
    json_load doc = Ok (metadata, RList rs) ->
    dict_truthy metadata = true ->
    (forall out df,
        aggregate_graph_results_from_json sqrt_fin (earlier ++ [(filepath, doc)])
        = Ok (out, df) ->
        exists table,
          csv out = Some table /\
          In (graph_row sqrt_fin metadata rs) table /\
          forall r', In r' table ->
                     key_same (key r') (key (graph_row sqrt_fin metadata rs)) = true ->
                     r' = graph_row sqrt_fin metadata rs) /\
    (rs <> [] ->
     forall out,
       aggregate_results_from_json (earlier ++ [(filepath, doc)]) = Ok out ->
       exists table,
         csv out = Some table /\
         In (pair_row metadata rs) table /\
         forall r', In r' table ->
                    key_same (key r') (key (pair_row metadata rs)) = true ->
                    r' = pair_row metadata rs).
Proof.
  intros sqrt_fin earlier filepath doc metadata rs Hload Hmd.
  assert (Hne : earlier ++ [(filepath, doc)] <> [])
    by (destruct earlier; discriminate).
  split.
  - intros out df Hrun.
    destruct (for_each (graph_body sqrt_fin) (earlier ++ [(filepath, doc)]) ([], []))
      as [[printed0 all_rows] | e] eqn:Hloop;
      [| rewrite (graph_run_raises sqrt_fin Hne Hloop) in Hrun; discriminate].
    destruct (@graph_loop_valid_last sqrt_fin earlier filepath doc metadata rs
                printed0 all_rows Hload Hmd Hloop) as [rows1 Hall].
    rewrite (graph_run_unfold sqrt_fin Hne Hloop) in Hrun.
    set (r := graph_row sqrt_fin metadata rs) in *.
    assert (Hmatch : forall (X : Type) (a b : X),
               match all_rows with [] => a | _ :: _ => b end = b)
      by (intros X a b; subst all_rows; destruct rows1; reflexivity).
    rewrite Hmatch in Hrun. cbv zeta in Hrun.
    inversion Hrun; subst out df. cbn [csv]. eexists. split; [reflexivity|].
    unfold to_csv. rewrite reset_index_rows.
    assert (Hperm : Permutation
                      (map snd (stable_sort
                         (keep_last (combine (seq 0 (length all_rows)) all_rows))))
                      (last_occurrences (rows1 ++ [r]))).
    { rewrite <- Hall, <- (keep_last_rows all_rows 0).
      apply Permutation_map, stable_sort_perm. }
    destruct (last_row_survives rows1 r) as [Hin Honly]. split.
    + exact (Permutation_in _ (Permutation_sym Hperm) Hin).
    + intros r' Hr'. apply Honly. exact (Permutation_in _ Hperm Hr').
  - intros Hrs out Hrun.
    destruct (for_each pair_body (earlier ++ [(filepath, doc)]) ([], []))
      as [[printed0 all_rows] | e] eqn:Hloop;
      [| rewrite (pair_run_raises Hne Hloop) in Hrun; discriminate].
    destruct (@pair_loop_valid_last earlier filepath doc metadata rs
                printed0 all_rows Hload Hmd Hrs Hloop) as [rows1 Hall].
    rewrite (pair_run_unfold Hne Hloop) in Hrun.
    assert (Hmatch : forall (X : Type) (a b : X),
               match all_rows with [] => a | _ :: _ => b end = b)
      by (intros X a b; subst all_rows; destruct rows1; reflexivity).
    rewrite Hmatch in Hrun. inversion Hrun; subst out. cbn [csv].
    eexists. split; [reflexivity|].
    rewrite keep_last_rows, Hall. apply last_row_survives.
Qed.

Lemma last_artifact_is_in_the_table_witness :
  exists table,
    Some (last_occurrences [pair_row all_metadata two_measurements;
                            pair_row all_metadata
                              [ {| mse := Some (of_nat 9);
                                   test_samples := Some (of_nat 5) |} ]])
    = Some table /\
    In (pair_row all_metadata
          [ {| mse := Some (of_nat 9); test_samples := Some (of_nat 5) |} ]) table.
Proof.
  destruct (@last_artifact_is_in_the_table integer_sqrt
              [("old.json", all_document)] "new.json" all_document_rerun
              all_metadata
              [ {| mse := Some (of_nat 9); test_samples := Some (of_nat 5) |} ]
              eq_refl eq_refl) as [_ Hpair].
  destruct (Hpair ltac:(discriminate)
              {| printed := [] ++ [InfoSaved];
                 csv := Some (last_occurrences
                                [pair_row all_metadata two_measurements;
                                 pair_row all_metadata
                                   [ {| mse := Some (of_nat 9);
                                        test_samples := Some (of_nat 5) |} ]]) |})
    as [table [Hcsv [Hin _]]].
  - vm_compute. reflexivity.
  - exists table. split; [exact Hcsv | exact Hin].
Defined.

(** * Further properties of the comparison layer *)

(** ** The alpha values that are returned *)

Lemma leb_total (x y : num) :
  isnan x = false -> isnan y = false -> leb x y = false -> leb y x = true.
Proof.
  unfold leb.
  destruct x as [a | | |], y as [b | | |]; simpl; try discriminate;
    try reflexivity.
  intros _ _.
  destruct (Qc_compare_cases a b)
    as [[H1 [H2 [H3 H4]]] | [[H1 [H2 [H3 H4]]] | [H1 [H2 [H3 H4]]]]];
    rewrite H1, H2, H3, H4; simpl; congruence.
Qed.

Lemma insert_num_sorted (x : num) (l : list num) :
  isnan x = false ->
  Forall (fun a => isnan a = false) l ->
  Sorted (fun a b => leb a b = true) l ->
  Sorted (fun a b => leb a b = true) (insert_num x l).
Proof.
  intros Hx Hl Hsorted. induction Hsorted as [| y l Hs IH Hhd]; simpl.
  - repeat constructor.
  - inversion Hl as [| ? ? Hy Hl']; subst.
    destruct (leb x y) eqn:Hle.
    + constructor; [now constructor | now constructor].
    + constructor; [now apply IH|].
      destruct l as [| z l]; simpl.
      * constructor. now apply leb_total.
      * destruct (leb x z); constructor.
        -- now apply leb_total.
        -- now inversion Hhd.
Qed.

Lemma insert_num_not_nan (x : num) (l : list num) :
  isnan x = false ->
  Forall (fun a => isnan a = false) l ->
  Forall (fun a => isnan a = false) (insert_num x l).
Proof.
  intros Hx Hl.
  apply (Permutation_Forall (Permutation_sym (insert_num_perm x l))).
  now constructor.
Qed.

Lemma sorted_is_ascending (l : list num) :
  Forall (fun a => isnan a = false) l ->
  Sorted (fun a b => leb a b = true) (sorted l) /\
  Forall (fun a => isnan a = false) (sorted l).
Proof.
  induction 1 as [| x l Hx Hl [IHs IHn]]; simpl.
  - split; constructor.
  - split; [now apply insert_num_sorted | now apply insert_num_not_nan].
Qed.

Lemma alpha_values_ascending (rows : list plot_row) :
  Sorted (fun a b => leb a b = true) (alpha_values rows) /\
  Forall (fun a => isnan a = false) (alpha_values rows).
Proof.
  unfold alpha_values. apply sorted_is_ascending.
  apply Forall_forall. intros x Hx. apply unique_In, filter_In in Hx.
  destruct Hx as [_ Hx]. now apply negb_true_iff in Hx.
Qed.

(** X8.  The alpha list that [_prepare_alpha_broadcast] returns is never
    empty, holds no nan and no value twice, and is in ascending order. *)
Theorem broadcast_alphas_are_ascending_and_distinct :
  forall df : list plot_row,
    let alphas := snd (_prepare_alpha_broadcast df) in
    alphas <> [] /\
    NoDup alphas /\
    Forall (fun a => isnan a = false) alphas /\
    Sorted (fun a b => leb a b = true) alphas.
Proof.
  intros df alphas. subst alphas.
  destruct (list_eq_dec_nil (selected_alphas df)) as [HA | HA].
  - rewrite (broadcast_dummy df HA). cbn [snd].
    split; [discriminate|]. split; [repeat constructor; intros []|].
    split; repeat constructor.
  - assert (Hsnd : snd (_prepare_alpha_broadcast df) = selected_alphas df).
    { destruct (list_eq_dec_nil (alpha_independent_rows df)) as [Hi | Hi].
      - now rewrite (broadcast_copies df HA Hi).
      - now rewrite (broadcast_replicates df HA Hi). }
    rewrite Hsnd. split; [exact HA|]. split; [apply selected_alphas_NoDup|].
    unfold selected_alphas. destruct (nonempty _);
      split; apply alpha_values_ascending.
Qed.

(** ** The broadcast keeps rows and values *)

Lemma assign_alpha_same (r : plot_row) : assign_alpha (p_alpha r) r = r.
Proof. destruct r. reflexivity. Qed.

Lemma known_condition_cases (c : cell) :
  known_condition c = true ->
  isin c ["topk"; "bottomk"] = true \/ isin c ["random"; "all"] = true.
Proof.
  unfold known_condition. destruct c as [| x | s]; simpl; try discriminate.
  destruct (String.eqb s "all"), (String.eqb s "topk"), (String.eqb s "bottomk"),
    (String.eqb s "random"); simpl; auto; discriminate.
Qed.

(** X9.  Every row that [_prepare_alpha_broadcast] returns is a row of the
    input in which at most the alpha was changed (model, condition, rmse and
    the other columns are kept), and every input row with one of the four
    known conditions is returned at least once. *)
Theorem broadcast_keeps_rows_and_values :
  forall df : list plot_row,
    (forall r, In r (fst (_prepare_alpha_broadcast df)) ->
               exists r0, In r0 df /\ r = assign_alpha (p_alpha r) r0) /\
    (forall r0, In r0 df ->
                known_condition (p_condition r0) = true ->
                exists r, In r (fst (_prepare_alpha_broadcast df)) /\
                          r = assign_alpha (p_alpha r) r0).
Proof.
  intros df.
  destruct (list_eq_dec_nil (selected_alphas df)) as [HA | HA].
  - rewrite (broadcast_dummy df HA). cbn [fst]. split.
    + intros r Hr. apply in_map_iff in Hr. destruct Hr as [r0 [<- Hr0]].
      exists r0. split; [exact Hr0 | reflexivity].
    + intros r0 Hr0 _. exists (assign_alpha zero r0).
      split; [now apply in_map | reflexivity].
  - destruct (list_eq_dec_nil (alpha_independent_rows df)) as [Hi | Hi].
    + rewrite (broadcast_copies df HA Hi). cbn [fst]. split.
      * intros r Hr. exists r. split; [exact Hr | now rewrite assign_alpha_same].
      * intros r0 Hr0 _. exists r0.
        split; [exact Hr0 | now rewrite assign_alpha_same].
    + rewrite (broadcast_replicates df HA Hi). cbn [fst]. split.
      * intros r Hr. apply in_app_or in Hr. destruct Hr as [Hdep | Hrep].
        -- apply filter_In in Hdep. exists r.
           split; [apply Hdep | now rewrite assign_alpha_same].
        -- apply in_replicate in Hrep. destruct Hrep as [a [r0 [_ [Hr0 ->]]]].
           apply filter_In in Hr0. exists r0. split; [apply Hr0 | reflexivity].
      * intros r0 Hr0 Hknown.
        destruct (known_condition_cases _ Hknown) as [Hdep | Hindep].
        -- exists r0. split; [|now rewrite assign_alpha_same].
           apply in_or_app. left. apply filter_In. now split.
        -- destruct (selected_alphas df) as [| a A] eqn:Hsel; [congruence|].
           exists (assign_alpha a r0). split; [|reflexivity].
           apply in_or_app. right. apply in_replicate.
           exists a, r0. split; [now left|]. split; [|reflexivity].
           apply filter_In. now split.
Qed.

Lemma broadcast_keeps_rows_and_values_witness :
  exists r, In r (fst (_prepare_alpha_broadcast mixed_rows)) /\
            r = assign_alpha (p_alpha r) (plot_row_of "SVR" (CStr "all") NaN).
Proof.
  apply (proj2 (broadcast_keeps_rows_and_values mixed_rows)).
  - right. right. left. reflexivity.
  - reflexivity.
Defined.

(** ** What a box shows after the broadcast *)

Lemma filter_filter_and (A : Type) (f g : A -> bool) (l : list A) :
  filter f (filter g l) = filter (fun x => g x && f x) l.
Proof.
  induction l as [| x l IH]; simpl; [reflexivity|].
  destruct (g x); simpl; [destruct (f x)|]; now rewrite IH.
Qed.

Lemma filter_none (A : Type) (f : A -> bool) (l : list A) :
  (forall x, In x l -> f x = false) -> filter f l = [].
Proof.
  induction l as [| x l IH]; intros H; simpl; [reflexivity|].
  rewrite (H x (or_introl eq_refl)). apply IH. intros y Hy. apply H. now right.
Qed.

(** Among the copies made for the values of [A], those with alpha [a] are
    the copies made for [a]: one per row. *)
Lemma replicate_selection (P : plot_row -> bool) (A : list num) (a : num)
    (rows : list plot_row) :
  (forall a' r, P (assign_alpha a' r) = P r) ->
  NoDup A -> In a A -> isnan a = false ->
  map p_overall_rmse
    (filter (fun r => P r && eqb (p_alpha r) a) (replicate A rows))
  = map p_overall_rmse (filter P rows).
Proof.
  intros HP Hnodup Hin Hnan.
  assert (Hcopies : forall a',
             map p_overall_rmse
               (filter (fun r => P r && eqb (p_alpha r) a)
                  (map (assign_alpha a') rows))
             = if eqb a' a then map p_overall_rmse (filter P rows) else []).
  { intros a'. induction rows as [| r rows IH]; simpl.
    - now destruct (eqb a' a).
    - rewrite HP. destruct (P r); simpl.
      + destruct (eqb a' a) eqn:Heq; simpl; rewrite IH; reflexivity.
      + exact IH. }
  assert (Hothers : forall B, ~ In a B ->
             map p_overall_rmse
               (filter (fun r => P r && eqb (p_alpha r) a) (replicate B rows)) = []).
  { induction B as [| b B IHB]; intros Hnot; [reflexivity|].
    unfold replicate. cbn [map concat]. fold (replicate B rows).
    rewrite filter_app, map_app, Hcopies, IHB.
    - destruct (eqb b a) eqn:Heq; [|reflexivity].
      apply eqb_true_eq in Heq. subst b. exfalso. apply Hnot. now left.
    - intros Hin'. apply Hnot. now right. }
  induction A as [| a' A IH]; [contradiction|].
  inversion Hnodup as [| ? ? Hnotin Hnodup']; subst.
  unfold replicate. cbn [map concat]. fold (replicate A rows).
  rewrite filter_app, map_app, Hcopies.
  destruct Hin as [-> | Hin].
  - rewrite (eqb_refl a Hnan), (Hothers A Hnotin). apply app_nil_r.
  - destruct (eqb a' a) eqn:Heq.
    + apply eqb_true_eq in Heq. subst a'. contradiction.
    + now apply IH.
Qed.

Lemma selected_alphas_not_nan (df : list plot_row) (a : num) :
  In a (selected_alphas df) -> isnan a = false.
Proof.
  unfold selected_alphas. intros Hin.
  destruct (nonempty _); apply alpha_values_In in Hin; apply Hin.
Qed.

Lemma independent_condition_is (cond : string) (c : cell) :
  cond = "random" \/ cond = "all" ->
  condition_is cond c = true ->
  isin c ["random"; "all"] = true /\ isin c ["topk"; "bottomk"] = false.
Proof.
  intros Hcond. destruct c as [| x | s]; simpl; try discriminate.
  intros Heq. apply String.eqb_eq in Heq. subst s.
  destruct Hcond as [-> | ->]; split; reflexivity.
Qed.

(** X10.  After a broadcast that replicates, the box of a model for an
    alpha-independent condition holds, at every alpha of the list, the
    rmse values of all the rows of that model and condition in the combined
    table: the same data at every alpha. *)
Theorem independent_boxes_are_the_same_at_every_alpha :
  forall (df : list plot_row) (model cond : string) (a : num),
    alpha_independent_rows df <> [] ->
    In a (snd (_prepare_alpha_broadcast df)) ->
    selected_alphas df <> [] ->
    cond = "random" \/ cond = "all" ->
    box_values (rows_of_model model (fst (_prepare_alpha_broadcast df))) a cond
    = map p_overall_rmse
        (filter (fun r => String.eqb (p_model r) model
                          && condition_is cond (p_condition r)) df).
Proof.
  intros df model cond a Hindep Hin HA Hcond.
  rewrite (broadcast_replicates df HA Hindep) in *. cbn [fst snd] in *.
  unfold box_values, rows_of_model.
  rewrite filter_filter_and, filter_app, map_app.
  set (P := fun r => String.eqb (p_model r) model
                     && condition_is cond (p_condition r)).
  rewrite (filter_none _ (alpha_dependent_rows df)); cbn [map app].
  - rewrite (filter_ext _ (fun r => P r && eqb (p_alpha r) a)).
    + rewrite replicate_selection.
      * unfold alpha_independent_rows. rewrite filter_filter_and. f_equal.
        apply filter_ext_in. intros r _. unfold P.
        destruct (condition_is cond (p_condition r)) eqn:Hc.
        -- destruct (independent_condition_is _ Hcond Hc) as [-> _]. reflexivity.
        -- now rewrite andb_false_r, andb_false_r.
      * intros a' r. reflexivity.
      * apply selected_alphas_NoDup.
      * exact Hin.
      * exact (selected_alphas_not_nan df a Hin).
    + intros r. unfold P.
      destruct (String.eqb (p_model r) model), (eqb (p_alpha r) a),
        (condition_is cond (p_condition r)); reflexivity.
  - intros r Hr. apply filter_In in Hr. destruct Hr as [_ Hdep].
    destruct (condition_is cond (p_condition r)) eqn:Hc.
    + destruct (independent_condition_is _ Hcond Hc) as [_ Hno]. congruence.
    + now rewrite !andb_false_r.
Qed.

Lemma independent_boxes_are_the_same_at_every_alpha_witness :
  box_values (rows_of_model "SVR" (fst (_prepare_alpha_broadcast mixed_rows)))
    (of_nat 100) "all"
  = map p_overall_rmse
      (filter (fun r => String.eqb (p_model r) "SVR"
                        && condition_is "all" (p_condition r)) mixed_rows).
Proof.
  apply independent_boxes_are_the_same_at_every_alpha.
  - intros H. vm_compute in H. discriminate.
  - right. left. vm_compute. reflexivity.
  - intros H. vm_compute in H. discriminate.
  - right. reflexivity.
Defined.

(** ** The layout of a subplot *)

Lemma Sorted_lt_app (l1 l2 : list nat) :
  Sorted lt l1 -> Sorted lt l2 ->
  (forall x y, In x l1 -> In y l2 -> x < y) ->
  Sorted lt (l1 ++ l2).
Proof.
  intros H1 H2 Hlt. induction H1 as [| x l1 Hs IH Hhd]; simpl; [exact H2|].
  constructor.
  - apply IH. intros a b Ha Hb. apply Hlt; [now right | exact Hb].
  - destruct l1 as [| z l1]; simpl.
    + destruct l2 as [| y l2]; constructor. apply Hlt; now left.
    + constructor. now inversion Hhd.
Qed.

Lemma shifted_seq_sorted (c k n : nat) :
  Sorted lt (map (fun j => c + j) (seq k n)).
Proof.
  revert k. induction n as [| n IH]; intros k; simpl; constructor.
  - apply IH.
  - destruct n; simpl; constructor. lia.
Qed.

Lemma group_positions_sorted (n_cond i : nat) :
  Sorted lt (group_positions n_cond i) /\
  forall p, In p (group_positions n_cond i) ->
            i * (n_cond + 1) <= p < i * (n_cond + 1) + n_cond.
Proof.
  unfold group_positions. split.
  - apply shifted_seq_sorted.
  - intros p Hp. apply in_map_iff in Hp. destruct Hp as [j [<- Hj]].
    apply in_seq in Hj. lia.
Qed.

Lemma all_positions_sorted (n_cond k m : nat) :
  Sorted lt (flat_map (group_positions n_cond) (seq k m)) /\
  forall p, In p (flat_map (group_positions n_cond) (seq k m)) ->
            k * (n_cond + 1) <= p.
Proof.
  revert k. induction m as [| m IH]; intros k; simpl.
  - split; [constructor | contradiction].
  - destruct (IH (S k)) as [IHs IHlow].
    destruct (group_positions_sorted n_cond k) as [Hs Hrange]. split.
    + apply Sorted_lt_app; [exact Hs | exact IHs|].
      intros x y Hx Hy. specialize (Hrange x Hx). specialize (IHlow y Hy).
      simpl in IHlow. lia.
    + intros p Hp. apply in_app_or in Hp. destruct Hp as [Hp | Hp].
      * apply (Hrange p Hp).
      * specialize (IHlow p Hp). simpl in IHlow. lia.
Qed.

Lemma boxes_of_alpha_positions (df_model : list plot_row)
    (cond_order : list string) (color_map : list (string * string))
    (i : nat) (a : num) :
  map box_position (boxes_of_alpha df_model cond_order color_map (i, a))
  = group_positions (length cond_order) i.
Proof.
  unfold boxes_of_alpha, group_positions, enumerate. rewrite map_map.
  rewrite <- (map_fst_combine_seq cond_order 0) at 2. rewrite map_map.
  apply map_ext. intros [j cond]. reflexivity.
Qed.

Lemma plot_box_positions (df_model : list plot_row) (alphas : list num)
    (cond_order : list string) (color_map : list (string * string)) :
  map box_position (fst (_plot_box df_model alphas cond_order color_map))
  = flat_map (group_positions (length cond_order)) (seq 0 (length alphas)).
Proof.
  unfold _plot_box. cbn [fst]. unfold enumerate.
  generalize 0 as k. induction alphas as [| a alphas IH]; intros k;
    [reflexivity|].
  cbn [length seq combine map concat flat_map].
  rewrite map_app, boxes_of_alpha_positions. f_equal. apply IH.
Qed.

(** X11.  [_plot_box] draws one box per alpha and condition: group [i]
    takes the positions [i*(n_cond+1) .. i*(n_cond+1) + n_cond - 1], so the
    positions increase strictly (no two boxes share one, and one slot stays
    free between two groups); no box is handed over without data; there is
    one tick per alpha. *)
Theorem plot_box_layout :
  forall (df_model : list plot_row) (alphas : list num)
         (cond_order : list string) (color_map : list (string * string)),
    let boxes := fst (_plot_box df_model alphas cond_order color_map) in
    let ticks := snd (_plot_box df_model alphas cond_order color_map) in
    map box_position boxes
    = flat_map (group_positions (length cond_order)) (seq 0 (length alphas)) /\
    length boxes = length alphas * length cond_order /\
    Sorted lt (map box_position boxes) /\
    Forall (fun b => box_data b <> []) boxes /\
    length ticks = length alphas.
Proof.
  intros df_model alphas cond_order color_map boxes ticks. subst boxes ticks.
  split; [apply plot_box_positions|]. split; [|split; [|split]].
  - rewrite <- (length_map box_position), plot_box_positions.
    generalize 0 as k. induction alphas as [| a alphas IH]; intros k;
      [reflexivity|].
    cbn [length seq flat_map]. rewrite length_app, IH.
    unfold group_positions. rewrite length_map, length_seq. lia.
  - rewrite plot_box_positions. apply all_positions_sorted.
  - unfold _plot_box. cbn [fst]. apply Forall_forall. intros b Hb.
    apply in_concat in Hb. destruct Hb as [l [Hl Hb]].
    apply in_map_iff in Hl. destruct Hl as [[i a] [<- _]].
    unfold boxes_of_alpha in Hb. apply in_map_iff in Hb.
    destruct Hb as [[j cond] [<- _]]. cbn [box_data].
    destruct (length (box_values df_model a cond) =? 0) eqn:Hlen;
      [discriminate|].
    intros Hnil. rewrite Hnil in Hlen. discriminate.
  - unfold _plot_box. cbn [snd].
    rewrite length_combine, !length_map, length_seq. lia.
Qed.

(** ** The models that get a subplot *)

Lemma unique_strings_In (l : list string) (x : string) :
  In x (unique_strings l) <-> In x l.
Proof.
  induction l as [| h l IH]; simpl; [reflexivity|].
  rewrite filter_In, IH. split.
  - intros [-> | [Hin _]]; [now left | now right].
  - intros [-> | Hin]; [now left|].
    destruct (String.eqb h x) eqn:Heq.
    + left. now apply String.eqb_eq.
    + right. now split.
Qed.

Lemma unique_strings_NoDup (l : list string) : NoDup (unique_strings l).
Proof.
  induction l as [| h l IH]; simpl; constructor.
  - rewrite filter_In. intros [_ Hneq]. now rewrite String.eqb_refl in Hneq.
  - now apply NoDup_filter.
Qed.

Lemma insert_string_perm (x : string) (l : list string) :
  Permutation (insert_string x l) (x :: l).
Proof.
  induction l as [| y l IH]; simpl; [reflexivity|].
  destruct (String.leb x y); [reflexivity|].
  rewrite IH. apply perm_swap.
Qed.

Lemma sorted_strings_perm (l : list string) : Permutation (sorted_strings l) l.
Proof.
  induction l as [| x l IH]; simpl; [reflexivity|].
  rewrite insert_string_perm. now apply perm_skip.
Qed.

Lemma existsb_eqb_In (m : string) (l : list string) :
  existsb (String.eqb m) l = true <-> In m l.
Proof.
  rewrite existsb_exists. split.
  - intros [x [Hin Heq]]. apply String.eqb_eq in Heq. now subst.
  - intros Hin. exists m. split; [exact Hin | apply String.eqb_refl].
Qed.

Lemma present_in_desired (final_df : list plot_row) (d : string) :
  In d (filter (fun m => existsb (String.eqb m)
                           (unique_strings (map p_model final_df))) desired_order)
  <-> In d desired_order /\ exists r, In r final_df /\ p_model r = d.
Proof.
  rewrite filter_In, existsb_eqb_In, unique_strings_In, in_map_iff.
  split; intros [Hd [r Hr]]; (split; [exact Hd | exists r; tauto]).
Qed.

(** X12.  The models that get a subplot are models of the table, each
    once, and at least one when the table has a row.  As soon as one of
    SVR, RF, DGM is in the table, exactly those of the three that are in the
    table get a subplot: a model with another name gets none, although its
    rows are in the table. *)
Theorem present_models_prefers_the_known_names :
  forall final_df : list plot_row,
    (forall m, In m (present_models final_df) ->
               exists r, In r final_df /\ p_model r = m) /\
    NoDup (present_models final_df) /\
    (final_df <> [] -> present_models final_df <> []) /\
    (forall d, In d desired_order ->
               (exists r, In r final_df /\ p_model r = d) ->
               forall m, In m (present_models final_df)
                         <-> In m desired_order /\
                             exists r, In r final_df /\ p_model r = m).
Proof.
  intros final_df. unfold present_models.
  set (models := unique_strings (map p_model final_df)).
  set (present := filter (fun m => existsb (String.eqb m) models) desired_order).
  assert (Hmodels : forall m, In m models <-> exists r, In r final_df /\ p_model r = m).
  { intros m. unfold models. rewrite unique_strings_In, in_map_iff.
    split; intros [r Hr]; exists r; tauto. }
  split; [|split; [|split]].
  - intros m Hm. destruct (nonempty present).
    + apply present_in_desired in Hm. apply Hm.
    + apply Hmodels. exact (Permutation_in _ (sorted_strings_perm _) Hm).
  - destruct (nonempty present).
    + apply NoDup_filter. unfold desired_order.
      repeat constructor; simpl; intuition discriminate.
    + apply (Permutation_NoDup (Permutation_sym (sorted_strings_perm _))).
      apply unique_strings_NoDup.
  - intros Hne. destruct (nonempty present) eqn:Hp.
    + now apply nonempty_true.
    + intros Hnil. destruct final_df as [| r rest]; [congruence|].
      assert (Hin : In (p_model r) (sorted_strings models)).
      { apply (Permutation_in _ (Permutation_sym (sorted_strings_perm _))).
        apply Hmodels. exists r. split; [now left | reflexivity]. }
      rewrite Hnil in Hin. contradiction.
  - intros d Hd Hex m.
    assert (Hp : nonempty present = true).
    { apply nonempty_true. intros Hnil.
      assert (Hin : In d present) by (apply present_in_desired; now split).
      rewrite Hnil in Hin. contradiction. }
    rewrite Hp. apply present_in_desired.
Qed.

Lemma present_models_prefers_the_known_names_witness :
  ~ In "XGB" (present_models [plot_row_of "XGB" (CStr "all") NaN;
                               plot_row_of "RF" (CStr "all") NaN]).
Proof.
  destruct (present_models_prefers_the_known_names
              [plot_row_of "XGB" (CStr "all") NaN;
               plot_row_of "RF" (CStr "all") NaN]) as [_ [_ [_ Hknown]]].
  intros Hin. apply (Hknown "RF") in Hin.
  - destruct Hin as [Hdesired _]. simpl in Hdesired.
    intuition discriminate.
  - right. left. reflexivity.
  - exists (plot_row_of "RF" (CStr "all") NaN). split; [right; now left | reflexivity].
Defined.

(** ** Which summary files are loaded *)

(** A loading loop whose body either appends the rows of the entry or
    prints its warning. *)
Lemma load_loop (step : list plot_message * list (list plot_row)
                        -> string * option table
                        -> list plot_message * list (list plot_row))
    (loadable : string * option table -> bool)
    (rows_of : string * option table -> list plot_row) :
  (forall printed dfs e,
      step (printed, dfs) e
      = if loadable e then (printed, dfs ++ [rows_of e])
        else (printed ++ [load_warning e], dfs)) ->
  forall files printed dfs,
    fold_left step files (printed, dfs)
    = (printed ++ map load_warning (filter (fun e => negb (loadable e)) files),
       dfs ++ map rows_of (filter loadable files)).
Proof.
  intros Hstep. induction files as [| e files IH]; intros printed dfs; simpl.
  - now rewrite !app_nil_r.
  - rewrite Hstep. destruct (loadable e); simpl; rewrite IH.
    + now rewrite <- app_assoc.
    + now rewrite <- app_assoc.
Qed.

Lemma pair_load_step (sqrt_fin : Qc -> Qc) (printed : list plot_message)
    (dfs : list (list plot_row)) (e : string * option table) :
  pair_load sqrt_fin (printed, dfs) e
  = if pair_loadable e then (printed, dfs ++ [pair_rows_of sqrt_fin e])
    else (printed ++ [load_warning e], dfs).
Proof.
  destruct e as [model [t |]]; unfold pair_load, pair_loadable, pair_rows_of,
    load_warning; cbn [fst snd]; [|reflexivity].
  destruct (has_column t "overall_mse"); reflexivity.
Qed.

Lemma graph_load_step (sqrt_fin : Qc -> Qc) (printed : list plot_message)
    (dfs : list (list plot_row)) (e : string * option table) :
  graph_load sqrt_fin (printed, dfs) e
  = if graph_loadable e then (printed, dfs ++ [graph_rows_of sqrt_fin e])
    else (printed ++ [load_warning e], dfs).
Proof.
  destruct e as [model [t |]]; unfold graph_load, graph_loadable, graph_rows_of,
    load_warning; cbn [fst snd]; [|reflexivity].
  destruct (has_column t "rmse_mean" && any_notna t "rmse_mean"); [reflexivity|].
  destruct (has_column t "mse_mean" && any_notna t "mse_mean"); reflexivity.
Qed.

(** X13.  [plot_pair_summaries] and [plot_graph_summaries] use every file
    that exists and has a usable column, in the order of the entries, and
    print exactly one warning for every other entry; they stop with the
    error message exactly when no file is used, and otherwise broadcast the
    concatenation of the tables. *)
Theorem summaries_are_loaded_or_warned :
  forall (sqrt_fin : Qc -> Qc) (summary_files : list (string * option table)),
    plot_pair_summaries sqrt_fin summary_files
    = (let warnings := map load_warning
                         (filter (fun e => negb (pair_loadable e)) summary_files) in
       let dfs := map (pair_rows_of sqrt_fin) (filter pair_loadable summary_files) in
       if existsb pair_loadable summary_files
       then (warnings, Some (_prepare_alpha_broadcast (concat dfs)))
       else (warnings ++ [ErrNoSummary], None)) /\
    plot_graph_summaries sqrt_fin summary_files
    = (let warnings := map load_warning
                         (filter (fun e => negb (graph_loadable e)) summary_files) in
       let dfs := map (graph_rows_of sqrt_fin) (filter graph_loadable summary_files) in
       if existsb graph_loadable summary_files
       then (warnings, Some (_prepare_alpha_broadcast (concat dfs)))
       else (warnings ++ [ErrNoSummary], None)).
Proof.
  intros sqrt_fin summary_files.
  assert (Hnonempty : forall (loadable : string * option table -> bool)
                             (rows_of : string * option table -> list plot_row),
             nonempty (map rows_of (filter loadable summary_files))
             = existsb loadable summary_files).
  { intros loadable rows_of. induction summary_files as [| e files IH];
      [reflexivity|].
    simpl. destruct (loadable e); [reflexivity | exact IH]. }
  split.
  - unfold plot_pair_summaries.
    rewrite (load_loop (pair_load sqrt_fin) pair_loadable (pair_rows_of sqrt_fin)
               (pair_load_step sqrt_fin)).
    cbn [app]. rewrite Hnonempty. cbv zeta.
    destruct (existsb pair_loadable summary_files); reflexivity.
  - unfold plot_graph_summaries.
    rewrite (load_loop (graph_load sqrt_fin) graph_loadable (graph_rows_of sqrt_fin)
               (graph_load_step sqrt_fin)).
    cbn [app]. rewrite Hnonempty. cbv zeta.
    destruct (existsb graph_loadable summary_files); reflexivity.
Qed.

(** * Properties of the dataset of origin-destination pairs *)

Module DatasetProperties.

Import CommutingODPairDataset.

Lemma loop_appends (S A : Type) (body : list S -> A -> attempt (list S))
    (h : A -> list S) (xs : list A) :
  (forall s k, In k xs -> body s k = Done (s ++ h k)) ->
  forall s, loop body xs s = Done (s ++ flat_map h xs).
Proof.
  induction xs as [| k xs IH]; intros Hbody s; simpl.
  - now rewrite app_nil_r.
  - rewrite (Hbody s k (or_introl eq_refl)). simpl.
    rewrite IH by (intros s' k' Hk'; apply Hbody; now right).
    now rewrite app_assoc.
Qed.

Lemma flat_map_singleton (A B : Type) (f : A -> B) (l : list A) :
  flat_map (fun k => [f k]) l = map f l.
Proof. induction l as [| a l IH]; simpl; [reflexivity | now rewrite IH]. Qed.

Lemma shifted_map_seq (B : Type) (g : nat -> B) (a b n : nat) :
  map (fun k => g (k - a)) (seq (a + b) n) = map g (seq b n).
Proof.
  revert b. induction n as [| n IH]; intros b; simpl; [reflexivity|].
  replace (a + b - a) with b by lia. f_equal.
  replace (S (a + b)) with (a + S b) by lia. apply IH.
Qed.

(** A list cut in three: the first [F] indices, the next [F], the last. *)
Lemma three_parts (B : Type) (F : nat) (u v : nat -> B) (w : B) :
  map (fun k => if k <? F then u k else if k <? F + F then v (k - F) else w)
      (seq 0 (F + F + 1))
  = map u (seq 0 F) ++ map v (seq 0 F) ++ [w].
Proof.
  rewrite !seq_app, !map_app, <- app_assoc. cbn [seq map Nat.add].
  f_equal; [|f_equal].
  - apply map_ext_in. intros k Hk. apply in_seq in Hk.
    destruct (k <? F) eqn:E; [reflexivity|]. apply Nat.ltb_ge in E. lia.
  - rewrite <- (shifted_map_seq v F 0 F). replace (F + 0) with F by lia.
    apply map_ext_in. intros k Hk. apply in_seq in Hk.
    destruct (k <? F) eqn:E1; [apply Nat.ltb_lt in E1; lia|].
    destruct (k <? F + F) eqn:E2; [reflexivity|]. apply Nat.ltb_ge in E2. lia.
  - f_equal. replace (0 + F + F) with (F + F) by lia.
    rewrite Nat.ltb_irrefl.
    destruct (F + F <? F) eqn:E; [apply Nat.ltb_lt in E; lia | reflexivity].
Qed.

Lemma two_parts (B : Type) (D P : nat) (u v : nat -> B) :
  map (fun k => if k <? D then u k else v (k - D)) (seq 0 (D + P))
  = map u (seq 0 D) ++ map v (seq 0 P).
Proof.
  rewrite seq_app, map_app. f_equal.
  - apply map_ext_in. intros k Hk. apply in_seq in Hk.
    destruct (k <? D) eqn:E; [reflexivity|]. apply Nat.ltb_ge in E. lia.
  - rewrite <- (shifted_map_seq v D 0 P). replace (D + 0) with (0 + D) by lia.
    apply map_ext_in. intros k Hk. apply in_seq in Hk.
    destruct (k <? D) eqn:E; [apply Nat.ltb_lt in E; lia | reflexivity].
Qed.

Section Construction.

Variable float32 : num -> num.
Variable root : string -> option area_arrays.

(** The feature tensor of well-shaped arrays. *)
Lemma make_feature_tensor_ok (toy_flag : bool) (arrays : area_arrays) :
  well_shaped toy_flag arrays ->
  exists t,
    _make_feature_tensor float32 toy_flag (demos arrays) (pois arrays) (dis arrays)
    = Done t /\
    dim0 t = shape0 (demos arrays) /\
    dim2 t = feature_count toy_flag arrays + feature_count toy_flag arrays + 1 /\
    forall i j,
      vector_at t i j
      = map float32 (features toy_flag arrays i ++ features toy_flag arrays j
                     ++ [item (dis arrays) i j]).
Proof.
  intros [Hfeat [Hd0 [Hd1 _]]]. unfold _make_feature_tensor.
  destruct toy_flag.
  - unfold first_column. apply Nat.ltb_lt in Hfeat. rewrite Hfeat.
    cbn [and_then shape0 shape1]. rewrite Hd0, Hd1, !Nat.eqb_refl. cbn [andb].
    eexists. split; [reflexivity|]. split; [reflexivity|]. split; [reflexivity|].
    intros i j. reflexivity.
  - unfold concatenate_axis1. rewrite Hfeat, Nat.eqb_refl.
    cbn [and_then shape0 shape1]. rewrite Hd0, Hd1, !Nat.eqb_refl. cbn [andb].
    eexists. split; [reflexivity|]. split; [reflexivity|]. split; [reflexivity|].
    intros i0 j0. unfold vector_at. cbn [dim2 item3].
    set (F := shape1 (demos arrays) + shape1 (pois arrays)).
    set (feat := fun i k => if k <? shape1 (demos arrays)
                            then item (demos arrays) i k
                            else item (pois arrays) i (k - shape1 (demos arrays))).
    transitivity
      (map float32
         (map (fun k => if k <? F then feat i0 k
                        else if k <? F + F then feat j0 (k - F)
                        else item (dis arrays) i0 j0)
              (seq 0 (F + F + 1)))).
    { rewrite map_map. reflexivity. }
    rewrite three_parts. unfold features, row_of, feat, F.
    now rewrite !two_parts.
Qed.

Lemma add_area_ok (toy_flag : bool) (samples : list sample) (a : string)
    (arrays : area_arrays) :
  root a = Some arrays ->
  well_shaped toy_flag arrays ->
  add_area float32 root toy_flag samples a
  = Done (samples ++ area_samples float32 toy_flag a arrays).
Proof.
  intros Hroot Hshape. unfold add_area, _load_area_arrays. rewrite Hroot.
  cbn [and_then].
  destruct (make_feature_tensor_ok Hshape) as [t [Ht [Hdim [_ Hvec]]]].
  rewrite Ht. cbn [and_then]. rewrite Hdim.
  destruct Hshape as [_ [_ [_ [Hod0 Hod1]]]].
  unfold area_samples. apply loop_appends. intros s i0 Hi.
  rewrite (loop_appends _ (fun j0 => [sample_of float32 toy_flag a arrays i0 j0])).
  - now rewrite flat_map_singleton.
  - intros s' j0 Hj. apply in_seq in Hi. apply in_seq in Hj.
    unfold add_sample, getitem2.
    assert (H0 : (i0 <? shape0 (od arrays)) = true) by (apply Nat.ltb_lt; lia).
    assert (H1 : (j0 <? shape1 (od arrays)) = true) by (apply Nat.ltb_lt; lia).
    rewrite H0, H1. cbn [andb and_then]. unfold sample_of. now rewrite Hvec.
Qed.

Lemma init_ok (toy_flag : bool) (areas : list string) (samples : list sample) :
  all_well_shaped root toy_flag areas ->
  loop (add_area float32 root toy_flag) areas samples
  = Done (samples ++ expected_samples float32 root toy_flag areas).
Proof.
  unfold all_well_shaped, expected_samples.
  intros Hall. revert samples.
  induction Hall as [| a areas [arrays [Hroot Hshape]] _ IH]; intros samples; simpl.
  - now rewrite app_nil_r.
  - rewrite (@add_area_ok toy_flag samples a arrays Hroot Hshape). cbn [and_then].
    rewrite IH, Hroot. now rewrite app_assoc.
Qed.

End Construction.

(** ** What the dataset holds *)

Lemma grid_length (B : Type) (f : nat -> nat -> B) (N M k : nat) :
  length (flat_map (fun i0 => map (f i0) (seq 0 N)) (seq k M)) = M * N.
Proof.
  revert k. induction M as [| M IH]; intros k; simpl; [reflexivity|].
  now rewrite length_app, length_map, length_seq, IH.
Qed.

Lemma area_samples_length (float32 : num -> num) (toy_flag : bool) (a : string)
    (arrays : area_arrays) :
  length (area_samples float32 toy_flag a arrays)
  = shape0 (demos arrays) * shape0 (demos arrays).
Proof. unfold area_samples. apply grid_length. Qed.

Lemma expected_samples_length (float32 : num -> num)
    (root : string -> option area_arrays) (toy_flag : bool) (areas : list string) :
  all_well_shaped root toy_flag areas ->
  length (expected_samples float32 root toy_flag areas)
  = list_sum (map (fun a => zones root a * zones root a) areas).
Proof.
  unfold expected_samples, zones.
  induction 1 as [| a areas [arrays [Hroot _]] _ IH]; simpl; [reflexivity|].
  rewrite length_app, IH, Hroot, area_samples_length. reflexivity.
Qed.

Lemma features_length (toy_flag : bool) (arrays : area_arrays) (i0 : nat) :
  length (features toy_flag arrays i0) = feature_count toy_flag arrays.
Proof.
  unfold features, feature_count, row_of. destruct toy_flag; [reflexivity|].
  now rewrite length_app, !length_map, !length_seq.
Qed.

(** X14.  When every area has its files and their shapes fit, the dataset
    is built, its length is the sum over the areas of the squared number of
    zones, and every sample is a pair [(i, j)] of zones of its area whose
    [x] holds the features of [i], the features of [j] and the distance
    from [i] to [j] ([2F + 1] values) and whose [y] is the flow from [i] to
    [j]. *)
Theorem dataset_holds_every_pair :
  forall (float32 : num -> num) (root : string -> option area_arrays)
         (toy_flag : bool) (areas : list string),
    all_well_shaped root toy_flag areas ->
    exists samples,
      __init__ float32 root toy_flag areas = Done samples /\
      __len__ samples = list_sum (map (fun a => zones root a * zones root a) areas) /\
      forall s, In s samples ->
        exists arrays,
          In (area s) areas /\ root (area s) = Some arrays /\
          i s < shape0 (demos arrays) /\ j s < shape0 (demos arrays) /\
          x s = map float32 (features toy_flag arrays (i s)
                             ++ features toy_flag arrays (j s)
                             ++ [item (dis arrays) (i s) (j s)]) /\
          y s = float32 (item (od arrays) (i s) (j s)) /\
          length (x s) = 2 * feature_count toy_flag arrays + 1.
Proof.
  intros float32 root toy_flag areas Hall.
  exists (expected_samples float32 root toy_flag areas).
  split; [exact (init_ok float32 [] Hall)|].
  split; [now apply expected_samples_length|].
  intros s Hs. unfold expected_samples in Hs. apply in_flat_map in Hs.
  destruct Hs as [a [Ha Hs]].
  unfold all_well_shaped in Hall. rewrite Forall_forall in Hall.
  destruct (Hall a Ha) as [arrays [Hroot _]]. rewrite Hroot in Hs.
  unfold area_samples in Hs. apply in_flat_map in Hs.
  destruct Hs as [i0 [Hi Hs]]. apply in_map_iff in Hs.
  destruct Hs as [j0 [<- Hj]]. apply in_seq in Hi. apply in_seq in Hj.
  cbn [sample_of area i j x y]. exists arrays.
  split; [exact Ha|]. split; [exact Hroot|].
  split; [lia|]. split; [lia|]. split; [reflexivity|]. split; [reflexivity|].
  rewrite length_map, !length_app, !features_length. simpl. lia.
Qed.

Lemma example_is_well_shaped :
  all_well_shaped example_root false ["A"].
Proof.
  constructor; [|constructor]. exists example_arrays.
  split; [reflexivity|]. unfold well_shaped. simpl. repeat split; lia.
Qed.

Lemma dataset_holds_every_pair_witness :
  exists samples,
    __init__ (fun v => v) example_root false ["A"] = Done samples /\
    __len__ samples = list_sum (map (fun a => zones example_root a
                                              * zones example_root a) ["A"]).
Proof.
  destruct (dataset_holds_every_pair (fun v => v) example_is_well_shaped)
    as [samples [Hinit [Hlen _]]].
  exists samples. split; assumption.
Defined.

(** ** The order of the samples *)

Lemma nth_error_grid (B : Type) (f : nat -> nat -> B) (N M k i0 j0 : nat) :
  i0 < M -> j0 < N ->
  nth_error (flat_map (fun i1 => map (f i1) (seq 0 N)) (seq k M)) (i0 * N + j0)
  = Some (f (k + i0) j0).
Proof.
  revert k i0. induction M as [| M IH]; intros k i0 Hi Hj; [lia|].
  cbn [seq flat_map]. destruct i0 as [| i0].
  - rewrite nth_error_app1 by (rewrite length_map, length_seq; simpl; lia).
    simpl Nat.add. rewrite nth_error_map.
    rewrite (nth_error_nth' _ 0) by (rewrite length_seq; lia).
    rewrite seq_nth by lia. simpl. f_equal. f_equal. lia.
  - rewrite nth_error_app2 by (rewrite length_map, length_seq; simpl; lia).
    rewrite length_map, length_seq.
    replace (S i0 * N + j0 - N) with (i0 * N + j0) by (simpl; lia).
    rewrite IH by lia. f_equal. f_equal. lia.
Qed.

Lemma getitem_at (samples : list sample) (k : nat) (s : sample) :
  nth_error samples k = Some s ->
  __getitem__ samples (Z.of_nat k) = Done s /\
  __getitem__ samples (Z.of_nat k - Z.of_nat (length samples)) = Done s.
Proof.
  intros Hnth.
  assert (Hlt : k < length samples) by (apply nth_error_Some; congruence).
  unfold __getitem__. split.
  - destruct (Z.of_nat k <? 0)%Z eqn:Hneg; [apply Z.ltb_lt in Hneg; lia|].
    assert (H0 : (0 <=? Z.of_nat k)%Z = true) by (apply Z.leb_le; lia).
    assert (H1 : (Z.of_nat k <? Z.of_nat (length samples))%Z = true)
      by (apply Z.ltb_lt; lia).
    rewrite H0, H1, Nat2Z.id, Hnth. reflexivity.
  - destruct (Z.of_nat k - Z.of_nat (length samples) <? 0)%Z eqn:Hneg;
      [|apply Z.ltb_ge in Hneg; lia].
    replace (Z.of_nat k - Z.of_nat (length samples) + Z.of_nat (length samples))%Z
      with (Z.of_nat k) by lia.
    assert (H0 : (0 <=? Z.of_nat k)%Z = true) by (apply Z.leb_le; lia).
    assert (H1 : (Z.of_nat k <? Z.of_nat (length samples))%Z = true)
      by (apply Z.ltb_lt; lia).
    rewrite H0, H1, Nat2Z.id, Hnth. reflexivity.
Qed.

(** X15.  In the dataset the pairs of an area come after the pairs of the
    areas listed before it, ordered by [i] and then by [j]: the sample at
    that position, and at the same position counted from the end with a
    negative index, is the pair [(i, j)] of the area. *)
Theorem dataset_is_indexed_area_by_area :
  forall (float32 : num -> num) (root : string -> option area_arrays)
         (toy_flag : bool) (before after : list string) (a : string)
         (arrays : area_arrays) (i0 j0 : nat),
    all_well_shaped root toy_flag (before ++ a :: after) ->
    root a = Some arrays ->
    i0 < shape0 (demos arrays) ->
    j0 < shape0 (demos arrays) ->
    exists samples,
      __init__ float32 root toy_flag (before ++ a :: after) = Done samples /\
      __getitem__ samples (Z.of_nat (position_of root before a i0 j0))
      = Done (sample_of float32 toy_flag a arrays i0 j0) /\
      __getitem__ samples (Z.of_nat (position_of root before a i0 j0)
                           - Z.of_nat (__len__ samples))
      = Done (sample_of float32 toy_flag a arrays i0 j0).
Proof.
  intros float32 root toy_flag before after a arrays i0 j0 Hall Hroot Hi Hj.
  exists (expected_samples float32 root toy_flag (before ++ a :: after)).
  split; [exact (init_ok float32 [] Hall)|].
  apply getitem_at.
  unfold expected_samples. rewrite flat_map_app. cbn [flat_map].
  apply Forall_app in Hall. destruct Hall as [Hbefore _].
  pose proof (expected_samples_length float32 Hbefore) as Hlen.
  unfold expected_samples in Hlen. unfold position_of.
  rewrite nth_error_app2 by (rewrite Hlen; lia).
  rewrite Hlen, Hroot.
  replace (_ + (i0 * zones root a + j0) - _) with (i0 * zones root a + j0) by lia.
  unfold zones. rewrite Hroot.
  rewrite nth_error_app1 by (rewrite area_samples_length; nia).
  unfold area_samples. now rewrite nth_error_grid.
Qed.

Lemma dataset_is_indexed_area_by_area_witness :
  exists samples,
    __init__ (fun v => v) example_root false ([] ++ "A" :: []) = Done samples /\
    __getitem__ samples (Z.of_nat (position_of example_root [] "A" 1 0))
    = Done (sample_of (fun v => v) false "A" example_arrays 1 0) /\
    __getitem__ samples (Z.of_nat (position_of example_root [] "A" 1 0)
                         - Z.of_nat (__len__ samples))
    = Done (sample_of (fun v => v) false "A" example_arrays 1 0).
Proof.
  apply dataset_is_indexed_area_by_area.
  - exact example_is_well_shaped.
  - reflexivity.
  - simpl. lia.
  - simpl. lia.
Defined.

(** ** When the dataset cannot be built *)

Lemma loop_fails_at (S A : Type) (body : S -> A -> attempt S) (xs : list A)
    (k0 : A) :
  In k0 xs ->
  (forall s, exists e, body s k0 = Failed e) ->
  forall s, exists e, loop body xs s = Failed e.
Proof.
  induction xs as [| k xs IH]; intros Hin Hfail s; [contradiction|].
  simpl. destruct Hin as [-> | Hin].
  - destruct (Hfail s) as [e He]. rewrite He. now exists e.
  - destruct (body s k) as [s1 | e]; simpl; [now apply IH | now exists e].
Qed.

Lemma add_sample_out_of_bounds (float32 : num -> num) (a : string)
    (t : ndarray3) (y0 : ndarray2) (i0 j0 : nat) (s : list sample) :
  shape0 y0 <= i0 \/ shape1 y0 <= j0 ->
  add_sample float32 a t y0 i0 s j0 = Failed IndexError.
Proof.
  intros Hout. unfold add_sample, getitem2.
  destruct (i0 <? shape0 y0) eqn:H0; [|reflexivity].
  destruct (j0 <? shape1 y0) eqn:H1; [|reflexivity].
  apply Nat.ltb_lt in H0, H1. lia.
Qed.

(** The double loop over the pairs ends normally only when [od] covers
    every pair. *)
Lemma pairs_loop_done (float32 : num -> num) (a : string) (t : ndarray3)
    (y0 : ndarray2) (N : nat) (s s' : list sample) :
  loop (fun samples i0 => loop (add_sample float32 a t y0 i0) (seq 0 N) samples)
       (seq 0 N) s = Done s' ->
  N <= shape0 y0 /\ N <= shape1 y0.
Proof.
  intros Hdone.
  destruct (Nat.le_gt_cases N (shape0 y0)) as [H0 | H0];
    [destruct (Nat.le_gt_cases N (shape1 y0)) as [H1 | H1]; [now split|]|].
  - exfalso.
    destruct (loop_fails_at
                (fun samples i0 =>
                   loop (add_sample float32 a t y0 i0) (seq 0 N) samples)
                (seq 0 N) 0) with (s := s) as [e He].
    + apply in_seq. lia.
    + intros s0. apply (loop_fails_at _ (seq 0 N) (shape1 y0)).
      * apply in_seq. lia.
      * intros s1. exists IndexError. apply add_sample_out_of_bounds. right. lia.
    + congruence.
  - exfalso.
    destruct (loop_fails_at
                (fun samples i0 =>
                   loop (add_sample float32 a t y0 i0) (seq 0 N) samples)
                (seq 0 N) (shape0 y0)) with (s := s) as [e He].
    + apply in_seq. lia.
    + intros s0. apply (loop_fails_at _ (seq 0 N) 0).
      * apply in_seq. lia.
      * intros s1. exists IndexError. apply add_sample_out_of_bounds. left. lia.
    + congruence.
Qed.

Lemma add_area_done (float32 : num -> num) (root : string -> option area_arrays)
    (toy_flag : bool) (samples s' : list sample) (a : string) :
  add_area float32 root toy_flag samples a = Done s' ->
  exists arrays, root a = Some arrays /\ well_shaped toy_flag arrays.
Proof.
  unfold add_area, _load_area_arrays.
  destruct (root a) as [arrays |]; [|discriminate].
  cbn [and_then]. intros Hdone. exists arrays. split; [reflexivity|].
  unfold _make_feature_tensor, well_shaped in *.
  destruct toy_flag.
  - unfold first_column in Hdone.
    destruct (0 <? shape1 (demos arrays)) eqn:Hcol; [|discriminate].
    cbn [and_then shape0 shape1] in Hdone.
    destruct (shape0 (dis arrays) =? shape0 (demos arrays)) eqn:Hd0;
      [|discriminate].
    destruct (shape1 (dis arrays) =? shape0 (demos arrays)) eqn:Hd1;
      [|discriminate].
    cbn [andb and_then dim0] in Hdone.
    apply pairs_loop_done in Hdone.
    apply Nat.ltb_lt in Hcol. apply Nat.eqb_eq in Hd0, Hd1. tauto.
  - unfold concatenate_axis1 in Hdone.
    destruct (shape0 (demos arrays) =? shape0 (pois arrays)) eqn:Hrows;
      [|discriminate].
    cbn [and_then shape0 shape1] in Hdone.
    destruct (shape0 (dis arrays) =? shape0 (demos arrays)) eqn:Hd0;
      [|discriminate].
    destruct (shape1 (dis arrays) =? shape0 (demos arrays)) eqn:Hd1;
      [|discriminate].
    cbn [andb and_then dim0] in Hdone.
    apply pairs_loop_done in Hdone.
    apply Nat.eqb_eq in Hrows, Hd0, Hd1. split; [congruence | tauto].
Qed.

(** X16.  The dataset is built exactly when every listed area has its
    files with shapes that fit: one area that does not makes the whole
    construction raise.  For the first area of the list, a missing file
    raises [FileNotFoundError], demographic and POI arrays with different
    numbers of rows raise [ValueError] (outside toy mode, which does not
    read the POI array), and a distance array that is not [N x N] raises
    [ValueError]. *)
Theorem dataset_is_built_iff_the_shapes_fit :
  forall (float32 : num -> num) (root : string -> option area_arrays)
         (toy_flag : bool) (areas : list string),
    ((exists samples, __init__ float32 root toy_flag areas = Done samples)
     <-> all_well_shaped root toy_flag areas) /\
    (forall a rest,
        areas = a :: rest ->
        (root a = None ->
         __init__ float32 root toy_flag areas = Failed FileNotFoundError) /\
        (forall arrays,
            root a = Some arrays ->
            (toy_flag = false ->
             shape0 (pois arrays) <> shape0 (demos arrays) ->
             __init__ float32 root toy_flag areas = Failed ValueError) /\
            ((if toy_flag then 0 < shape1 (demos arrays)
              else shape0 (pois arrays) = shape0 (demos arrays)) ->
             shape0 (dis arrays) <> shape0 (demos arrays) \/
             shape1 (dis arrays) <> shape0 (demos arrays) ->
             __init__ float32 root toy_flag areas = Failed ValueError))).
Proof.
  intros float32 root toy_flag areas. split.
  - split.
    + intros [samples Hdone]. unfold __init__ in Hdone.
      generalize dependent (@nil sample).
      induction areas as [| a areas IH]; intros s Hdone; [constructor|].
      simpl in Hdone.
      destruct (add_area float32 root toy_flag s a) as [s1 | e] eqn:Harea;
        [|discriminate].
      constructor; [exact (add_area_done _ _ _ _ _ Harea) | exact (IH s1 Hdone)].
    + intros Hall. eexists. exact (init_ok float32 [] Hall).
  - intros a rest ->. unfold __init__. cbn [loop].
    assert (Hfails : forall e, add_area float32 root toy_flag [] a = Failed e ->
              (s' <~ add_area float32 root toy_flag [] a ;;
               loop (add_area float32 root toy_flag) rest s') = Failed e)
      by (intros e He; now rewrite He).
    split.
    + intros Hroot. apply Hfails. unfold add_area, _load_area_arrays.
      now rewrite Hroot.
    + intros arrays Hroot. split.
      * intros -> Hrows. apply Hfails. unfold add_area, _load_area_arrays.
        rewrite Hroot. cbn [and_then].
        unfold _make_feature_tensor, concatenate_axis1.
        destruct (shape0 (demos arrays) =? shape0 (pois arrays)) eqn:E;
          [apply Nat.eqb_eq in E; congruence | reflexivity].
      * intros Hfeat Hdis. apply Hfails. unfold add_area, _load_area_arrays.
        rewrite Hroot. cbn [and_then]. unfold _make_feature_tensor.
        assert (Hcheck : (shape0 (dis arrays) =? shape0 (demos arrays))
                         && (shape1 (dis arrays) =? shape0 (demos arrays)) = false).
        { apply andb_false_iff.
          destruct Hdis as [H | H]; [left | right]; now apply Nat.eqb_neq. }
        destruct toy_flag.
        -- unfold first_column. apply Nat.ltb_lt in Hfeat. rewrite Hfeat.
           cbn [and_then shape0 shape1]. now rewrite Hcheck.
        -- unfold concatenate_axis1. rewrite Hfeat, Nat.eqb_refl.
           cbn [and_then shape0 shape1]. now rewrite Hcheck.
Qed.

Lemma dataset_is_built_iff_the_shapes_fit_witness :
  (exists samples, __init__ (fun v => v) example_root false ["A"] = Done samples) /\
  __init__ (fun v => v) example_root false ["B"; "A"] = Failed FileNotFoundError.
Proof.
  split.
  - apply (dataset_is_built_iff_the_shapes_fit (fun v => v) example_root false ["A"]).
    exact example_is_well_shaped.
  - destruct (dataset_is_built_iff_the_shapes_fit (fun v => v) example_root false
                ["B"; "A"]) as [_ Herr].
    destruct (Herr "B" ["A"] eq_refl) as [Hmissing _].
    apply Hmissing. reflexivity.
Defined.

End DatasetProperties.
